(** * Jobs_HH_and_posgresql: the HeadHunter API client and the PostgreSQL
    data-access layer, embedded from [src/hh_api.py], [src/database.py],
    [src/exceptions.py] and [src/utils.py].

    Python objects become records, attribute and dictionary updates become
    explicit state passing in a small state-and-exception monad, and the two
    external collaborators (the HTTP host behind [requests.get] and the
    database behind [psycopg2]) are interfaces whose answers are arbitrary. *)

From Stdlib Require Import ZArith QArith List String Ascii Lia Lqa.
From stdpp Require Import base option list gmap strings pretty.

Open Scope Z_scope.

(* ===================================================================== *)
(** ** Python values *)
(* ===================================================================== *)

Module Py.

(** A Python [str] is a sequence of Unicode code points. *)
Definition ustr : Type := list N.

(** Source literals are written as UTF-8 text and decoded to code points. *)
Fixpoint utf8_decode (bs : list N) : ustr :=
  match bs with
  | [] => []
  | b0 :: t0 =>
    if (b0 <? 128)%N then b0 :: utf8_decode t0
    else match t0 with
    | [] => [b0]
    | b1 :: t1 =>
      if (b0 <? 224)%N
      then ((b0 - 192) * 64 + (b1 - 128))%N :: utf8_decode t1
      else match t1 with
      | [] => [b0; b1]
      | b2 :: t2 =>
        if (b0 <? 240)%N
        then ((b0 - 224) * 4096 + (b1 - 128) * 64 + (b2 - 128))%N
               :: utf8_decode t2
        else match t2 with
        | [] => [b0; b1; b2]
        | b3 :: t3 =>
          ((b0 - 240) * 262144 + (b1 - 128) * 4096
             + (b2 - 128) * 64 + (b3 - 128))%N :: utf8_decode t3
        end
      end
    end
  end.

Definition u8 (s : string) : ustr :=
  utf8_decode (map N_of_ascii (list_ascii_of_string s)).

Global Arguments u8 : simpl never.

(** [str(n)] for an [int]. *)
Definition str_of_int (z : Z) : ustr := u8 (pretty z).

(** [needle in hay]. *)
Definition contains (needle hay : ustr) : Prop :=
  exists pre suf, hay = pre ++ needle ++ suf.

(** The values the program handles: what [json.loads] produces, what a
    database cursor hands back, and what callers may pass as arguments.
    A [float] or [Decimal] is kept by its exact rational value; a [dict]
    keeps its insertion order. *)
#[warnings="-register-all"]
Inductive value : Type :=
| VNone
| VBool (b : bool)
| VInt (z : Z)
| VFloat (q : Q)
| VStr (s : ustr)
| VList (l : list value)
| VTuple (l : list value)
| VDict (d : list (ustr * value)).

(** [type(v).__name__]. *)
Definition type_name (v : value) : ustr :=
  match v with
  | VNone => u8 "NoneType"
  | VBool _ => u8 "bool"
  | VInt _ => u8 "int"
  | VFloat _ => u8 "float"
  | VStr _ => u8 "str"
  | VList _ => u8 "list"
  | VTuple _ => u8 "tuple"
  | VDict _ => u8 "dict"
  end.

(** [bool(v)]: the test made by [if v] and [if not v]. *)
Definition truthy (v : value) : bool :=
  match v with
  | VNone => false
  | VBool b => b
  | VInt z => negb (z =? 0)
  | VFloat q => negb (Qeq_bool q 0)
  | VStr s => match s with [] => false | _ => true end
  | VList l | VTuple l => match l with [] => false | _ => true end
  | VDict d => match d with [] => false | _ => true end
  end.

Definition Qlt_bool (a b : Q) : bool := negb (Qle_bool b a).

(** [isinstance(v, int)]: [bool] is a subclass of [int]. *)
Definition isinstance_int (v : value) : bool :=
  match v with
  | VInt _ | VBool _ => true
  | _ => false
  end.

(** The integer an [int] instance stands for in arithmetic and comparison. *)
Definition int_value (v : value) : option Z :=
  match v with
  | VInt z => Some z
  | VBool b => Some (if b then 1 else 0)
  | _ => None
  end.

(** [d.get(key, default)] on a [dict]. *)
Fixpoint dict_get (d : list (ustr * value)) (key : ustr) (default : value)
  : value :=
  match d with
  | [] => default
  | (k, v) :: d' => if decide (k = key) then v else dict_get d' key default
  end.

(** ** Exceptions *)

(** The exception classes that occur, with the part of the class hierarchy
    the [except] clauses of the program depend on. *)
Inductive exc_class : Type :=
| Exception
| APIError
| ValueError
| TypeError
| AttributeError
| IndexError
| KeyError
| RequestException
| ConnectionError
| Timeout
| JSONDecodeError
| Psycopg2Error
| InterfaceError
| DatabaseError
| OperationalError
| ProgrammingError
| DataError.

Global Instance exc_class_eq_dec : EqDecision exc_class.
Proof. solve_decision. Defined.

(** The direct base classes of a class. *)
Definition bases (c : exc_class) : list exc_class :=
  match c with
  | Exception => []
  | APIError | ValueError | TypeError | AttributeError | IndexError
  | KeyError | Psycopg2Error => [Exception]
  | RequestException => [Exception]
  | ConnectionError | Timeout => [RequestException]
  | JSONDecodeError => [RequestException; ValueError]
  | InterfaceError | DatabaseError => [Psycopg2Error]
  | OperationalError | ProgrammingError | DataError => [DatabaseError]
  end.

(** [issubclass(c, d)]; the hierarchy is three levels deep. *)
Definition issubclass (c d : exc_class) : bool :=
  let up cs := cs ++ concat (map bases cs) in
  bool_decide (d ∈ up (up (up [c]))).

Record exn : Type := Exc { exc_type : exc_class; exc_msg : ustr }.

(** [isinstance(e, d)]: the test of [except d]. *)
Definition isinstance (e : exn) (d : exc_class) : bool :=
  issubclass (exc_type e) d.

(** [str(e)], as interpolated by an f-string. *)
Definition exn_str (e : exn) : ustr := exc_msg e.

(** ** Computations: state and exceptions *)

Inductive outcome (A : Type) : Type :=
| Ok (a : A)
| Raised (e : exn).
Arguments Ok {A} a.
Arguments Raised {A} e.

Definition Comp (S A : Type) : Type := S -> outcome A * S.

Definition ret {S A} (a : A) : Comp S A := fun s => (Ok a, s).

Definition raise {S A} (e : exn) : Comp S A := fun s => (Raised e, s).

Definition bind {S A B} (c : Comp S A) (k : A -> Comp S B) : Comp S B :=
  fun s =>
    match c s with
    | (Ok a, s') => k a s'
    | (Raised e, s') => (Raised e, s')
    end.

Definition get {S} : Comp S S := fun s => (Ok s, s).

Definition modify {S} (f : S -> S) : Comp S unit := fun s => (Ok tt, f s).

(** An outcome that needs no state. *)
Definition lift {S A} (o : outcome A) : Comp S A := fun s => (o, s).

(** [try: body  except cls as e: handler e]. *)
Definition try_except {S A} (body : Comp S A) (cls : exc_class)
    (handler : exn -> Comp S A) : Comp S A :=
  fun s =>
    match body s with
    | (Ok a, s') => (Ok a, s')
    | (Raised e, s') =>
      if isinstance e cls then handler e s' else (Raised e, s')
    end.

(** [try: body  except c1 as e: h1 e  except c2 as e: h2 e ...]: the first
    clause whose class matches handles the exception; what a handler raises
    is not handled by its sibling clauses. *)
Fixpoint select_handler {S A} (e : exn)
    (clauses : list (exc_class * (exn -> Comp S A))) : Comp S A :=
  match clauses with
  | [] => raise e
  | (cls, handler) :: rest =>
    if isinstance e cls then handler e else select_handler e rest
  end.

Definition try_excepts {S A} (body : Comp S A)
    (clauses : list (exc_class * (exn -> Comp S A))) : Comp S A :=
  fun s =>
    match body s with
    | (Ok a, s') => (Ok a, s')
    | (Raised e, s') => select_handler e clauses s'
    end.

(** [try: body  finally: cleanup]: the cleanup runs on every exit, and the
    outcome of the body stands unless the cleanup itself raises. *)
Definition try_finally {S A} (body : Comp S A) (cleanup : Comp S unit)
  : Comp S A :=
  fun s =>
    match body s with
    | (r, s') =>
      match cleanup s' with
      | (Ok _, s'') => (r, s'')
      | (Raised e, s'') => (Raised e, s'')
      end
    end.

End Py.

Export Py.

Declare Scope comp_scope.
Delimit Scope comp_scope with comp.
Notation "x <- c ;; k" := (bind c (fun x => k))
  (at level 100, c at next level, right associativity) : comp_scope.
Notation "c ;;; k" := (bind c (fun _ => k))
  (at level 100, right associativity) : comp_scope.
Open Scope comp_scope.

(* ===================================================================== *)
(** ** The API client ([src/hh_api.py]) *)
(* ===================================================================== *)

Module HH.

(** What [requests.get(url, headers=..., params=...)] is called with. *)
Record Request : Type := {
  url : ustr;
  headers : gmap string ustr;
  params : gmap string value
}.

(** What the program reads of a [requests.Response]: [status_code], [text]
    and the outcome of [json()], which either decodes the body to a value
    or raises. *)
Record Response : Type := {
  status_code : Z;
  text : ustr;
  json : outcome value
}.

(** The remote host. The answer to a request may depend on every request
    sent before it; [requests.get] returns a response or raises. *)
Class Http : Type :=
  requests_get : list Request -> Request -> outcome Response.

(** The attributes every client object has. *)
Record HeadHunterAPI : Type := {
  __base_url : ustr;
  __headers : gmap string ustr;
  _endpoint : ustr;
  _params : gmap string value
}.

Definition HeadHunterAPI_init : HeadHunterAPI :=
  {| __base_url := u8 "https://api.hh.ru";
     __headers := {[ "User-Agent" := u8 "HH-User-Agent" ]};
     _endpoint := [];
     _params := ∅ |}.

Definition set_endpoint (e : ustr) (api : HeadHunterAPI) : HeadHunterAPI :=
  {| __base_url := __base_url api; __headers := __headers api;
     _endpoint := e; _params := _params api |}.

Definition set_params (p : gmap string value) (api : HeadHunterAPI)
  : HeadHunterAPI :=
  {| __base_url := __base_url api; __headers := __headers api;
     _endpoint := _endpoint api; _params := p |}.

(** A subclass of [HeadHunterAPI]: it holds the inherited attributes. *)
Class Inherits (Obj : Type) : Type := {
  base : Obj -> HeadHunterAPI;
  with_base : HeadHunterAPI -> Obj -> Obj
}.

Global Instance HeadHunterAPI_self : Inherits HeadHunterAPI :=
  {| base := fun api => api; with_base := fun api _ => api |}.

(** A running client: the object and the requests sent so far. *)
Record World (Obj : Type) : Type := {
  self : Obj;
  sent : list Request
}.
Arguments self {Obj} w.
Arguments sent {Obj} w.

Definition on_self {Obj} (f : Obj -> Obj) : Comp (World Obj) unit :=
  modify (fun w => {| self := f (self w); sent := sent w |}).

Definition get_self {Obj} : Comp (World Obj) Obj :=
  fun w => (Ok (self w), w).

Section Client.
Context `{Http}.

(** [requests.get]: ask the host, and record the request. *)
Definition do_requests_get {Obj} (req : Request)
  : Comp (World Obj) Response :=
  fun w => (requests_get (sent w) req,
            {| self := self w; sent := sent w ++ [req] |}).

Definition msg_api_error (status : Z) (body : ustr) : ustr :=
  u8 "Ошибка API: " ++ str_of_int status ++ u8 " - " ++ body.

Definition msg_request_error (e : exn) : ustr :=
  u8 "Ошибка при запросе: " ++ exn_str e.

Definition msg_not_dict : ustr := u8 "API выдает не словарь".

(** [HeadHunterAPI.__connect], which [connect] calls and returns. *)
Definition connect {Obj} `{Inherits Obj} (endpoint : option ustr)
  : Comp (World Obj) (list (ustr * value)) :=
  o <- get_self ;;
  let endpoint :=
    match endpoint with None => _endpoint (base o) | Some e => e end in
  let url := __base_url (base o) ++ endpoint in
  try_except
    (response <- do_requests_get
        {| url := url; headers := __headers (base o);
           params := _params (base o) |} ;;
     if negb (status_code response =? 200)
     then raise (Exc APIError
                   (msg_api_error (status_code response) (text response)))
     else
       result <- lift (json response) ;;
       match result with
       | VDict d => ret d
       | _ => raise (Exc ValueError msg_not_dict)
       end)
    RequestException
    (fun exc_info => raise (Exc APIError (msg_request_error exc_info))).

(** *** [HHVacanciesAPI] *)

Record HHVacanciesAPI : Type := {
  vacancies_base : HeadHunterAPI;
  __vacancies : list value
}.

Global Instance HHVacanciesAPI_inherits : Inherits HHVacanciesAPI :=
  {| base := vacancies_base;
     with_base := fun api o =>
       {| vacancies_base := api; __vacancies := __vacancies o |} |}.

Definition HHVacanciesAPI_init : HHVacanciesAPI :=
  {| vacancies_base :=
       set_params
         (<["per_page" := VInt 100]>
            (<["page" := VInt 0]> (<["text" := VStr []]> ∅)))
         (set_endpoint (u8 "/vacancies") HeadHunterAPI_init);
     __vacancies := [] |}.

(** [self._params[key] = v]. *)
Definition set_param {Obj} `{Inherits Obj} (key : string) (v : value)
  : Comp (World Obj) unit :=
  on_self (fun o =>
    with_base (set_params (<[key := v]> (_params (base o))) (base o)) o).

(** [self._params.get(key, default)]. *)
Definition get_param {Obj} `{Inherits Obj} (key : string) (default : value)
  : Comp (World Obj) value :=
  o <- get_self ;;
  ret (match _params (base o) !! key with Some v => v | None => default end).

Definition msg_not_iterable (v : value) : ustr :=
  u8 "'" ++ type_name v ++ u8 "' object is not iterable".

(** The elements [list.extend(v)] appends: those [iter(v)] yields; a value
    that is not iterable raises. *)
Definition iterate {S} (v : value) : Comp S (list value) :=
  match v with
  | VList l | VTuple l => ret l
  | VStr s => ret (map (fun c => VStr [c]) s)
  | VDict d => ret (map (fun kv => VStr (fst kv)) d)
  | VNone | VBool _ | VInt _ | VFloat _ =>
    raise (Exc TypeError (msg_not_iterable v))
  end.

Definition msg_not_comparable (v : value) : ustr :=
  u8 "'<' not supported between instances of '" ++ type_name v
    ++ u8 "' and 'int'".

(** [v < n] for an [int] [n]: numbers compare, anything else raises. *)
Definition lt_int {S} (v : value) (n : Z) : Comp S bool :=
  match v with
  | VFloat q => ret (Qlt_bool q (inject_Z n))
  | _ =>
    match int_value v with
    | Some z => ret (z <? n)
    | None => raise (Exc TypeError (msg_not_comparable v))
    end
  end.

Definition msg_not_addable (v : value) : ustr :=
  u8 "unsupported operand type(s) for +=: '" ++ type_name v
    ++ u8 "' and 'int'".

(** [v + 1]: defined on numbers, anything else raises. *)
Definition add_one {S} (v : value) : Comp S value :=
  match v with
  | VFloat q => ret (VFloat (q + 1))
  | _ =>
    match int_value v with
    | Some z => ret (VInt (z + 1))
    | None => raise (Exc TypeError (msg_not_addable v))
    end
  end.

Definition extend_vacancies (l : list value) : Comp (World HHVacanciesAPI) unit :=
  on_self (fun o =>
    {| vacancies_base := vacancies_base o;
       __vacancies := __vacancies o ++ l |}).

(** The [while] loop of [get_vacancies_by_employer_id]. One unit of fuel
    is one evaluation of the loop condition; [None] is "fuel ran out". *)
Fixpoint vacancies_loop (fuel : nat) (max_pages : Z)
  : Comp (World HHVacanciesAPI) (option unit) :=
  match fuel with
  | O => ret None
  | S fuel' =>
    page <- get_param "page" (VInt 0) ;;
    continue <- lt_int page max_pages ;;
    if continue : bool then
      data <- connect None ;;
      let vacancy := dict_get data (u8 "items") (VList []) in
      if negb (truthy vacancy) then ret (Some tt)
      else
        items <- iterate vacancy ;;
        extend_vacancies items ;;;
        o <- get_self ;;
        match _params (vacancies_base o) !! "page" with
        | None => raise (Exc KeyError (u8 "'page'"))
        | Some p =>
          p' <- add_one p ;;
          set_param "page" p' ;;;
          vacancies_loop fuel' max_pages
        end
    else ret (Some tt)
  end.

(** [HHVacanciesAPI.get_vacancies_by_employer_id]. The page cursor starts
    at 0 and grows by one per iteration, so [max_pages] iterations and one
    last test of the condition are all the loop can make. *)
Definition get_vacancies_by_employer_id (employer_id : ustr) (max_pages : Z)
  : Comp (World HHVacanciesAPI) (option (list value)) :=
  set_param "employer_id" (VStr employer_id) ;;;
  set_param "page" (VInt 0) ;;;
  on_self (fun o =>
    {| vacancies_base := vacancies_base o; __vacancies := [] |}) ;;;
  done <- vacancies_loop (S (Z.to_nat max_pages)) max_pages ;;
  o <- get_self ;;
  ret (match done with
       | Some _ => Some (__vacancies o)
       | None => None
       end).

(** *** [HHEmployerAPI] *)

Record HHEmployerAPI : Type := {
  employer_base : HeadHunterAPI;
  __employer : list (ustr * value)
}.

Global Instance HHEmployerAPI_inherits : Inherits HHEmployerAPI :=
  {| base := employer_base;
     with_base := fun api o =>
       {| employer_base := api; __employer := __employer o |} |}.

Definition HHEmployerAPI_init : HHEmployerAPI :=
  {| employer_base := set_endpoint (u8 "/employers/") HeadHunterAPI_init;
     __employer := [] |}.

(** [HHEmployerAPI.get_employer_by_id]. *)
Definition get_employer_by_id (employer_id : ustr)
  : Comp (World HHEmployerAPI) (list (ustr * value)) :=
  o <- get_self ;;
  let endpoint_url := _endpoint (employer_base o) ++ employer_id in
  data <- connect (Some endpoint_url) ;;
  on_self (fun o =>
    {| employer_base := employer_base o; __employer := data |}) ;;;
  o <- get_self ;;
  ret (__employer o).

(** *** [HHEmployersAPI] *)

Record HHEmployersAPI : Type := {
  employers_base : HeadHunterAPI;
  __employers : list value
}.

Global Instance HHEmployersAPI_inherits : Inherits HHEmployersAPI :=
  {| base := employers_base;
     with_base := fun api o =>
       {| employers_base := api; __employers := __employers o |} |}.

Definition HHEmployersAPI_init : HHEmployersAPI :=
  {| employers_base := set_endpoint (u8 "/employers") HeadHunterAPI_init;
     __employers := [] |}.

(** [self._params = p]. *)
Definition assign_params {Obj} `{Inherits Obj} (p : gmap string value)
  : Comp (World Obj) unit :=
  on_self (fun o => with_base (set_params p (base o)) o).

Definition clear_employers : Comp (World HHEmployersAPI) unit :=
  on_self (fun o =>
    {| employers_base := employers_base o; __employers := [] |}).

Definition extend_employers (l : list value)
  : Comp (World HHEmployersAPI) unit :=
  on_self (fun o =>
    {| employers_base := employers_base o;
       __employers := __employers o ++ l |}).

Definition search_params (keyword : ustr) : gmap string value :=
  <["area" := VStr (u8 "113")]>
    (<["only_with_vacancies" := VStr (u8 "true")]>
       (<["text" := VStr keyword]> ∅)).

(** [HHEmployersAPI.search_employers_by_keyword]. *)
Definition search_employers_by_keyword (keyword : ustr)
  : Comp (World HHEmployersAPI) (list value) :=
  assign_params (search_params keyword) ;;;
  clear_employers ;;;
  data <- connect None ;;
  let employers_search := dict_get data (u8 "items") (VList []) in
  items <- iterate employers_search ;;
  extend_employers items ;;;
  o <- get_self ;;
  ret (__employers o).

Definition msg_not_number : ustr := u8 "Аргумент не является числом".

Definition msg_range : ustr :=
  u8 "Количество должно быть в диапазоне от 1 до 100".

Definition top_params (top_n : value) : gmap string value :=
  <["area" := VStr (u8 "113")]>
    (<["sort_by" := VStr (u8 "by_vacancies_open")]>
       (<["per_page" := top_n]> ∅)).

(** [HHEmployersAPI.get_top_employers]; the argument is whatever the caller
    passes. *)
Definition get_top_employers (top_n : value)
  : Comp (World HHEmployersAPI) (list value) :=
  if negb (isinstance_int top_n)
  then raise (Exc TypeError msg_not_number)
  else
    (* [top_n > 100], on an [int] instance *)
    if match int_value top_n with Some z => 100 <? z | None => false end
    then raise (Exc ValueError msg_range)
    else
      assign_params (top_params top_n) ;;;
      clear_employers ;;;
      data <- connect None ;;
      let employers_search := dict_get data (u8 "items") (VList []) in
      items <- iterate employers_search ;;
      extend_employers items ;;;
      o <- get_self ;;
      ret (__employers o).

(** *** Notions the statements use *)

(** The request [connect] makes for an object and an endpoint argument. *)
Definition connect_request (api : HeadHunterAPI) (endpoint : option ustr)
  : Request :=
  {| url := __base_url api
              ++ match endpoint with None => _endpoint api | Some e => e end;
     headers := __headers api;
     params := _params api |}.

(** The query parameters of the request for page [i] of an employer. *)
Definition page_params (o : HHVacanciesAPI) (employer_id : ustr) (i : Z)
  : gmap string value :=
  <["page" := VInt i]>
    (<["employer_id" := VStr employer_id]> (_params (vacancies_base o))).

(** The object while page [i] is being fetched, [acc] accumulated so far. *)
Definition at_page (o : HHVacanciesAPI) (employer_id : ustr) (i : Z)
    (acc : list value) : HHVacanciesAPI :=
  {| vacancies_base :=
       set_params (page_params o employer_id i) (vacancies_base o);
     __vacancies := acc |}.

Definition page_request (o : HHVacanciesAPI) (employer_id : ustr) (i : nat)
  : Request :=
  connect_request
    (vacancies_base (at_page o employer_id (Z.of_nat i) [])) None.

(** The requests for pages [0 .. n-1], in order. *)
Definition page_requests (o : HHVacanciesAPI) (employer_id : ustr) (n : nat)
  : list Request :=
  map (page_request o employer_id) (seq 0 n).

(** The host's answer to the request for page [i], pages [0 .. i-1] having
    been requested after [sent0]. *)
Definition page_response (o : HHVacanciesAPI) (employer_id : ustr)
    (sent0 : list Request) (i : nat) : outcome Response :=
  requests_get (sent0 ++ page_requests o employer_id i)
               (page_request o employer_id i).

(** The ['items'] list of a response: status 200, a mapping as body, and
    under ['items'] a list (or no such key: the default is the empty
    list). *)
Definition response_items (r : outcome Response) : option (list value) :=
  match r with
  | Ok response =>
    if status_code response =? 200 then
      match json response with
      | Ok (VDict d) =>
        match dict_get d (u8 "items") (VList []) with
        | VList l => Some l
        | _ => None
        end
      | _ => None
      end
    else None
  | Raised _ => None
  end.

Definition page_items (o : HHVacanciesAPI) (employer_id : ustr)
    (sent0 : list Request) (i : nat) : list value :=
  match response_items (page_response o employer_id sent0 i) with
  | Some l => l
  | None => []
  end.

(** Page [i] arrived with a list of at least one item. *)
Definition page_full (o : HHVacanciesAPI) (employer_id : ustr)
    (sent0 : list Request) (i : nat) : Prop :=
  exists l, response_items (page_response o employer_id sent0 i) = Some l
            /\ l <> [].

(** Page [i] arrived with an empty list of items. *)
Definition page_empty (o : HHVacanciesAPI) (employer_id : ustr)
    (sent0 : list Request) (i : nat) : Prop :=
  response_items (page_response o employer_id sent0 i) = Some [].

(** What [connect] makes of the host's answer. *)
Definition connect_outcome (answer : outcome Response)
  : outcome (list (ustr * value)) :=
  match answer with
  | Ok response =>
    if status_code response =? 200 then
      match json response with
      | Ok (VDict d) => Ok d
      | Ok _ => Raised (Exc ValueError msg_not_dict)
      | Raised e =>
        if isinstance e RequestException
        then Raised (Exc APIError (msg_request_error e))
        else Raised e
      end
    else Raised (Exc APIError
                   (msg_api_error (status_code response) (text response)))
  | Raised e =>
    if isinstance e RequestException
    then Raised (Exc APIError (msg_request_error e))
    else Raised e
  end.

(** The world at the head of the loop when pages [0 .. k-1] have been
    fetched after [sent0] and their items accumulated in [acc]. *)
Definition loop_head (o : HHVacanciesAPI) (employer_id : ustr)
    (sent0 : list Request) (k : nat) (acc : list value)
  : World HHVacanciesAPI :=
  {| self := at_page o employer_id (Z.of_nat k) acc;
     sent := sent0 ++ page_requests o employer_id k |}.

(** The items of pages [0 .. k-1], page after page. *)
Definition pages_items (o : HHVacanciesAPI) (employer_id : ustr)
    (sent0 : list Request) (k : nat) : list value :=
  concat (map (page_items o employer_id sent0) (seq 0 k)).

(** The request [get_top_employers] makes. *)
Definition top_request (o : HHEmployersAPI) (top_n : value) : Request :=
  connect_request (set_params (top_params top_n) (employers_base o)) None.

(** The world in which [get_top_employers] and
    [search_employers_by_keyword] call [connect]: the parameters assigned
    and the list cleared. *)
Definition employers_ready (p : gmap string value)
    (w : World HHEmployersAPI) : World HHEmployersAPI :=
  {| self := {| employers_base := set_params p (employers_base (self w));
                __employers := [] |};
     sent := sent w |}.

End Client.

(** "Succeeds and returns at most [top_n] items". *)
Definition succeeds_within (top_n : Z) (r : outcome (list value)) : Prop :=
  exists l, r = Ok l /\ Z.of_nat (length l) <= top_n.

(** *** Hosts to run the client against *)

Definition ok_response (body : value) : outcome Response :=
  Ok {| status_code := 200; text := []; json := Ok body |}.

Definition item (id : string) : value := VDict [(u8 "id", VStr (u8 id))].

(** Two vacancies on page 0, one on page 1, none from page 2 on. *)
Definition paged_host : Http := fun _ req =>
  match params req !! "page" with
  | Some (VInt 0) =>
    ok_response (VDict [(u8 "items", VList [item "11"; item "12"])])
  | Some (VInt 1) => ok_response (VDict [(u8 "items", VList [item "21"])])
  | _ => ok_response (VDict [(u8 "items", VList [])])
  end.

(** Three employers, whatever is asked. *)
Definition three_items_host : Http := fun _ _ =>
  ok_response (VDict [(u8 "items", VList [item "1"; item "2"; item "3"])]).

(** Status 400 with an explanation as body. *)
Definition bad_request : Response :=
  {| status_code := 400;
     text := u8 "Параметры переданы с ошибкой";
     json := Ok (VStr (u8 "Параметры переданы с ошибкой")) |}.

Definition bad_request_host : Http := fun _ _ => Ok bad_request.

Definition network_error : exn := Exc ConnectionError (u8 "Network error").

(** No route to the host. *)
Definition unreachable_host : Http := fun _ _ => Raised network_error.

(** The hosts of [tests/test_hh_api.py]. *)

Definition id_123_host : Http := fun _ _ =>
  ok_response (VDict [(u8 "id", VStr (u8 "123"))]).

Definition one_item_host : Http := fun _ _ =>
  ok_response (VDict [(u8 "items", VList [item "123"])]).

Definition error_key_host : Http := fun _ _ =>
  ok_response (VDict [(u8 "error", VStr (u8 "error message"))]).

Definition not_a_dict_host : Http := fun _ _ =>
  ok_response (VStr (u8 "Error")).

Definition fresh {Obj} (o : Obj) : World Obj := {| self := o; sent := [] |}.

End HH.

(* ===================================================================== *)
(** ** The data-access layer ([src/database.py]) *)
(* ===================================================================== *)

Module DB.

(** The keyword arguments of [psycopg2.connect]. *)
Record ConnArgs : Type := {
  host : value;
  user : value;
  port : value;
  dbname : value;
  password : value
}.

(** Handles of the driver's connection and cursor objects. *)
Definition connection : Type := nat.
Definition cursor : Type := nat.

(** The database driver. [psycopg2.connect], [connection.cursor],
    [cursor.execute], [cursor.fetchall] and [cursor.fetchone] return or
    raise, whatever the state [W] of the server and the driver is; closing
    a cursor or a connection does not raise. *)
Class Psycopg2 (W : Type) : Type := {
  psycopg2_connect : ConnArgs -> W -> outcome connection * W;
  conn_cursor : connection -> W -> outcome cursor * W;
  cur_execute : cursor -> ustr -> option (list value) -> W -> outcome unit * W;
  cur_fetchall : cursor -> W -> outcome value * W;
  cur_fetchone : cursor -> W -> outcome value * W;
  cur_close : cursor -> W -> W;
  conn_close : connection -> W -> W
}.

(** [float]: the type of floating-point numbers with its zero, and the
    conversion [float(v)], which raises on what it cannot convert. *)
Class PyFloat : Type := {
  float : Type;
  float_zero : float;
  to_float : value -> outcome float
}.

(** The calls made to the driver, in order. *)
Inductive Call : Type :=
| CallConnect (args : ConnArgs)
| CallCursor (c : connection)
| CallExecute (cur : cursor) (query : ustr) (vars : option (list value))
| CallFetchall (cur : cursor)
| CallFetchone (cur : cursor)
| CallCursorClose (cur : cursor)
| CallClose (c : connection).

Record DBManager : Type := {
  __config : gmap string value;
  __host : value;
  __user : value;
  __port : value;
  __database : value;
  __password : value;
  __conn : option connection
}.

(** [DBManager.__init__], from the section of the configuration file that
    [config] has parsed. *)
Definition DBManager_init (config : gmap string value) : DBManager :=
  let get key default :=
    match config !! key with Some v => v | None => default end in
  {| __config := config;
     __host := get "host" (VStr (u8 "localhost"));
     __user := get "user" (VStr (u8 "postgres"));
     __port := get "port" (VInt 5432);
     __database := get "dbname" (VStr (u8 "postgres"));
     __password := get "password" VNone;
     __conn := None |}.

Definition set_conn (c : option connection) (o : DBManager) : DBManager :=
  {| __config := __config o; __host := __host o; __user := __user o;
     __port := __port o; __database := __database o;
     __password := __password o; __conn := c |}.

(** A running manager: the object, the driver's world, the calls made to
    the driver and the lines printed. *)
Record World (W : Type) : Type := {
  self : DBManager;
  driver : W;
  calls : list Call;
  stdout : list ustr
}.
Arguments self {W} w.
Arguments driver {W} w.
Arguments calls {W} w.
Arguments stdout {W} w.

Section Manager.
Context {W : Type} `{Psycopg2 W} `{PyFloat}.

Definition get_self : Comp (World W) DBManager :=
  fun w => (Ok (self w), w).

Definition assign_conn (c : option connection) : Comp (World W) unit :=
  modify (fun w =>
    {| self := set_conn c (self w); driver := driver w;
       calls := calls w; stdout := stdout w |}).

Definition print (line : ustr) : Comp (World W) unit :=
  modify (fun w =>
    {| self := self w; driver := driver w;
       calls := calls w; stdout := stdout w ++ [line] |}).

(** A call to the driver that returns or raises. *)
Definition call {A} (c : Call) (f : W -> outcome A * W) : Comp (World W) A :=
  fun w =>
    let (r, d) := f (driver w) in
    (r, {| self := self w; driver := d;
           calls := calls w ++ [c]; stdout := stdout w |}).

(** A call to the driver that cannot raise. *)
Definition call_ (c : Call) (f : W -> W) : Comp (World W) unit :=
  call c (fun d => (Ok tt, f d)).

(** The arguments [connect] passes to [psycopg2.connect]. *)
Definition conn_args (o : DBManager) : ConnArgs :=
  {| host := __host o; user := __user o; port := __port o;
     dbname := __database o; password := __password o |}.

(** [DBManager.connect]. *)
Definition connect : Comp (World W) unit :=
  o <- get_self ;;
  match __conn o with
  | None =>
    try_except
      (c <- call (CallConnect (conn_args o))
                 (psycopg2_connect (conn_args o)) ;;
       assign_conn (Some c))
      DatabaseError
      (fun exc_info =>
         print (u8 "Ошибка подключения: " ++ exn_str exc_info) ;;;
         assign_conn None)
  | Some _ => print (u8 "Подключение уже установлено")
  end.

(** [DBManager.close]. *)
Definition close : Comp (World W) unit :=
  o <- get_self ;;
  match __conn o with
  | Some c => call_ (CallClose c) (conn_close c) ;;; assign_conn None
  | None => ret tt
  end.

Definition msg_no_cursor : ustr :=
  u8 "'NoneType' object has no attribute 'cursor'".

(** [with self.__conn.cursor() as cur: body cur]. The attribute lookup
    fails on [None]; leaving the block closes the cursor. *)
Definition with_cursor {A} (body : cursor -> Comp (World W) A)
  : Comp (World W) A :=
  o <- get_self ;;
  match __conn o with
  | None => raise (Exc AttributeError msg_no_cursor)
  | Some c =>
    cur <- call (CallCursor c) (conn_cursor c) ;;
    try_finally (body cur) (call_ (CallCursorClose cur) (cur_close cur))
  end.

Definition execute (cur : cursor) (query : ustr) (vars : option (list value))
  : Comp (World W) unit :=
  call (CallExecute cur query vars) (cur_execute cur query vars).

Definition fetchall (cur : cursor) : Comp (World W) value :=
  call (CallFetchall cur) (cur_fetchall cur).

Definition fetchone (cur : cursor) : Comp (World W) value :=
  call (CallFetchone cur) (cur_fetchone cur).

Definition msg_error (e : exn) : ustr := u8 "Произошла ошибка: " ++ exn_str e.

Definition sql_companies_and_vacancies_count : ustr := u8 "
                    SELECT employer_name, COUNT(vacancy_id) AS count_vacancies
                    FROM employers
                    LEFT JOIN vacancies USING(employer_id)
                    GROUP BY employer_name;
                    ".

Definition sql_all_vacancies : ustr := u8 "
                    SELECT employer_name, vacancy_name, salary_from, salary_to, vacancy_url
                    FROM vacancies
                    LEFT JOIN employers USING(employer_id)
                    ".

Definition sql_avg_salary : ustr := u8 "
                    SELECT AVG((salary_from + salary_to)/2) AS avg_salary
                    FROM vacancies
                    ".

Definition sql_higher_salary : ustr := u8 "
                    WITH avg_salary AS (SELECT (AVG(salary_from + salary_to))/2 AS avg_salary FROM vacancies)
                    SELECT vacancy_id, employer_id, vacancy_name, city, vacancy_url, salary_from, salary_to
                    FROM vacancies
                    WHERE ((salary_from+salary_to)/2) > (SELECT avg_salary FROM avg_salary);
                    ".

(** [result if result else []]. *)
Definition or_empty (result : value) : value :=
  if truthy result then result else VList [].

(** The body shared by the four list-returning queries: run the statement
    in a cursor, fetch every row, [except psycopg2.DatabaseError] print and
    return [[]], [finally] close. *)
Definition fetch_rows (query : ustr) (vars : option (list value))
  : Comp (World W) value :=
  try_finally
    (try_except
       (with_cursor (fun cur =>
          execute cur query vars ;;;
          result <- fetchall cur ;;
          ret (or_empty result)))
       DatabaseError
       (fun exc_info => print (msg_error exc_info) ;;; ret (VList [])))
    close.

(** [DBManager.get_companies_and_vacancies_count]. *)
Definition get_companies_and_vacancies_count : Comp (World W) value :=
  connect ;;;
  fetch_rows sql_companies_and_vacancies_count None.

(** [DBManager.get_all_vacancies]. *)
Definition get_all_vacancies : Comp (World W) value :=
  connect ;;;
  fetch_rows sql_all_vacancies None.

Definition msg_not_subscriptable (v : value) : ustr :=
  u8 "'" ++ type_name v ++ u8 "' object is not subscriptable".

(** [v[0]]. *)
Definition subscript0 {S} (v : value) : Comp S value :=
  match v with
  | VTuple (x :: _) | VList (x :: _) => ret x
  | VTuple [] => raise (Exc IndexError (u8 "tuple index out of range"))
  | VList [] => raise (Exc IndexError (u8 "list index out of range"))
  | VStr (c :: _) => ret (VStr [c])
  | VStr [] => raise (Exc IndexError (u8 "string index out of range"))
  | VDict _ => raise (Exc KeyError (u8 "0"))
  | VNone | VBool _ | VInt _ | VFloat _ =>
    raise (Exc TypeError (msg_not_subscriptable v))
  end.

(** [DBManager.get_avg_salary]. *)
Definition get_avg_salary : Comp (World W) float :=
  connect ;;;
  try_finally
    (try_excepts
       (result <- with_cursor (fun cur =>
          execute cur sql_avg_salary None ;;;
          row <- fetchone cur ;;
          subscript0 row) ;;
        if truthy result then lift (to_float result) else ret float_zero)
       [ (DatabaseError,
          fun exc_info => print (msg_error exc_info) ;;; ret float_zero);
         (ValueError,
          fun _ => print (u8 "Получено не числовое значение") ;;;
                   ret float_zero) ])
    close.

(** [DBManager.get_vacancies_with_higher_salary]. *)
Definition get_vacancies_with_higher_salary : Comp (World W) value :=
  connect ;;;
  fetch_rows sql_higher_salary None.

(** [str.isspace] of one code point: the separators of [str.split()]. *)
Definition isspace (c : N) : bool :=
  ((9 <=? c) && (c <=? 13) || (28 <=? c) && (c <=? 32)
   || (c =? 133) || (c =? 160) || (c =? 5760)
   || (8192 <=? c) && (c <=? 8202)
   || (c =? 8232) || (c =? 8233) || (c =? 8239) || (c =? 8287)
   || (c =? 12288))%N.

(** [s.split()]: the maximal runs of characters that are not whitespace. *)
Fixpoint split_from (word s : ustr) : list ustr :=
  match s with
  | [] => match word with [] => [] | _ => [word] end
  | c :: s' =>
    if isspace c
    then match word with
         | [] => split_from [] s'
         | _ => word :: split_from [] s'
         end
    else split_from (word ++ [c]) s'
  end.

Definition split (s : ustr) : list ustr := split_from [] s.

(** [sep.join(parts)]. *)
Fixpoint join (sep : ustr) (parts : list ustr) : ustr :=
  match parts with
  | [] => []
  | [p] => p
  | p :: rest => p ++ sep ++ join sep rest
  end.

Definition keyword_query (keywords_list : list ustr) : ustr :=
  let conditions :=
    join (u8 " AND ")
         (map (fun _ => u8 "LOWER(vacancy_name) LIKE LOWER(%s)")
              keywords_list) in
  u8 "SELECT vacancy_id, employer_id, vacancy_name, city, vacancy_url, salary_from, salary_to "
    ++ u8 "FROM vacancies WHERE " ++ conditions.

Definition keyword_vars (keywords_list : list ustr) : list value :=
  map (fun keyword => VStr (u8 "%" ++ keyword ++ u8 "%")) keywords_list.

(** [DBManager.get_vacancies_with_keyword]. *)
Definition get_vacancies_with_keyword (keywords : ustr)
  : Comp (World W) value :=
  match split keywords with
  | [] => ret (VList [])
  | _ =>
    let keywords_list := split keywords in
    connect ;;;
    fetch_rows (keyword_query keywords_list)
               (Some (keyword_vars keywords_list))
  end.

(** *** Notions the statements use *)

(** A string of whitespace only; the empty string is one. *)
Definition whitespace_only (s : ustr) : Prop :=
  Forall (fun c => isspace c = true) s.

(** A keyword: at least one character, none of them whitespace. *)
Definition is_token (t : ustr) : Prop :=
  t <> [] /\ Forall (fun c => isspace c = false) t.

(** Calls that open or close a connection. *)
Definition connection_call (c : Call) : bool :=
  match c with
  | CallConnect _ | CallClose _ => true
  | _ => false
  end.

(** A computation that leaves the object unchanged and whose calls to the
    driver are calls on cursors. *)
Definition quiet {A} (op : Comp (World W) A) : Prop :=
  forall w : World W,
    self (snd (op w)) = self w
    /\ exists more,
         calls (snd (op w)) = calls w ++ more
         /\ Forall (fun x => connection_call x = false) more.

(** An operation that, started without a connection, opens its own and
    ends without one, whether it returns or raises. Its calls to the
    driver are: one [psycopg2.connect] that raised and nothing more; or
    one [psycopg2.connect] that returned a connection, calls on cursors,
    and last the [close] of that connection. *)
Definition opens_and_closes {A} (op : Comp (World W) A) : Prop :=
  forall w : World W,
    __conn (self w) = None ->
    let w' := snd (op w) in
    let args := conn_args (self w) in
    __conn (self w') = None
    /\ ((exists e,
           fst (psycopg2_connect args (driver w)) = Raised e
           /\ calls w' = calls w ++ [CallConnect args])
        \/ (exists c between,
              fst (psycopg2_connect args (driver w)) = Ok c
              /\ Forall (fun x => connection_call x = false) between
              /\ calls w' = calls w ++ CallConnect args :: between
                                  ++ [CallClose c])).

(** An operation that, started with a connection [c] already set, makes
    no call to [psycopg2.connect], works on cursors, closes [c] last and
    ends with the attribute unset. *)
Definition uses_and_closes {A} (op : Comp (World W) A) : Prop :=
  forall (w : World W) (c : connection),
    __conn (self w) = Some c ->
    let w' := snd (op w) in
    __conn (self w') = None
    /\ exists between,
         Forall (fun x => connection_call x = false) between
         /\ calls w' = calls w ++ between ++ [CallClose c].

(** The first call on the cursor that raises, in a run that opens a
    cursor on [c], executes and fetches every row. *)
Definition first_failure (c : connection) (d1 : W) (query : ustr)
    (vars : option (list value)) (e : exn) : Prop :=
  fst (conn_cursor c d1) = Raised e
  \/ (exists cur d2,
        conn_cursor c d1 = (Ok cur, d2)
        /\ fst (cur_execute cur query vars d2) = Raised e)
  \/ (exists cur d2 d3,
        conn_cursor c d1 = (Ok cur, d2)
        /\ cur_execute cur query vars d2 = (Ok tt, d3)
        /\ fst (cur_fetchall cur d3) = Raised e).

(** What opening a cursor on [c], executing and fetching every row comes
    to: the rows, or what the first failing call raised. *)
Definition cursor_work (c : connection) (d1 : W) (query : ustr)
    (vars : option (list value)) : outcome value :=
  match conn_cursor c d1 with
  | (Ok cur, d2) =>
    match cur_execute cur query vars d2 with
    | (Ok _, d3) => fst (cur_fetchall cur d3)
    | (Raised e, _) => Raised e
    end
  | (Raised e, _) => Raised e
  end.

(** A computation whose [execute] calls all carry the statement [query]
    with the parameters [vars]. *)
Definition only_executes (query : ustr) (vars : option (list value)) {A}
    (op : Comp (World W) A) : Prop :=
  forall (w : World W) cur q v,
    In (CallExecute cur q v) (calls (snd (op w))) ->
    In (CallExecute cur q v) (calls w) \/ (q = query /\ v = vars).

(** The statement text for [n] keywords. *)
Definition keyword_query_for (n : nat) : ustr :=
  keyword_query (replicate n []).

End Manager.

Definition fresh {W} (config : gmap string value) (d : W) : World W :=
  {| self := DBManager_init config; driver := d; calls := []; stdout := [] |}.

(** *** A server that is down *)

Definition connection_refused : exn :=
  Exc OperationalError (u8 "connection refused").

Definition closed_connection : exn :=
  Exc InterfaceError (u8 "connection already closed").

(** [psycopg2.connect] raises [OperationalError], a [DatabaseError]; there
    is no connection for the other calls to work on. *)
Definition server_down : Psycopg2 unit :=
  {| psycopg2_connect := fun _ d => (Raised connection_refused, d);
     conn_cursor := fun _ d => (Raised closed_connection, d);
     cur_execute := fun _ _ _ d => (Raised closed_connection, d);
     cur_fetchall := fun _ d => (Raised closed_connection, d);
     cur_fetchone := fun _ d => (Raised closed_connection, d);
     cur_close := fun _ d => d;
     conn_close := fun _ d => d |}.

(** *** A server that holds the [vacancies] table *)

(** A row of [vacancies]; the two salary columns and the foreign key may
    be NULL. *)
Record Vacancy : Type := {
  vacancy_id : Z;
  employer_id : option Z;
  vacancy_name : ustr;
  city : ustr;
  vacancy_url : ustr;
  salary_from : option Z;
  salary_to : option Z
}.

(** The row as the cursor hands it back. *)
Definition row_of (v : Vacancy) : value :=
  let nullable x := match x with Some z => VInt z | None => VNone end in
  VTuple [VInt (vacancy_id v); nullable (employer_id v);
          VStr (vacancy_name v); VStr (city v); VStr (vacancy_url v);
          nullable (salary_from v); nullable (salary_to v)].

(** [a + b] on the column type INT: outside 32 bits the statement fails. *)
Definition int4_add (a b : Z) : outcome Z :=
  if (-2147483648 <=? a + b) && (a + b <=? 2147483647)
  then Ok (a + b)
  else Raised (Exc DataError (u8 "integer out of range")).

(** [salary_from + salary_to]: NULL when either is NULL. *)
Definition salary_sum (v : Vacancy) : outcome (option Z) :=
  match salary_from v, salary_to v with
  | Some a, Some b =>
    match int4_add a b with
    | Ok s => Ok (Some s)
    | Raised e => Raised e
    end
  | _, _ => Ok None
  end.

Fixpoint salary_sums (table : list Vacancy) : outcome (list (option Z)) :=
  match table with
  | [] => Ok []
  | v :: rest =>
    match salary_sum v, salary_sums rest with
    | Ok s, Ok ss => Ok (s :: ss)
    | Raised e, _ => Raised e
    | _, Raised e => Raised e
    end
  end.

(** [AVG(x)] over integers: NULL values are skipped, no value at all gives
    NULL, and the result is a [numeric], kept here as the exact quotient. *)
Definition sql_avg (xs : list (option Z)) : option Q :=
  let present : list Z := omap id xs in
  match present with
  | [] => None
  | _ =>
    Some (inject_Z (fold_right Z.add 0%Z present)
          / inject_Z (Z.of_nat (length present)))%Q
  end.

(** The statement of [get_vacancies_with_higher_salary]:
    [avg_salary] is [AVG(salary_from + salary_to) / 2], a [numeric];
    a row is selected when [(salary_from + salary_to) / 2], a division of
    integers that truncates, is greater; a NULL on either side selects
    nothing. Rows come in table order. *)
Definition select_higher_salary (table : list Vacancy)
  : outcome (list Vacancy) :=
  match salary_sums table with
  | Raised e => Raised e
  | Ok sums =>
    match sql_avg sums with
    | None => Ok []
    | Some avg =>
      let avg_salary := (avg / 2)%Q in
      Ok (List.filter
            (fun v =>
               match salary_sum v with
               | Ok (Some s) => Qlt_bool avg_salary (inject_Z (Z.quot s 2))
               | _ => false
               end)
            table)
    end
  end.

(** The server: the table, and the rows the cursor has yet to hand out. *)
Record Postgres : Type := {
  vacancies : list Vacancy;
  pending : option (list value)
}.

Definition no_results : exn :=
  Exc ProgrammingError (u8 "no results to fetch").

Definition not_understood : exn :=
  Exc ProgrammingError (u8 "statement outside this server's grammar").

(** It accepts every connection and understands one statement, that of
    [get_vacancies_with_higher_salary]. *)
Definition postgres : Psycopg2 Postgres :=
  {| psycopg2_connect := fun _ d => (Ok 0%nat, d);
     conn_cursor := fun _ d => (Ok 0%nat, d);
     cur_execute := fun _ query _ d =>
       if decide (query = sql_higher_salary) then
         match select_higher_salary (vacancies d) with
         | Ok rows =>
           (Ok tt, {| vacancies := vacancies d;
                      pending := Some (map row_of rows) |})
         | Raised e => (Raised e, d)
         end
       else (Raised not_understood, d);
     cur_fetchall := fun _ d =>
       match pending d with
       | Some rows =>
         (Ok (VList rows), {| vacancies := vacancies d; pending := Some [] |})
       | None => (Raised no_results, d)
       end;
     cur_fetchone := fun _ d =>
       match pending d with
       | Some (row :: rows) =>
         (Ok row, {| vacancies := vacancies d; pending := Some rows |})
       | Some [] => (Ok VNone, d)
       | None => (Raised no_results, d)
       end;
     cur_close := fun _ d => {| vacancies := vacancies d; pending := None |};
     conn_close := fun _ d => d |}.

(** *** The claim about the salary query, in the words of the specification *)

(** Midpoint salary: the average of the lower and the upper bound. *)
Definition midpoint (v : Vacancy) : option Q :=
  match salary_from v, salary_to v with
  | Some a, Some b => Some ((inject_Z a + inject_Z b) / 2)%Q
  | _, _ => None
  end.

(** The global average midpoint, over the vacancies that have one. *)
Definition average_midpoint (table : list Vacancy) : option Q :=
  let ms : list Q := omap midpoint table in
  match ms with
  | [] => None
  | _ => Some (fold_right Qplus 0%Q ms / inject_Z (Z.of_nat (length ms)))%Q
  end.

(** The vacancies whose midpoint strictly exceeds the average midpoint. *)
Definition above_average_midpoint (table : list Vacancy) : list Vacancy :=
  match average_midpoint table with
  | None => []
  | Some avg =>
    List.filter
      (fun v =>
         match midpoint v with
         | Some m => Qlt_bool avg m
         | None => false
         end)
      table
  end.

(** The sum of the two bounds of a vacancy that has both. *)
Definition bounds_sum (v : Vacancy) : option Z :=
  match salary_from v, salary_to v with
  | Some a, Some b => Some (a + b)
  | _, _ => None
  end.

(** Every sum of bounds in the table satisfies [P]. *)
Definition sums_are (P : Z -> Prop) (table : list Vacancy) : Prop :=
  forall v s, In v table -> bounds_sum v = Some s -> P s.

(** Two vacancies whose salary bounds differ by one unit. *)
Definition senior : Vacancy :=
  {| vacancy_id := 1; employer_id := Some 1740;
     vacancy_name := u8 "Senior engineer"; city := u8 "Moscow";
     vacancy_url := u8 "https://hh.ru/vacancy/1";
     salary_from := Some 100000; salary_to := Some 100001 |}.

Definition junior : Vacancy :=
  {| vacancy_id := 2; employer_id := Some 1740;
     vacancy_name := u8 "Junior engineer"; city := u8 "Moscow";
     vacancy_url := u8 "https://hh.ru/vacancy/2";
     salary_from := Some 100000; salary_to := Some 100000 |}.

(** Three vacancies with even sums of bounds, one without an upper
    bound. *)
Definition engineer : Vacancy :=
  {| vacancy_id := 10; employer_id := Some 1;
     vacancy_name := u8 "Engineer"; city := u8 "City";
     vacancy_url := u8 "v.url";
     salary_from := Some 100; salary_to := Some 200 |}.

Definition lead : Vacancy :=
  {| vacancy_id := 11; employer_id := Some 1;
     vacancy_name := u8 "Lead"; city := u8 "City";
     vacancy_url := u8 "w.url";
     salary_from := Some 300; salary_to := Some 400 |}.

Definition intern : Vacancy :=
  {| vacancy_id := 12; employer_id := None;
     vacancy_name := u8 "Intern"; city := u8 "City";
     vacancy_url := u8 "x.url";
     salary_from := Some 900; salary_to := None |}.

Definition serving (table : list Vacancy) : Postgres :=
  {| vacancies := table; pending := None |}.

(** *** A server without the tables *)

Definition no_relation : exn :=
  Exc ProgrammingError (u8 "relation 'vacancies' does not exist").

(** Connections and cursors open; every statement is refused with
    [ProgrammingError], a [DatabaseError]. *)
Definition server_without_tables : Psycopg2 unit :=
  {| psycopg2_connect := fun _ d => (Ok 0%nat, d);
     conn_cursor := fun _ d => (Ok 0%nat, d);
     cur_execute := fun _ _ _ d => (Raised no_relation, d);
     cur_fetchall := fun _ d => (Raised no_results, d);
     cur_fetchone := fun _ d => (Raised no_results, d);
     cur_close := fun _ d => d;
     conn_close := fun _ d => d |}.

(** *** The cursor of [tests/test_database.py] *)

(** Every call succeeds; [fetchall] and [fetchone] hand back the values
    they were prepared with. *)
Record Prepared : Type := {
  fetchall_value : value;
  fetchone_value : value
}.

Definition mock_cursor : Psycopg2 Prepared :=
  {| psycopg2_connect := fun _ d => (Ok 0%nat, d);
     conn_cursor := fun _ d => (Ok 0%nat, d);
     cur_execute := fun _ _ _ d => (Ok tt, d);
     cur_fetchall := fun _ d => (Ok (fetchall_value d), d);
     cur_fetchone := fun _ d => (Ok (fetchone_value d), d);
     cur_close := fun _ d => d;
     conn_close := fun _ d => d |}.

(** *** A stand-in for [float] *)

Definition digit_value (c : N) : option Z :=
  if ((48 <=? c) && (c <=? 57))%N then Some (Z.of_N c - 48) else None.

(** The digits a text starts with, and the rest of it. *)
Fixpoint leading_digits (s : ustr) : list Z * ustr :=
  match s with
  | [] => ([], [])
  | c :: s' =>
    match digit_value c with
    | Some d => let (ds, rest) := leading_digits s' in (d :: ds, rest)
    | None => ([], s)
    end
  end.

Definition digits_value (ds : list Z) : Z :=
  fold_left (fun acc d => 10 * acc + d) ds 0.

Fixpoint lstrip (s : ustr) : ustr :=
  match s with
  | c :: s' => if isspace c then lstrip s' else s
  | [] => []
  end.

Definition strip (s : ustr) : ustr := rev (lstrip (rev (lstrip s))).

(** A leading [-] or [+]. *)
Definition read_sign (s : ustr) : bool * ustr :=
  match s with
  | 45%N :: s' => (true, s')
  | 43%N :: s' => (false, s')
  | _ => (false, s)
  end.

(** The number a decimal text stands for, as [float] reads it: whitespace
    around it, a sign, digits with a point before, between or after them,
    and an exponent after [e] or [E]. *)
Definition read_float (s : ustr) : option Q :=
  let '(negative, s1) := read_sign (strip s) in
  let '(whole, s2) := leading_digits s1 in
  let '(fraction, s3) :=
    match s2 with
    | 46%N :: s' => leading_digits s'
    | _ => ([], s2)
    end in
  let exponent :=
    match s3 with
    | [] => Some 0
    | c :: s' =>
      if ((c =? 101) || (c =? 69))%N then
        let '(below, s4) := read_sign s' in
        match leading_digits s4 with
        | (d :: ds, []) =>
          Some (if below then - digits_value (d :: ds)
                else digits_value (d :: ds))
        | _ => None
        end
      else None
    end in
  match whole ++ fraction, exponent with
  | _ :: _, Some e =>
    let m := digits_value (whole ++ fraction) in
    let m := if negative then - m else m in
    let k := e - Z.of_nat (length fraction) in
    Some (if 0 <=? k then inject_Z (m * 10 ^ k)
          else Qmake m (Z.to_pos (10 ^ (- k))))
  | _, _ => None
  end.

(** Numbers by their exact value, where [float] rounds to the nearest
    double; of strings, the decimal texts, also by their exact value. What
    it cannot read raises [ValueError] for a string and [TypeError] for any
    other value. It does not read [inf], [nan], digits grouped with [_] or
    digits outside ASCII, which [float] reads. *)
Definition exact_float : PyFloat :=
  {| float := Q;
     float_zero := 0%Q;
     to_float := fun v =>
       match v with
       | VInt z => Ok (inject_Z z)
       | VBool b => Ok (if b then 1 else 0)%Q
       | VFloat q => Ok q
       | VStr s =>
         match read_float s with
         | Some q => Ok q
         | None =>
           Raised (Exc ValueError (u8 "could not convert string to float"))
         end
       | _ =>
         Raised (Exc TypeError
                   (u8 "float() argument must be a string or a real number"))
       end |}.

End DB.

(* ===================================================================== *)
(** ** Fetching for the database ([src/utils.py], the API side) *)
(* ===================================================================== *)

Module Fetch.
Import HH.

(** [str(v)] of a float or of a container: the text of a [repr]. *)
Class PyStr : Type := str_other : value -> ustr.

(** [str(v)], as an f-string interpolates it. *)
Definition str_of `{PyStr} (v : value) : ustr :=
  match v with
  | VStr s => s
  | VNone => u8 "None"
  | VBool true => u8 "True"
  | VBool false => u8 "False"
  | VInt z => str_of_int z
  | _ => str_other v
  end.

Definition msg_no_attribute (v : value) (name : string) : ustr :=
  u8 "'" ++ type_name v ++ u8 "' object has no attribute '" ++ u8 name
    ++ u8 "'".

Definition is_dict (v : value) : Prop := exists d, v = VDict d.

(** [v.get(key)]: the value under [key] or [None] on a [dict]; no other
    value has the attribute. *)
Definition py_get {S} (v : value) (key : ustr) : Comp S value :=
  match v with
  | VDict d => ret (dict_get d key VNone)
  | _ => raise (Exc AttributeError (msg_no_attribute v "get"))
  end.

Section Fetching.
Context `{Http} `{PyStr}.

(** [HHVacanciesAPI.get_vacancies_by_employer_id] called with whatever
    value the caller has for [employer_id]; [get_vacancies_by_employer_id]
    is the case of a [str]. *)
Definition get_vacancies_by_employer_id_of (employer_id : value)
    (max_pages : Z) : Comp (World HHVacanciesAPI) (option (list value)) :=
  set_param "employer_id" employer_id ;;;
  set_param "page" (VInt 0) ;;;
  on_self (fun o =>
    {| vacancies_base := vacancies_base o; __vacancies := [] |}) ;;;
  done <- vacancies_loop (S (Z.to_nat max_pages)) max_pages ;;
  o <- get_self ;;
  ret (match done with
       | Some _ => Some (__vacancies o)
       | None => None
       end).

(** The loop of [get_data_employers]; [get_employer_by_id] interpolates
    the id it is given into the endpoint. *)
Fixpoint get_data_employers_loop (employers_id : list value)
    (employers : list value) : Comp (World HHEmployerAPI) (list value) :=
  match employers_id with
  | [] => ret employers
  | employer :: rest =>
    id <- py_get employer (u8 "id") ;;
    employer <- get_employer_by_id (str_of id) ;;
    get_data_employers_loop rest (employers ++ [VDict employer])
  end.

(** [get_data_employers]: a client object of its own, one
    [get_employer_by_id] per element. *)
Definition get_data_employers (employers_id : list value)
  : Comp (list Request) (list value) :=
  fun sent0 =>
    let (r, w) := get_data_employers_loop employers_id []
                    {| self := HHEmployerAPI_init; sent := sent0 |} in
    (r, sent w).

(** The loop of [get_data_vacancy_by_employers], with the default
    [max_pages] of 20. The list the method returns is the object's own,
    which the next call clears; [extend] has copied its elements by then. *)
Fixpoint get_data_vacancy_loop (employers_id : list value)
    (vacancies_list : list value)
  : Comp (World HHVacanciesAPI) (option (list value)) :=
  match employers_id with
  | [] => ret (Some vacancies_list)
  | employer :: rest =>
    id <- py_get employer (u8 "id") ;;
    vacancies <- get_vacancies_by_employer_id_of id 20 ;;
    match vacancies with
    | Some vacancies =>
      get_data_vacancy_loop rest (vacancies_list ++ vacancies)
    | None => ret None
    end
  end.

(** [get_data_vacancy_by_employers]. *)
Definition get_data_vacancy_by_employers (employers_id : list value)
  : Comp (list Request) (option (list value)) :=
  fun sent0 =>
    let (r, w) := get_data_vacancy_loop employers_id []
                    {| self := HHVacanciesAPI_init; sent := sent0 |} in
    (r, sent w).

(** The address [get_data_employers] asks for an element of its input. *)
Definition employer_url (employer : value) : ustr :=
  u8 "https://api.hh.ru" ++ u8 "/employers/"
    ++ str_of (match employer with
               | VDict d => dict_get d (u8 "id") VNone
               | _ => VNone
               end).

End Fetching.

(** [str] of the remaining values, for running: not their Python text. *)
Definition opaque_str : PyStr := fun v => u8 "<" ++ type_name v ++ u8 ">".

End Fetch.

(* ===================================================================== *)
(** ** Writing to the database ([src/utils.py], the database side) *)
(* ===================================================================== *)

Module Store.
Import DB.

(** What the functions of [src/utils.py] need of the driver besides
    cursors: [psycopg2.connect(dbname=database_name, **params)], the call
    with its keyword arguments as written, and [connection.commit()]. Both
    return or raise. *)
Class Psycopg2Kw (W : Type) : Type := {
  psycopg2_connect_kw :
    ustr -> gmap string value -> W -> outcome connection * W;
  conn_commit : connection -> W -> outcome unit * W
}.

(** The calls made to the driver, in order. The parameters of a statement
    are kept as the sequence of their values. *)
Inductive Event : Type :=
| EvConnect (database_name : ustr) (params : gmap string value)
| EvCursor (c : connection)
| EvExecute (cur : cursor) (query : ustr) (vars : option (list value))
| EvFetchone (cur : cursor)
| EvCursorClose (cur : cursor)
| EvCommit (c : connection)
| EvClose (c : connection).

(** A run of these functions: the driver's world, the calls made to the
    driver and the lines printed. *)
Record Session (W : Type) : Type := {
  backend : W;
  events : list Event;
  output : list ustr
}.
Arguments backend {W} s.
Arguments events {W} s.
Arguments output {W} s.

Definition is_none (v : value) : bool :=
  match v with
  | VNone => true
  | _ => false
  end.

(** The exception of an attribute looked up on [None]. *)
Definition no_attribute (name : string) : exn :=
  Exc AttributeError (Fetch.msg_no_attribute VNone name).

Definition msg_error (e : exn) : ustr := u8 "Произошла ошибка " ++ exn_str e.

Definition msg_connected (database_name : ustr) : ustr :=
  u8 "Connected: " ++ database_name.

Definition sql_is_database : ustr := u8 "SELECT 1 FROM pg_database WHERE datname=%s".

Definition sql_create_table_vacancies : ustr := u8 "
                    CREATE TABLE vacancies(
                        vacancy_id SERIAL PRIMARY KEY,
                        employer_id INT REFERENCES employers(employer_id),
                        vacancy_name VARCHAR(100) NOT NULL,
                        city VARCHAR(100) NOT NULL,
                        vacancy_url VARCHAR(255) NOT NULL,
                        salary_from INT,
                        salary_to INT
                    )
                    ".

Definition sql_create_table_employers : ustr := u8 "
                    CREATE TABLE employers(
                        employer_id SERIAL PRIMARY KEY,
                        employer_name VARCHAR(100) UNIQUE NOT NULL,
                        employer_url VARCHAR(100) NOT NULL
                    )
                    ".

Definition sql_insert_employers : ustr := u8 "
                    INSERT INTO employers (employer_id, employer_name, employer_url)
                    VALUES (%s, %s, %s)
                    ".

Definition sql_insert_vacancies : ustr := u8 "
                    INSERT INTO vacancies (
                        vacancy_id, employer_id, vacancy_name, city, vacancy_url, salary_from, salary_to
                    )
                    VALUES (%s, %s, %s, %s, %s, %s, %s)
                    ".

(** The values [safe_data_to_employers] inserts for an element of its
    input: those under ["id"], ["name"] and ["alternate_url"] of a [dict]
    ([None] for a missing key); no other element has a [get]. *)
Definition employer_row (employer : value) : option (list value) :=
  match employer with
  | VDict d =>
    Some [dict_get d (u8 "id") VNone; dict_get d (u8 "name") VNone;
          dict_get d (u8 "alternate_url") VNone]
  | _ => None
  end.

(** The values [safe_data_to_vacancies] inserts for an element of its
    input. The element, its ["employer"] and its ["area"] must be [dict]s;
    its ["salary"] is [None] or missing, which gives two NULLs, or a
    [dict]. *)
Definition vacancy_row (vacancy : value) : option (list value) :=
  match vacancy with
  | VDict d =>
    match dict_get d (u8 "employer") VNone, dict_get d (u8 "area") VNone with
    | VDict employer, VDict area =>
      let row salary_from salary_to :=
        [dict_get d (u8 "id") VNone; dict_get employer (u8 "id") VNone;
         dict_get d (u8 "name") VNone; dict_get area (u8 "name") VNone;
         dict_get d (u8 "alternate_url") VNone; salary_from; salary_to] in
      match dict_get d (u8 "salary") VNone with
      | VNone => Some (row VNone VNone)
      | VDict salary_info =>
        Some (row (dict_get salary_info (u8 "from") VNone)
                  (dict_get salary_info (u8 "to") VNone))
      | _ => None
      end
    | _, _ => None
    end
  | _ => None
  end.

(** The [execute] calls that insert [rows] through [cur]. *)
Definition written (cur : cursor) (query : ustr) (rows : list (list value))
  : list Event :=
  map (fun row => EvExecute cur query (Some row)) rows.

Definition is_commit (ev : Event) : bool :=
  match ev with
  | EvCommit _ => true
  | _ => false
  end.

(** What a run that saved [data] over the connection [c] comes to. It
    returns, and either every element had its row, the rows were executed
    in order through one cursor, the cursor was closed and [commit] was
    called (a [commit] that raised is reported); or no [commit] was called
    and an error is reported. The connection is closed last. *)
Definition all_or_nothing {W} (row : value -> option (list value))
    (query : ustr) (data : list value) (database_name : ustr)
    (params : gmap string value) (c : connection) (s : Session W)
    (run : outcome unit * Session W) : Prop :=
  fst run = Ok tt
  /\ ((exists cur rows,
         mapM row data = Some rows
         /\ events (snd run)
            = events s
              ++ EvConnect database_name params :: EvCursor c
                 :: written cur query rows
              ++ [EvCursorClose cur; EvCommit c; EvClose c]
         /\ (output (snd run) = output s ++ [msg_connected database_name]
             \/ exists e,
                  output (snd run)
                  = output s ++ [msg_connected database_name; msg_error e]))
      \/ (exists e work,
            events (snd run)
            = events s ++ EvConnect database_name params :: work
              ++ [EvClose c]
            /\ Forall (fun ev => is_commit ev = false) work
            /\ output (snd run)
               = output s ++ [msg_connected database_name; msg_error e])).

Section Writing.
Context {W : Type} `{Psycopg2 W} `{Psycopg2Kw W}.

Definition print (line : ustr) : Comp (Session W) unit :=
  modify (fun s =>
    {| backend := backend s; events := events s;
       output := output s ++ [line] |}).

(** A call to the driver that returns or raises. *)
Definition call {A} (ev : Event) (f : W -> outcome A * W)
  : Comp (Session W) A :=
  fun s =>
    let (r, d) := f (backend s) in
    (r, {| backend := d; events := events s ++ [ev]; output := output s |}).

(** [connect_db]. *)
Definition connect_db (database_name : ustr) (params : gmap string value)
  : Comp (Session W) (option connection) :=
  try_except
    (conn <- call (EvConnect database_name params)
                  (psycopg2_connect_kw database_name params) ;;
     print (msg_connected database_name) ;;;
     ret (Some conn))
    DatabaseError
    (fun exc_info => print (msg_error exc_info) ;;; ret None).

(** [with conn.cursor() as cur: body cur], for the local [conn] that
    [connect_db] returned: [None] has no [cursor]; leaving the block closes
    the cursor. *)
Definition with_cursor {A} (conn : option connection)
    (body : cursor -> Comp (Session W) A) : Comp (Session W) A :=
  match conn with
  | None => raise (no_attribute "cursor")
  | Some c =>
    cur <- call (EvCursor c) (conn_cursor c) ;;
    try_finally (body cur)
      (call (EvCursorClose cur) (fun d => (Ok tt, cur_close cur d)))
  end.

Definition execute (cur : cursor) (query : ustr) (vars : option (list value))
  : Comp (Session W) unit :=
  call (EvExecute cur query vars) (cur_execute cur query vars).

Definition fetchone (cur : cursor) : Comp (Session W) value :=
  call (EvFetchone cur) (cur_fetchone cur).

(** [conn.commit()]. *)
Definition commit (conn : option connection) : Comp (Session W) unit :=
  match conn with
  | None => raise (no_attribute "commit")
  | Some c => call (EvCommit c) (conn_commit c)
  end.

(** [conn.close()]. *)
Definition close (conn : option connection) : Comp (Session W) unit :=
  match conn with
  | None => raise (no_attribute "close")
  | Some c => call (EvClose c) (fun d => (Ok tt, conn_close c d))
  end.

(** [is_database]. *)
Definition is_database (database_name : ustr) (params : gmap string value)
  : Comp (Session W) bool :=
  conn <- connect_db (u8 "postgres") params ;;
  match conn with
  | None => ret false
  | Some _ =>
    try_finally
      (with_cursor conn (fun cur =>
         execute cur sql_is_database (Some [VStr database_name]) ;;;
         row <- fetchone cur ;;
         ret (negb (is_none row))))
      (close conn)
  end.

(** [except Exception as exc_info: print(...)]. *)
Definition report (exc_info : exn) : Comp (Session W) unit :=
  print (msg_error exc_info).

(** The body shared by [create_table_vacancies] and
    [create_table_employers]: they differ in the statement and in what
    they do when the database does not exist. *)
Definition create_table (query : ustr) (otherwise : Comp (Session W) unit)
    (database_name : ustr) (params : gmap string value)
  : Comp (Session W) unit :=
  conn <- connect_db database_name params ;;
  try_finally
    (try_except
       (with_cursor conn (fun cur =>
          found <- is_database database_name params ;;
          (if found then execute cur query None else otherwise) ;;;
          commit conn))
       Exception report)
    (close conn).

(** [create_table_vacancies]. *)
Definition create_table_vacancies
  : ustr -> gmap string value -> Comp (Session W) unit :=
  create_table sql_create_table_vacancies (print (u8 "БД не существует")).

(** [create_table_employers]. *)
Definition create_table_employers
  : ustr -> gmap string value -> Comp (Session W) unit :=
  create_table sql_create_table_employers (ret tt).

(** The values of one employer, read in the order of the source. *)
Definition employer_fields (employer : value)
  : Comp (Session W) (list value) :=
  employer_id <- Fetch.py_get employer (u8 "id") ;;
  name <- Fetch.py_get employer (u8 "name") ;;
  url <- Fetch.py_get employer (u8 "alternate_url") ;;
  ret [employer_id; name; url].

(** The values of one vacancy, read in the order of the source. *)
Definition vacancy_fields (vacancy : value)
  : Comp (Session W) (list value) :=
  vacancy_id <- Fetch.py_get vacancy (u8 "id") ;;
  employer <- Fetch.py_get vacancy (u8 "employer") ;;
  employer_id <- Fetch.py_get employer (u8 "id") ;;
  vacancy_name <- Fetch.py_get vacancy (u8 "name") ;;
  area <- Fetch.py_get vacancy (u8 "area") ;;
  city <- Fetch.py_get area (u8 "name") ;;
  url <- Fetch.py_get vacancy (u8 "alternate_url") ;;
  salary_info <- Fetch.py_get vacancy (u8 "salary") ;;
  salary <- (if is_none salary_info then ret (VNone, VNone)
             else
               salary_from <- Fetch.py_get salary_info (u8 "from") ;;
               salary_to <- Fetch.py_get salary_info (u8 "to") ;;
               ret (salary_from, salary_to)) ;;
  ret [vacancy_id; employer_id; vacancy_name; city; url;
       fst salary; snd salary].

(** [for element in data: ... cur.execute(query, (values...))]. *)
Fixpoint insert_rows (fields : value -> Comp (Session W) (list value))
    (query : ustr) (cur : cursor) (data : list value)
  : Comp (Session W) unit :=
  match data with
  | [] => ret tt
  | element :: rest =>
    row <- fields element ;;
    execute cur query (Some row) ;;;
    insert_rows fields query cur rest
  end.

(** The body shared by [safe_data_to_employers] and
    [safe_data_to_vacancies]: they differ in the values read from an
    element and in the statement. *)
Definition save_rows (fields : value -> Comp (Session W) (list value))
    (query : ustr) (data : list value) (database_name : ustr)
    (params : gmap string value) : Comp (Session W) unit :=
  conn <- connect_db database_name params ;;
  try_finally
    (try_except
       (with_cursor conn (fun cur => insert_rows fields query cur data) ;;;
        commit conn)
       Exception report)
    (close conn).

(** [safe_data_to_employers]. *)
Definition safe_data_to_employers
  : list value -> ustr -> gmap string value -> Comp (Session W) unit :=
  save_rows employer_fields sql_insert_employers.

(** [safe_data_to_vacancies]. *)
Definition safe_data_to_vacancies
  : list value -> ustr -> gmap string value -> Comp (Session W) unit :=
  save_rows vacancy_fields sql_insert_vacancies.

(** What a run that creates a table over the connection [c] and the
    cursor [cur] comes to, given the run [asked] of [is_database] inside
    it. It returns. When the answer is [True] the statement is executed,
    and [commit] is called exactly when that returned; when it is [False]
    no statement is executed, the lines [missing] are printed and [commit]
    is called all the same; when [is_database] raised, nothing else is
    done. What [execute], [commit] or [is_database] raised is printed.
    The cursor and then the connection are closed last. *)
Definition created_if_found (query : ustr) (missing : list ustr)
    (c : connection) (cur : cursor) (asked : outcome bool * Session W)
    (run : outcome unit * Session W) : Prop :=
  let committed (d : W) (before : list Event) (lines : list ustr) :=
    events (snd run)
    = events (snd asked) ++ before
      ++ [EvCommit c; EvCursorClose cur; EvClose c]
    /\ output (snd run)
       = output (snd asked) ++ lines
         ++ match fst (conn_commit c d) with
            | Ok _ => []
            | Raised e => [msg_error e]
            end in
  fst run = Ok tt
  /\ match fst asked with
     | Ok true =>
       match cur_execute cur query None (backend (snd asked)) with
       | (Ok _, d) => committed d [EvExecute cur query None] []
       | (Raised e, _) =>
         events (snd run)
         = events (snd asked)
           ++ [EvExecute cur query None; EvCursorClose cur; EvClose c]
         /\ output (snd run) = output (snd asked) ++ [msg_error e]
       end
     | Ok false => committed (backend (snd asked)) [] missing
     | Raised e =>
       events (snd run)
       = events (snd asked) ++ [EvCursorClose cur; EvClose c]
       /\ output (snd run) = output (snd asked) ++ [msg_error e]
     end.

(** A driver that accepts every statement and every commit on an open
    connection. *)
Definition accepting : Prop :=
  (forall cur query vars d, exists d',
     cur_execute cur query vars d = (Ok tt, d'))
  /\ (forall c d, exists d', conn_commit c d = (Ok tt, d')).

End Writing.

Definition fresh {W} (d : W) : Session W :=
  {| backend := d; events := []; output := [] |}.

(** *** Drivers to run the functions against *)

(** The keyword-argument side of a server that is down. *)
Definition server_down_kw : Psycopg2Kw unit :=
  {| psycopg2_connect_kw := fun _ _ d => (Raised connection_refused, d);
     conn_commit := fun _ d => (Raised closed_connection, d) |}.

(** The keyword-argument side of the cursor of [tests]: every call
    succeeds. *)
Definition mock_connection : Psycopg2Kw Prepared :=
  {| psycopg2_connect_kw := fun _ _ d => (Ok 0%nat, d);
     conn_commit := fun _ d => (Ok tt, d) |}.

Definition yandex : value :=
  VDict [(u8 "id", VStr (u8 "1740")); (u8 "name", VStr (u8 "Yandex"));
         (u8 "alternate_url", VStr (u8 "https://hh.ru/employer/1740"))].

Definition yandex_row : list value :=
  [VStr (u8 "1740"); VStr (u8 "Yandex");
   VStr (u8 "https://hh.ru/employer/1740")].

(** A vacancy without a salary. *)
Definition developer : value :=
  VDict [(u8 "id", VStr (u8 "77")); (u8 "name", VStr (u8 "Developer"));
         (u8 "employer", VDict [(u8 "id", VStr (u8 "1740"))]);
         (u8 "area", VDict [(u8 "name", VStr (u8 "Moscow"))]);
         (u8 "alternate_url", VStr (u8 "https://hh.ru/vacancy/77"));
         (u8 "salary", VNone)].

Definition developer_row : list value :=
  [VStr (u8 "77"); VStr (u8 "1740"); VStr (u8 "Developer");
   VStr (u8 "Moscow"); VStr (u8 "https://hh.ru/vacancy/77"); VNone; VNone].

Definition nothing_prepared : Prepared :=
  {| fetchall_value := VNone; fetchone_value := VNone |}.

(** [fetchone] hands back the row [(1,)]. *)
Definition one_prepared : Prepared :=
  {| fetchall_value := VNone; fetchone_value := VTuple [VInt 1] |}.

End Store.

(* ===================================================================== *)
(** * Properties of the API client *)
(* ===================================================================== *)

Section ClientFacts.
Import HH.
Context `{Http}.

(** [connect] sends exactly the request [connect_request] and leaves the
    object alone. *)
Lemma connect_unfold {Obj} `{Inherits Obj} (endpoint : option ustr)
    (w : World Obj) :
  let req := connect_request (base (self w)) endpoint in
  connect endpoint w
  = (connect_outcome (requests_get (sent w) req),
     {| self := self w; sent := sent w ++ [req] |}).
Proof.
  unfold connect, connect_outcome, connect_request, try_except, bind,
    get_self, do_requests_get, lift, raise, ret; simpl.
  destruct (requests_get _ _) as [response|e]; simpl.
  - destruct (status_code response =? 200); simpl; [|reflexivity].
    destruct (json response) as [[]|e]; simpl; try reflexivity.
    destruct (isinstance e RequestException); reflexivity.
  - destruct (isinstance e RequestException); reflexivity.
Qed.

Lemma contains_here (pre x suf : ustr) : contains x (pre ++ x ++ suf).
Proof. exists pre, suf. reflexivity. Qed.

Lemma contains_end (pre x : ustr) : contains x (pre ++ x).
Proof. exists pre, []. by rewrite app_nil_r. Qed.

(** ** The page loop *)

Lemma page_requests_S o eid (k : nat) :
  page_requests o eid (S k) = page_requests o eid k ++ [page_request o eid k].
Proof. unfold page_requests. by rewrite seq_S, map_app. Qed.

Lemma pages_items_S o eid sent0 (k : nat) :
  pages_items o eid sent0 (S k)
  = pages_items o eid sent0 k ++ page_items o eid sent0 k.
Proof.
  unfold pages_items. rewrite seq_S, map_app, concat_app. simpl.
  by rewrite app_nil_r.
Qed.

Lemma connect_at_head o eid sent0 (k : nat) acc :
  connect None (loop_head o eid sent0 k acc)
  = (connect_outcome (page_response o eid sent0 k),
     {| self := at_page o eid (Z.of_nat k) acc;
        sent := sent0 ++ page_requests o eid (S k) |}).
Proof.
  rewrite connect_unfold. simpl. rewrite page_requests_S, app_assoc.
  reflexivity.
Qed.

Lemma at_page_next o eid (k : nat) acc :
  {| vacancies_base :=
       set_params (<["page" := VInt (Z.of_nat k + 1)]>
                     (page_params o eid (Z.of_nat k)))
                  (vacancies_base o);
     __vacancies := acc |}
  = at_page o eid (Z.of_nat (S k)) acc.
Proof.
  unfold at_page, page_params. rewrite insert_insert_eq.
  by replace (Z.of_nat k + 1) with (Z.of_nat (S k)) by lia.
Qed.

Lemma response_items_outcome r l :
  response_items r = Some l ->
  exists d, connect_outcome r = Ok d
            /\ dict_get d (u8 "items") (VList []) = VList l.
Proof.
  unfold response_items, connect_outcome.
  destruct r as [response|]; [|done].
  destruct (status_code response =? 200); [|done].
  destruct (json response) as [[]|]; try done.
  destruct (dict_get d _ _) eqn:E; try done.
  intros [= ->]. eauto.
Qed.

Lemma get_page_at_head o eid sent0 (k : nat) acc :
  get_param "page" (VInt 0) (loop_head o eid sent0 k acc)
  = (Ok (VInt (Z.of_nat k)), loop_head o eid sent0 k acc).
Proof.
  unfold get_param, bind, get_self, ret, loop_head, at_page, page_params.
  simpl. by rewrite lookup_insert_eq.
Qed.

(** Entering an iteration at the head of the loop: the condition is read
    off the cursor, and when it holds the page is requested. *)
Ltac enter_iteration :=
  cbn [vacancies_loop]; unfold bind at 1; rewrite get_page_at_head;
  unfold bind at 1, lt_int at 1; cbn [int_value ret].

(** A full page is accumulated and the cursor moves on. *)
Lemma loop_full o eid sent0 (k : nat) acc fuel N :
  Z.of_nat k < N ->
  page_full o eid sent0 k ->
  vacancies_loop (S fuel) N (loop_head o eid sent0 k acc)
  = vacancies_loop fuel N
      (loop_head o eid sent0 (S k) (acc ++ page_items o eid sent0 k)).
Proof.
  intros Hk (l & Hl & Hne).
  assert (Hi : page_items o eid sent0 k = l)
    by (unfold page_items; by rewrite Hl).
  destruct (response_items_outcome _ _ Hl) as (d & Hd & Hitems).
  enter_iteration. apply Z.ltb_lt in Hk as ->.
  unfold bind at 1. rewrite connect_at_head, Hd, Hitems.
  destruct l as [|x l]; [done|]. cbn [truthy negb iterate].
  unfold bind at 1. cbn [ret]. unfold bind at 1.
  unfold extend_vacancies at 1, on_self at 1, modify at 1. cbn [self sent].
  unfold bind at 1, get_self at 1. cbn [self sent vacancies_base at_page].
  unfold set_params at 1. cbn [_params]. unfold page_params at 1.
  rewrite lookup_insert_eq. unfold bind at 1, add_one at 1.
  cbn [int_value ret].
  unfold bind at 1, set_param at 1, on_self at 1, modify at 1.
  cbn [self sent base with_base HHVacanciesAPI_inherits vacancies_base
       __vacancies].
  f_equal. unfold loop_head. f_equal.
  rewrite <- at_page_next, Hi. reflexivity.
Qed.

(** An empty page ends the loop; nothing is accumulated from it. *)
Lemma loop_empty o eid sent0 (k : nat) acc fuel N :
  Z.of_nat k < N ->
  page_empty o eid sent0 k ->
  vacancies_loop (S fuel) N (loop_head o eid sent0 k acc)
  = (Ok (Some tt),
     {| self := at_page o eid (Z.of_nat k) acc;
        sent := sent0 ++ page_requests o eid (S k) |}).
Proof.
  intros Hk Hl.
  destruct (response_items_outcome _ _ Hl) as (d & Hd & Hitems).
  enter_iteration. apply Z.ltb_lt in Hk as ->.
  unfold bind at 1. rewrite connect_at_head, Hd, Hitems. reflexivity.
Qed.

(** At [max_pages] the condition fails and no request is made. *)
Lemma loop_max o eid sent0 (k : nat) acc fuel N :
  N <= Z.of_nat k ->
  vacancies_loop (S fuel) N (loop_head o eid sent0 k acc)
  = (Ok (Some tt), loop_head o eid sent0 k acc).
Proof.
  intros Hk. enter_iteration.
  by replace (Z.of_nat k <? N) with false by (symmetry; apply Z.ltb_ge; lia).
Qed.

(** What [connect] raises leaves the loop as it is. *)
Lemma loop_raise o eid sent0 (k : nat) acc fuel N e :
  Z.of_nat k < N ->
  fst (connect None (loop_head o eid sent0 k acc)) = Raised e ->
  vacancies_loop (S fuel) N (loop_head o eid sent0 k acc)
  = (Raised e,
     {| self := at_page o eid (Z.of_nat k) acc;
        sent := sent0 ++ page_requests o eid (S k) |}).
Proof.
  intros Hk He. enter_iteration. apply Z.ltb_lt in Hk as ->.
  unfold bind at 1. rewrite connect_at_head in *. simpl in He.
  by rewrite He.
Qed.

(** [j] full pages in a row, from page [k] on. *)
Lemma loop_full_run o eid sent0 N (j : nat) : forall (k : nat) acc fuel,
  Z.of_nat (k + j) <= N ->
  (forall i, (k <= i < k + j)%nat -> page_full o eid sent0 i) ->
  vacancies_loop (j + fuel) N (loop_head o eid sent0 k acc)
  = vacancies_loop fuel N
      (loop_head o eid sent0 (k + j)
         (acc ++ concat (map (page_items o eid sent0) (seq k j)))).
Proof.
  induction j as [|j IH]; intros k acc fuel Hle Hfull.
  - simpl. by rewrite Nat.add_0_r, app_nil_r.
  - cbn [Nat.add seq map concat]. rewrite loop_full; [|lia|apply Hfull; lia].
    rewrite IH; [|lia|intros; apply Hfull; lia].
    by rewrite <- app_assoc, Nat.add_succ_r.
Qed.

(** The three assignments before the loop. *)
Lemma before_loop eid N (w : World HHVacanciesAPI) :
  get_vacancies_by_employer_id eid N w
  = (done <- vacancies_loop (S (Z.to_nat N)) N ;;
     o <- get_self ;;
     ret (match done with
          | Some _ => Some (__vacancies o)
          | None => None
          end)) (loop_head (self w) eid (sent w) 0 []).
Proof.
  unfold get_vacancies_by_employer_id.
  unfold bind at 1, set_param at 1, on_self at 1, modify at 1.
  unfold bind at 1, set_param at 1, on_self at 1, modify at 1.
  unfold bind at 1, on_self at 1, modify at 1.
  f_equal. unfold loop_head, page_requests. simpl. by rewrite app_nil_r.
Qed.

(** The fuel given to the loop is enough, whatever the host answers: the
    method returns or raises, it never runs out. *)
Lemma vacancies_loop_terminates (N : Z) (fuel : nat) :
  forall (w : World HHVacanciesAPI) (p : Z),
    _params (vacancies_base (self w)) !! "page" = Some (VInt p) ->
    (Z.to_nat (N - p) < fuel)%nat ->
    fst (vacancies_loop fuel N w) <> Ok None.
Proof.
  induction fuel as [|fuel IH]; intros w p Hp Hfuel; [lia|].
  cbn [vacancies_loop]. unfold bind at 1, get_param at 1, bind at 1,
    get_self at 1, ret at 1. cbn [base HHVacanciesAPI_inherits].
  rewrite Hp. unfold bind at 1, lt_int at 1. cbn [int_value ret].
  destruct (p <? N) eqn:Hlt; [|done]. apply Z.ltb_lt in Hlt.
  unfold bind at 1. rewrite connect_unfold. cbn zeta.
  destruct (connect_outcome _) as [d|e]; [|done].
  destruct (truthy (dict_get d (u8 "items") (VList []))); [|done].
  cbn [negb]. unfold bind at 1.
  destruct (iterate (dict_get d (u8 "items") (VList [])) _)
    as [[l|e] w1] eqn:Hiter; [|done].
  assert (w1 = {| self := self w;
                  sent := sent w
                    ++ [connect_request (base (self w)) None] |}) as ->.
  { revert Hiter. unfold iterate, ret, raise.
    destruct (dict_get d _ _); congruence. }
  unfold bind at 1, extend_vacancies at 1, on_self at 1, modify at 1.
  unfold bind at 1, get_self at 1. cbn [self sent vacancies_base].
  rewrite Hp. unfold bind at 1, add_one at 1. cbn [int_value ret].
  unfold bind at 1, set_param at 1, on_self at 1, modify at 1.
  apply (IH _ (p + 1)).
  - cbn. by rewrite lookup_insert_eq.
  - lia.
Qed.

Lemma get_vacancies_by_employer_id_terminates
    (eid : ustr) (N : Z) (w : World HHVacanciesAPI) :
  fst (get_vacancies_by_employer_id eid N w) <> Ok None.
Proof.
  rewrite before_loop. unfold bind at 1.
  pose proof (vacancies_loop_terminates N (S (Z.to_nat N))
                (loop_head (self w) eid (sent w) 0 []) 0) as Hloop.
  destruct (vacancies_loop _ _ _) as [[[[]|]|e] w1]; try done.
  exfalso. apply Hloop; [|lia|done].
  unfold loop_head, at_page, page_params. cbn.
  by rewrite lookup_insert_eq.
Qed.

Lemma page_request_params o eid (i : nat) :
  params (page_request o eid i) !! "page" = Some (VInt (Z.of_nat i))
  /\ params (page_request o eid i) !! "employer_id" = Some (VStr eid).
Proof.
  unfold page_request, connect_request, at_page, page_params. simpl.
  rewrite lookup_insert_eq, lookup_insert_ne by done.
  by rewrite lookup_insert_eq.
Qed.

Lemma page_requests_lookup o eid (n i : nat) :
  (i < n)%nat -> page_requests o eid n !! i = Some (page_request o eid i).
Proof.
  intros Hi. unfold page_requests.
  rewrite list_lookup_fmap, lookup_seq_lt by done. reflexivity.
Qed.

(** C1. For a non-negative [max_pages] N, when the first [k] pages
    ([k <= N]) each arrive with a non-empty list of items and page [k], if
    [k < N], arrives with an empty one, [get_vacancies_by_employer_id]
    returns the items of pages [0 .. k-1], page after page and in the order
    of each page, duplicates kept. It has sent the requests for pages
    [0 .. k] (for [0 .. N-1] when no page was empty), at most N of them,
    request [i] with [page = i] starting from 0 whatever the cursor was,
    and with the employer's id. *)
Theorem get_vacancies_by_employer_id_pages
    (w : World HHVacanciesAPI) (eid : ustr) (N : Z) (k : nat) :
  0 <= N ->
  Z.of_nat k <= N ->
  (forall i, (i < k)%nat -> page_full (self w) eid (sent w) i) ->
  (Z.of_nat k < N -> page_empty (self w) eid (sent w) k) ->
  let requests := if Z.of_nat k <? N then S k else k in
  let result := pages_items (self w) eid (sent w) k in
  get_vacancies_by_employer_id eid N w
  = (Ok (Some result),
     {| self := at_page (self w) eid (Z.of_nat k) result;
        sent := sent w ++ page_requests (self w) eid requests |})
  /\ Z.of_nat requests <= N
  /\ (forall i, (i < requests)%nat ->
        exists req,
          page_requests (self w) eid requests !! i = Some req
          /\ params req !! "page" = Some (VInt (Z.of_nat i))
          /\ params req !! "employer_id" = Some (VStr eid)).
Proof.
  intros HN Hk Hfull Hempty requests result. split; [|split].
  - rewrite before_loop. unfold bind at 1.
    replace (S (Z.to_nat N)) with (k + S (Z.to_nat N - k))%nat by lia.
    rewrite loop_full_run by (simpl; first [lia | intros; apply Hfull; lia]).
    cbn [Nat.add app]. fold (pages_items (self w) eid (sent w) k).
    fold result.
    subst requests. destruct (Z.of_nat k <? N) eqn:E.
    + apply Z.ltb_lt in E. by rewrite loop_empty by auto.
    + apply Z.ltb_ge in E. by rewrite loop_max by lia.
  - subst requests. destruct (Z.of_nat k <? N) eqn:E; [|lia].
    apply Z.ltb_lt in E. lia.
  - intros i Hi. exists (page_request (self w) eid i).
    split; [by apply page_requests_lookup|apply page_request_params].
Qed.

(** C9. For [max_pages <= 0] the loop condition fails at once:
    [get_vacancies_by_employer_id] returns the empty list and no request
    is sent; the cursor is 0. *)
Theorem get_vacancies_by_employer_id_no_pages
    (w : World HHVacanciesAPI) (eid : ustr) (N : Z) :
  N <= 0 ->
  get_vacancies_by_employer_id eid N w
  = (Ok (Some []),
     {| self := at_page (self w) eid 0 []; sent := sent w |}).
Proof.
  intros HN. rewrite before_loop. unfold bind at 1.
  rewrite loop_max by (simpl; lia).
  unfold loop_head, page_requests. simpl. by rewrite app_nil_r.
Qed.

(** C5. When the host answers with status 200 and a body that decodes to
    a mapping, [connect] returns that mapping, key for key and in the same
    order; the object is untouched and the one request is on record. *)
Theorem connect_returns_mapping {Obj} `{Inherits Obj}
    (endpoint : option ustr) (w : World Obj) (response : Response)
    (d : list (ustr * value)) :
  requests_get (sent w) (connect_request (base (self w)) endpoint)
    = Ok response ->
  status_code response = 200 ->
  json response = Ok (VDict d) ->
  connect endpoint w
  = (Ok d,
     {| self := self w;
        sent := sent w ++ [connect_request (base (self w)) endpoint] |}).
Proof.
  intros Hget Hstatus Hjson. rewrite connect_unfold. simpl.
  unfold connect_outcome. by rewrite Hget, Hstatus, Hjson.
Qed.

(** ** The employers' methods *)

(** The statements after the validation of [get_top_employers], which are
    those of [search_employers_by_keyword] after the parameters are set:
    one [connect], then the items of the answer become the list. *)
Lemma employers_fetched (p : gmap string value) (w : World HHEmployersAPI) :
  (assign_params p ;;;
   clear_employers ;;;
   data <- connect None ;;
   let employers_search := dict_get data (u8 "items") (VList []) in
   items <- iterate employers_search ;;
   extend_employers items ;;;
   o <- get_self ;;
   ret (__employers o)) w
  = match connect None (employers_ready p w) with
    | (Ok d, w') =>
      match iterate (dict_get d (u8 "items") (VList [])) w' with
      | (Ok l, _) =>
        (Ok l, {| self := {| employers_base := employers_base (self w');
                             __employers := l |};
                  sent := sent w' |})
      | (Raised e, _) => (Raised e, w')
      end
    | (Raised e, w') => (Raised e, w')
    end.
Proof.
  unfold bind at 1, assign_params at 1, on_self at 1, modify at 1.
  unfold bind at 1, clear_employers at 1, on_self at 1, modify at 1.
  unfold bind at 1, employers_ready. rewrite !connect_unfold. simpl.
  destruct (connect_outcome _) as [d|e]; [|reflexivity].
  unfold bind at 1.
  destruct (dict_get d _ _); simpl; reflexivity.
Qed.

Lemma get_top_employers_valid (top_n : value) (z : Z)
    (w : World HHEmployersAPI) :
  int_value top_n = Some z -> z <= 100 ->
  get_top_employers top_n w
  = match connect None (employers_ready (top_params top_n) w) with
    | (Ok d, w') =>
      match iterate (dict_get d (u8 "items") (VList [])) w' with
      | (Ok l, _) =>
        (Ok l, {| self := {| employers_base := employers_base (self w');
                             __employers := l |};
                  sent := sent w' |})
      | (Raised e, _) => (Raised e, w')
      end
    | (Raised e, w') => (Raised e, w')
    end.
Proof.
  intros Hz Hle. unfold get_top_employers.
  replace (isinstance_int top_n) with true by (by destruct top_n).
  rewrite Hz. cbn [negb].
  replace (100 <? z) with false by (symmetry; apply Z.ltb_ge; lia).
  apply employers_fetched.
Qed.

Lemma get_top_employers_sends (top_n : value) (z : Z)
    (w : World HHEmployersAPI) :
  int_value top_n = Some z -> z <= 100 ->
  sent (snd (get_top_employers top_n w))
  = sent w ++ [top_request (self w) top_n].
Proof.
  intros Hz Hle. rewrite (get_top_employers_valid _ z) by done.
  rewrite connect_unfold. simpl.
  destruct (connect_outcome _) as [d|e]; [|reflexivity].
  destruct (dict_get d _ _); reflexivity.
Qed.

Lemma int_value_isinstance (v : value) :
  isinstance_int v = true <-> exists z, int_value v = Some z.
Proof.
  split.
  - destruct v; simpl; intros Hv; try done; eauto.
  - intros [z Hz]. by destruct v.
Qed.

(** C3, as the code has it. [get_top_employers] raises the type error,
    before any request, exactly when [top_n] is not an [int] instance
    (a [bool] is one); it raises the range error, before any request,
    exactly when [top_n] is an integer above 100; there is no lower bound.
    Otherwise it sends one request with [per_page = top_n] and returns
    the ['items'] list of the answer as it came, however many items that
    is; what [connect] raises is raised to the caller. *)
Theorem get_top_employers_validation
    (top_n : value) (w : World HHEmployersAPI) :
  (get_top_employers top_n w = (Raised (Exc TypeError msg_not_number), w)
   <-> isinstance_int top_n = false)
  /\ (get_top_employers top_n w = (Raised (Exc ValueError msg_range), w)
      <-> exists z, int_value top_n = Some z /\ 100 < z)
  /\ (forall z, int_value top_n = Some z -> z <= 100 ->
        let req := top_request (self w) top_n in
        sent (snd (get_top_employers top_n w)) = sent w ++ [req]
        /\ params req !! "per_page" = Some top_n
        /\ (forall l,
              response_items (requests_get (sent w) req) = Some l ->
              fst (get_top_employers top_n w) = Ok l)
        /\ (forall e,
              fst (connect None (employers_ready (top_params top_n) w))
                = Raised e ->
              fst (get_top_employers top_n w) = Raised e)).
Proof.
  assert (Hvalid : forall z, int_value top_n = Some z -> z <= 100 ->
            forall r, get_top_employers top_n w <> (r, w)).
  { intros z Hz Hle r Heq.
    pose proof (get_top_employers_sends top_n z w Hz Hle) as Hs.
    rewrite Heq in Hs. simpl in Hs. apply (f_equal length) in Hs.
    rewrite length_app in Hs. simpl in Hs. lia. }
  split; [|split].
  - split.
    + intros Heq. destruct (isinstance_int top_n) eqn:Hi; [|done].
      apply int_value_isinstance in Hi as [z Hz].
      destruct (Z.le_gt_cases z 100) as [Hle|Hgt].
      * by destruct (Hvalid z Hz Hle _ Heq).
      * revert Heq. unfold get_top_employers.
        replace (isinstance_int top_n) with true by (by destruct top_n).
        rewrite Hz. cbn [negb].
        by replace (100 <? z) with true by (symmetry; apply Z.ltb_lt; lia).
    + intros Hi. unfold get_top_employers. by rewrite Hi.
  - split.
    + intros Heq. destruct (isinstance_int top_n) eqn:Hi.
      * apply int_value_isinstance in Hi as [z Hz].
        destruct (Z.le_gt_cases z 100) as [Hle|Hgt].
        -- by destruct (Hvalid z Hz Hle _ Heq).
        -- exists z. split; [done|lia].
      * revert Heq. unfold get_top_employers. by rewrite Hi.
    + intros (z & Hz & Hgt). unfold get_top_employers.
      replace (isinstance_int top_n) with true by (by destruct top_n).
      rewrite Hz. cbn [negb].
      by replace (100 <? z) with true by (symmetry; apply Z.ltb_lt; lia).
  - intros z Hz Hle req. split; [|split; [|split]].
    + by apply (get_top_employers_sends top_n z).
    + subst req. unfold top_request, connect_request, top_params. simpl.
      rewrite !lookup_insert_ne by done. by rewrite lookup_insert_eq.
    + intros l Hl. rewrite (get_top_employers_valid _ z) by done.
      rewrite connect_unfold. simpl. fold (top_request (self w) top_n).
      fold req. destruct (response_items_outcome _ _ Hl) as (d & -> & ->).
      reflexivity.
    + intros e He. rewrite (get_top_employers_valid _ z) by done.
      destruct (connect None _) as [[d|e'] w']; simpl in *; congruence.
Qed.

(** C10. For [True] and for [False] the type check of [get_top_employers]
    passes: the type error is not raised there, and the one request goes
    out with [per_page] set to the boolean itself. *)
Theorem get_top_employers_accepts_booleans
    (b : bool) (w : World HHEmployersAPI) :
  isinstance_int (VBool b) = true
  /\ get_top_employers (VBool b) w
       <> (Raised (Exc TypeError msg_not_number), w)
  /\ sent (snd (get_top_employers (VBool b) w))
       = sent w ++ [top_request (self w) (VBool b)]
  /\ params (top_request (self w) (VBool b)) !! "per_page" = Some (VBool b).
Proof.
  assert (Hs := get_top_employers_sends (VBool b) (if b then 1 else 0) w
                  eq_refl ltac:(destruct b; lia)).
  split; [done|]. split; [|split; [done|]].
  - intros Heq. rewrite Heq in Hs. simpl in Hs.
    apply (f_equal length) in Hs. rewrite length_app in Hs. simpl in Hs.
    lia.
  - unfold top_request, connect_request, top_params. simpl.
    rewrite !lookup_insert_ne by done. by rewrite lookup_insert_eq.
Qed.

(** C6. A status other than 200 makes [connect] raise an [APIError] whose
    message holds the status code and the text of the body; a transport
    failure ([requests.RequestException] or a subclass: connection error,
    timeout) makes it raise an [APIError] whose message holds the message
    of the failure. No method of the client handles what its [connect]
    raises: [get_employer_by_id], [search_employers_by_keyword],
    [get_top_employers] and, at whatever page, [get_vacancies_by_employer_id]
    raise it to their caller. *)
Theorem api_errors_reach_the_caller :
  (forall Obj (I : Inherits Obj) (endpoint : option ustr) (w : World Obj)
          (response : Response),
     requests_get (sent w) (connect_request (base (self w)) endpoint)
       = Ok response ->
     status_code response <> 200 ->
     exists message,
       fst (connect endpoint w) = Raised (Exc APIError message)
       /\ contains (str_of_int (status_code response)) message
       /\ contains (text response) message)
  /\ (forall Obj (I : Inherits Obj) (endpoint : option ustr) (w : World Obj)
             (e : exn),
        requests_get (sent w) (connect_request (base (self w)) endpoint)
          = Raised e ->
        isinstance e RequestException = true ->
        exists message,
          fst (connect endpoint w) = Raised (Exc APIError message)
          /\ contains (exn_str e) message)
  /\ (forall (eid : ustr) (w : World HHEmployerAPI) (e : exn),
        fst (connect (Some (_endpoint (employer_base (self w)) ++ eid)) w)
          = Raised e ->
        fst (get_employer_by_id eid w) = Raised e)
  /\ (forall (keyword : ustr) (w : World HHEmployersAPI) (e : exn),
        fst (connect None (employers_ready (search_params keyword) w))
          = Raised e ->
        fst (search_employers_by_keyword keyword w) = Raised e)
  /\ (forall (top_n : value) (z : Z) (w : World HHEmployersAPI) (e : exn),
        int_value top_n = Some z -> z <= 100 ->
        fst (connect None (employers_ready (top_params top_n) w))
          = Raised e ->
        fst (get_top_employers top_n w) = Raised e)
  /\ (forall (eid : ustr) (N : Z) (w : World HHVacanciesAPI) (k : nat)
             (e : exn),
        Z.of_nat k < N ->
        (forall i, (i < k)%nat -> page_full (self w) eid (sent w) i) ->
        fst (connect None
               (loop_head (self w) eid (sent w) k
                  (pages_items (self w) eid (sent w) k))) = Raised e ->
        fst (get_vacancies_by_employer_id eid N w) = Raised e).
Proof.
  repeat split.
  - intros Obj I endpoint w response Hget Hstatus.
    exists (msg_api_error (status_code response) (text response)).
    rewrite connect_unfold. simpl. unfold connect_outcome. rewrite Hget.
    apply Z.eqb_neq in Hstatus as ->. unfold msg_api_error.
    split; [done|]. split; [apply contains_here|].
    rewrite !app_assoc. apply contains_end.
  - intros Obj I endpoint w e Hget He.
    exists (msg_request_error e).
    rewrite connect_unfold. simpl. unfold connect_outcome.
    rewrite Hget, He. split; [done|apply contains_end].
  - intros eid w e He. unfold get_employer_by_id.
    unfold bind at 1, get_self at 1. unfold bind at 1.
    destruct (connect _ w) as [[d|e'] w']; simpl in *; congruence.
  - intros keyword w e He. unfold search_employers_by_keyword.
    rewrite employers_fetched.
    destruct (connect None _) as [[d|e'] w']; simpl in *; congruence.
  - intros top_n z w e Hz Hle He.
    rewrite (get_top_employers_valid _ z) by done.
    destruct (connect None _) as [[d|e'] w']; simpl in *; congruence.
  - intros eid N w k e Hk Hfull He. rewrite before_loop. unfold bind at 1.
    replace (S (Z.to_nat N)) with (k + S (Z.to_nat N - k))%nat by lia.
    rewrite loop_full_run by (simpl; first [lia | intros; apply Hfull; lia]).
    cbn [Nat.add app]. fold (pages_items (self w) eid (sent w) k).
    by rewrite (loop_raise _ _ _ _ _ _ _ e).
Qed.

End ClientFacts.

(** ** The client run against concrete hosts *)

Section ClientRuns.
Import HH.

Lemma get_vacancies_by_employer_id_pages_witness :
  let run := @get_vacancies_by_employer_id paged_host (u8 "1740") 5
               (fresh HHVacanciesAPI_init) in
  fst run = Ok (Some [item "11"; item "12"; item "21"])
  /\ length (sent (snd run)) = 3%nat.
Proof.
  intros run.
  destruct (@get_vacancies_by_employer_id_pages paged_host
              (fresh HHVacanciesAPI_init) (u8 "1740") 5 2) as (Hrun & _ & _).
  - lia.
  - lia.
  - intros [|[|i]] Hi; [| |lia].
    + exists [item "11"; item "12"]. split; [reflexivity|discriminate].
    + exists [item "21"]. split; [reflexivity|discriminate].
  - intros _. reflexivity.
  - subst run. rewrite Hrun. split; reflexivity.
Defined.

Lemma get_vacancies_by_employer_id_no_pages_witness :
  @get_vacancies_by_employer_id paged_host (u8 "1740") (-3)
    (fresh HHVacanciesAPI_init)
  = (Ok (Some []),
     {| self := at_page HHVacanciesAPI_init (u8 "1740") 0 []; sent := [] |}).
Proof.
  apply (@get_vacancies_by_employer_id_no_pages paged_host). lia.
Defined.

Lemma connect_returns_mapping_witness :
  fst (@connect three_items_host _ _ None (fresh HeadHunterAPI_init))
  = Ok [(u8 "items", VList [item "1"; item "2"; item "3"])].
Proof.
  erewrite (@connect_returns_mapping three_items_host);
    [reflexivity|reflexivity|reflexivity|reflexivity].
Defined.

Lemma api_errors_reach_the_caller_witness :
  (exists message,
     fst (@connect bad_request_host _ _ None (fresh HeadHunterAPI_init))
       = Raised (Exc APIError message)
     /\ contains (str_of_int 400) message
     /\ contains (text bad_request) message)
  /\ (exists message,
        fst (@connect unreachable_host _ _ None (fresh HeadHunterAPI_init))
          = Raised (Exc APIError message)
        /\ contains (exn_str network_error) message)
  /\ fst (@get_top_employers unreachable_host (VInt 10)
            (fresh HHEmployersAPI_init))
     = Raised (Exc APIError (msg_request_error network_error)).
Proof.
  split; [|split].
  - destruct (@api_errors_reach_the_caller bad_request_host) as (Hstatus & _).
    apply (Hstatus _ _ None (fresh HeadHunterAPI_init) bad_request).
    + reflexivity.
    + discriminate.
  - destruct (@api_errors_reach_the_caller unreachable_host)
      as (_ & Htransport & _).
    apply (Htransport _ _ None (fresh HeadHunterAPI_init) network_error).
    + reflexivity.
    + reflexivity.
  - destruct (@api_errors_reach_the_caller unreachable_host)
      as (_ & _ & _ & _ & Htop & _).
    apply (Htop (VInt 10) 10); [reflexivity|lia|reflexivity].
Defined.

Lemma get_top_employers_validation_witness :
  fst (@get_top_employers three_items_host (VInt 2)
         (fresh HHEmployersAPI_init))
  = Ok [item "1"; item "2"; item "3"].
Proof.
  destruct (@get_top_employers_validation three_items_host (VInt 2)
              (fresh HHEmployersAPI_init)) as (_ & _ & Hrun).
  destruct (Hrun 2 eq_refl ltac:(lia)) as (_ & _ & Hitems & _).
  apply Hitems. reflexivity.
Defined.

(** C3 as stated does not hold. The integer -1 passes validation, and no
    host makes the method "succeed and return at most -1 items"; asked for
    2, the method returns the 3 items the host sent. *)
Lemma get_top_employers_not_bounded :
  (forall (host : Http) (w : World HHEmployersAPI),
     ~ succeeds_within (-1) (fst (@get_top_employers host (VInt (-1)) w)))
  /\ fst (@get_top_employers three_items_host (VInt 2)
            (fresh HHEmployersAPI_init))
     = Ok [item "1"; item "2"; item "3"]
  /\ ~ succeeds_within 2
         (fst (@get_top_employers three_items_host (VInt 2)
                 (fresh HHEmployersAPI_init))).
Proof.
  split; [|split].
  - intros host w (l & _ & Hlen). lia.
  - vm_compute. reflexivity.
  - intros (l & Hl & Hlen). vm_compute in Hl. injection Hl as <-.
    simpl in Hlen. lia.
Qed.

(** The runs of [tests/test_hh_api.py]. *)

Example test_private_connect :
  @connect id_123_host _ _ None (fresh HeadHunterAPI_init)
  = (Ok [(u8 "id", VStr (u8 "123"))],
     {| self := HeadHunterAPI_init;
        sent := [ {| url := u8 "https://api.hh.ru";
                     headers := {[ "User-Agent" := u8 "HH-User-Agent" ]};
                     params := ∅ |} ] |}).
Proof. vm_compute. reflexivity. Qed.

Example test_private_connect_invalid :
  fst (@connect not_a_dict_host _ _ None (fresh HeadHunterAPI_init))
  = Raised (Exc ValueError (u8 "API выдает не словарь")).
Proof. vm_compute. reflexivity. Qed.

Example test_private_connect_error :
  fst (@connect bad_request_host _ _ None (fresh HeadHunterAPI_init))
  = Raised (Exc APIError
              (u8 "Ошибка API: 400 - Параметры переданы с ошибкой")).
Proof. vm_compute. reflexivity. Qed.

Example test_private_request_exception :
  fst (@connect unreachable_host _ _ None (fresh HeadHunterAPI_init))
  = Raised (Exc APIError (u8 "Ошибка при запросе: Network error")).
Proof. vm_compute. reflexivity. Qed.

Example test_get_vacancies_by_employer_id :
  let run := @get_vacancies_by_employer_id one_item_host (u8 "12345") 1
               (fresh HHVacanciesAPI_init) in
  fst run = Ok (Some [item "123"]) /\ length (sent (snd run)) = 1%nat.
Proof. vm_compute. split; reflexivity. Qed.

Example test_get_vacancies_none_key :
  let run := @get_vacancies_by_employer_id error_key_host (u8 "123") 1
               (fresh HHVacanciesAPI_init) in
  fst run = Ok (Some []) /\ length (sent (snd run)) = 1%nat.
Proof. vm_compute. split; reflexivity. Qed.

Example test_get_employer_by_id :
  let run := @get_employer_by_id id_123_host (u8 "12345")
               (fresh HHEmployerAPI_init) in
  fst run = Ok [(u8 "id", VStr (u8 "123"))]
  /\ map url (sent (snd run)) = [u8 "https://api.hh.ru/employers/12345"].
Proof. vm_compute. split; reflexivity. Qed.

Example test_get_top_employers_error_argument :
  fst (@get_top_employers one_item_host (VStr (u8 "Error"))
         (fresh HHEmployersAPI_init))
  = Raised (Exc TypeError (u8 "Аргумент не является числом")).
Proof. vm_compute. reflexivity. Qed.

Example test_get_top_employers_error_range :
  fst (@get_top_employers one_item_host (VInt 101)
         (fresh HHEmployersAPI_init))
  = Raised (Exc ValueError
              (u8 "Количество должно быть в диапазоне от 1 до 100")).
Proof. vm_compute. reflexivity. Qed.

(** The cursor of an earlier call does not survive: the second call starts
    again at page 0. *)
Example page_cursor_is_reset :
  let first := @get_vacancies_by_employer_id paged_host (u8 "1") 5
                 (fresh HHVacanciesAPI_init) in
  let second := @get_vacancies_by_employer_id paged_host (u8 "2") 5
                  (snd first) in
  fst second = Ok (Some [item "11"; item "12"; item "21"])
  /\ @get_param _ _ "page" VNone (snd first) = (Ok (VInt 2), snd first).
Proof. vm_compute. split; reflexivity. Qed.

End ClientRuns.

(* ===================================================================== *)
(** * Properties of the data-access layer *)
(* ===================================================================== *)

Section ManagerFacts.
Import DB.
Context {W : Type} `{Psycopg2 W} `{PyFloat}.

(** ** Computations that leave the connection alone *)

Local Abbreviation quiet := (DB.quiet (W := W)).

Lemma quiet_pure {A} (op : Comp (World W) A) :
  (forall w, snd (op w) = w) -> quiet op.
Proof.
  intros Hop w. rewrite Hop. split; [done|].
  exists []. by rewrite app_nil_r.
Qed.

Lemma quiet_ret {A} (a : A) : quiet (ret a).
Proof. by apply quiet_pure. Qed.

Lemma quiet_raise {A} (e : exn) : quiet (@raise _ A e).
Proof. by apply quiet_pure. Qed.

Lemma quiet_lift {A} (o : outcome A) : quiet (lift o).
Proof. by apply quiet_pure. Qed.

Lemma quiet_subscript0 (v : value) : quiet (subscript0 v).
Proof. apply quiet_pure. intros w. by destruct v as [| | | |[]|[]|[]|]. Qed.

Lemma quiet_print (line : ustr) : quiet (print line).
Proof. intros w. split; [done|]. exists []. by rewrite app_nil_r. Qed.

Lemma quiet_call {A} (c : Call) (f : W -> outcome A * W) :
  connection_call c = false -> quiet (call c f).
Proof.
  intros Hc w. unfold call. destruct (f (driver w)) as [r d]. simpl.
  split; [done|]. exists [c]. split; [done|]. by constructor.
Qed.

Lemma quiet_bind {A B} (c : Comp (World W) A) (k : A -> Comp (World W) B) :
  quiet c -> (forall a, quiet (k a)) -> quiet (bind c k).
Proof.
  intros Hc Hk w. unfold bind. specialize (Hc w).
  destruct (c w) as [[a|e] w1]; simpl in *; [|done].
  destruct Hc as (Hs1 & m1 & Hc1 & Hf1).
  destruct (Hk a w1) as (Hs2 & m2 & Hc2 & Hf2).
  split; [congruence|]. exists (m1 ++ m2).
  split; [by rewrite Hc2, Hc1, app_assoc|by apply Forall_app].
Qed.

Lemma quiet_select_handler {A} (e : exn)
    (clauses : list (exc_class * (exn -> Comp (World W) A))) :
  Forall (fun cl => forall e', quiet (snd cl e')) clauses ->
  quiet (select_handler e clauses).
Proof.
  induction 1 as [|[cls h] rest Hh _ IH]; simpl.
  - apply quiet_raise.
  - destruct (isinstance e cls); [apply Hh|apply IH].
Qed.

Lemma quiet_try_excepts {A} (body : Comp (World W) A)
    (clauses : list (exc_class * (exn -> Comp (World W) A))) :
  quiet body ->
  Forall (fun cl => forall e', quiet (snd cl e')) clauses ->
  quiet (try_excepts body clauses).
Proof.
  intros Hb Hcl w. unfold try_excepts. specialize (Hb w).
  destruct (body w) as [[a|e] w1]; simpl in *; [done|].
  destruct Hb as (Hs1 & m1 & Hc1 & Hf1).
  destruct (quiet_select_handler e clauses Hcl w1) as (Hs2 & m2 & Hc2 & Hf2).
  split; [congruence|]. exists (m1 ++ m2).
  split; [by rewrite Hc2, Hc1, app_assoc|by apply Forall_app].
Qed.

Lemma quiet_try_except {A} (body : Comp (World W) A) (cls : exc_class)
    (handler : exn -> Comp (World W) A) :
  quiet body -> (forall e, quiet (handler e)) ->
  quiet (try_except body cls handler).
Proof.
  intros Hb Hh w. unfold try_except. specialize (Hb w).
  destruct (body w) as [[a|e] w1]; simpl in *; [done|].
  destruct (isinstance e cls); [|done].
  destruct Hb as (Hs1 & m1 & Hc1 & Hf1).
  destruct (Hh e w1) as (Hs2 & m2 & Hc2 & Hf2).
  split; [congruence|]. exists (m1 ++ m2).
  split; [by rewrite Hc2, Hc1, app_assoc|by apply Forall_app].
Qed.

Lemma quiet_try_finally {A} (body : Comp (World W) A)
    (cleanup : Comp (World W) unit) :
  quiet body -> quiet cleanup -> quiet (try_finally body cleanup).
Proof.
  intros Hb Hc w. unfold try_finally. specialize (Hb w).
  destruct (body w) as [r w1]; simpl in *.
  destruct Hb as (Hs1 & m1 & Hc1 & Hf1).
  destruct (Hc w1) as (Hs2 & m2 & Hc2 & Hf2).
  destruct (cleanup w1) as [[[]|e] w2]; simpl in *.
  all: split; [congruence|]; exists (m1 ++ m2).
  all: split; [by rewrite Hc2, Hc1, app_assoc|by apply Forall_app].
Qed.

Lemma quiet_with_cursor {A} (body : cursor -> Comp (World W) A) :
  (forall cur, quiet (body cur)) -> quiet (with_cursor body).
Proof.
  intros Hb. unfold with_cursor. apply quiet_bind.
  - by apply quiet_pure.
  - intros o. destruct (__conn o); [|apply quiet_raise].
    apply quiet_bind; [by apply quiet_call|]. intros cur.
    apply quiet_try_finally; [apply Hb|by apply quiet_call].
Qed.

(** ** One connection per operation *)

(** Without a connection there is no cursor to open. *)
Lemma with_cursor_unconnected {A} (body : cursor -> Comp (World W) A)
    (w : World W) :
  __conn (self w) = None ->
  with_cursor body w = (Raised (Exc AttributeError msg_no_cursor), w).
Proof. intros Hc. unfold with_cursor, bind, get_self. by rewrite Hc. Qed.

Lemma fetch_body_unconnected (query : ustr) (vars : option (list value))
    (w : World W) :
  __conn (self w) = None ->
  try_except
    (with_cursor (fun cur =>
       execute cur query vars ;;;
       result <- fetchall cur ;;
       ret (or_empty result)))
    DatabaseError
    (fun exc_info => print (msg_error exc_info) ;;; ret (VList [])) w
  = (Raised (Exc AttributeError msg_no_cursor), w).
Proof.
  intros Hc. unfold try_except. by rewrite with_cursor_unconnected.
Qed.

Lemma quiet_fetch_body (query : ustr) (vars : option (list value)) :
  quiet
    (try_except
       (with_cursor (fun cur =>
          execute cur query vars ;;;
          result <- fetchall cur ;;
          ret (or_empty result)))
       DatabaseError
       (fun exc_info => print (msg_error exc_info) ;;; ret (VList []))).
Proof.
  apply quiet_try_except.
  - apply quiet_with_cursor. intros cur.
    apply quiet_bind; [by apply quiet_call|]. intros _.
    apply quiet_bind; [by apply quiet_call|]. intros r. apply quiet_ret.
  - intros e. apply quiet_bind; [apply quiet_print|]. intros _.
    apply quiet_ret.
Qed.

(** [connect], then a body that leaves the connection alone, then
    [finally: close]. *)
Lemma connect_then_close {A} (body : Comp (World W) A) :
  quiet body ->
  (forall w, __conn (self w) = None -> calls (snd (body w)) = calls w) ->
  opens_and_closes (connect ;;; try_finally body close).
Proof.
  intros Hquiet Hidle w Hnone. cbv zeta.
  remember ((connect ;;; try_finally body close) w) as run eqn:Hrun.
  revert Hrun.
  unfold bind at 1, connect at 1, bind at 1, get_self at 1.
  rewrite Hnone. unfold try_except, bind at 1, call at 1.
  destruct (psycopg2_connect (conn_args (self w)) (driver w))
    as [[c|e] d] eqn:Hconnect; cbn [fst snd].
  - unfold assign_conn at 1, modify at 1. unfold try_finally.
    match goal with |- context [body ?w1] =>
      destruct (Hquiet w1) as (Hself & more & Hcalls & Hmore);
      destruct (body w1) as [r w2] end.
    cbn [snd self calls] in Hself, Hcalls.
    unfold close, bind at 1, get_self at 1. rewrite Hself.
    cbn [__conn set_conn].
    unfold bind at 1, call_, call. cbn. intros ->. cbn.
    split; [done|]. right. exists c, more.
    split; [done|]. split; [done|].
    by rewrite Hcalls, <- !app_assoc.
  - destruct (isinstance e DatabaseError).
    + unfold bind at 1, print at 1, modify at 1, assign_conn at 1,
        modify at 1. cbn [self driver calls stdout].
      unfold try_finally.
      match goal with |- context [body ?w1] =>
        destruct (Hquiet w1) as (Hself & _);
        pose proof (Hidle w1 eq_refl) as Hcalls;
        destruct (body w1) as [r w2] end.
      cbn [snd self calls] in Hself, Hcalls.
      unfold close, bind at 1, get_self at 1. rewrite Hself.
      cbn [__conn set_conn ret snd self]. intros ->. cbn [snd].
      split; [by rewrite Hself|]. left. exists e.
      split; [done|]. by rewrite Hcalls.
    + intros ->. cbn [snd self calls]. split; [done|]. left.
      by exists e.
Qed.

Lemma fetch_rows_opens_and_closes (query : ustr)
    (vars : option (list value)) :
  opens_and_closes (connect ;;; fetch_rows query vars).
Proof.
  apply connect_then_close; [apply quiet_fetch_body|].
  intros w Hc. by rewrite fetch_body_unconnected.
Qed.

Lemma get_avg_salary_opens_and_closes : opens_and_closes get_avg_salary.
Proof.
  apply connect_then_close.
  - apply quiet_try_excepts.
    + apply quiet_bind.
      * apply quiet_with_cursor. intros cur.
        apply quiet_bind; [by apply quiet_call|]. intros _.
        apply quiet_bind; [by apply quiet_call|]. intros row.
        apply quiet_subscript0.
      * intros result. destruct (truthy result);
          [apply quiet_lift|apply quiet_ret].
    + repeat apply Forall_cons_2; [| |apply Forall_nil_2]; simpl; intros e;
        (apply quiet_bind; [apply quiet_print|intros _; apply quiet_ret]).
  - intros w Hc. unfold try_excepts, bind at 1.
    by rewrite with_cursor_unconnected.
Qed.

(** ** [str.split] and whitespace *)

Lemma split_from_whitespace (s : ustr) :
  whitespace_only s -> split_from [] s = [].
Proof. induction 1 as [|c s Hc _ IH]; simpl; [done|by rewrite Hc]. Qed.

Lemma split_from_nil (s : ustr) : forall word,
  split_from word s = [] -> word = [] /\ whitespace_only s.
Proof.
  induction s as [|c s IH]; intros word; simpl.
  - destruct word; [by split; [|constructor]|done].
  - destruct (isspace c) eqn:Hc.
    + destruct word; [|done]. intros Hs.
      destruct (IH [] Hs) as [_ Hw]. split; [done|by constructor].
    + intros Hs. destruct (IH _ Hs) as [Hword _]. by destruct word.
Qed.

(** [keywords.split()] is empty exactly for a string of whitespace. *)
Lemma split_nil_iff (s : ustr) : split s = [] <-> whitespace_only s.
Proof.
  split; [intros Hs; by apply (split_from_nil s [])|].
  apply split_from_whitespace.
Qed.

(** C7. For the empty string and for any string of whitespace only,
    [get_vacancies_with_keyword] returns the empty list and the world is
    as before: no connection is opened, the driver is not called, the
    connection attribute is unchanged and nothing is printed. *)
Theorem get_vacancies_with_keyword_whitespace
    (keywords : ustr) (w : World W) :
  whitespace_only keywords ->
  get_vacancies_with_keyword keywords w = (Ok (VList []), w).
Proof.
  intros Hw. unfold get_vacancies_with_keyword.
  apply split_nil_iff in Hw. by rewrite Hw.
Qed.

(** C8. Each of the five read operations, started with the connection
    attribute unset, ends with it unset, whether it returns or raises, and
    opens its own connection: it calls [psycopg2.connect], and when that
    returns a connection, the calls that follow are calls on cursors and,
    last, the [close] of that connection; when it raises, no call follows.
    The one run that opens nothing is [get_vacancies_with_keyword] on
    whitespace, which makes no call at all (C7). *)
Theorem read_operations_release_the_connection :
  opens_and_closes get_companies_and_vacancies_count
  /\ opens_and_closes get_all_vacancies
  /\ opens_and_closes get_avg_salary
  /\ opens_and_closes get_vacancies_with_higher_salary
  /\ (forall keywords : ustr,
        (~ whitespace_only keywords ->
         opens_and_closes (get_vacancies_with_keyword keywords))
        /\ (whitespace_only keywords ->
            forall w : World W,
              __conn (self w) = None ->
              let w' := snd (get_vacancies_with_keyword keywords w) in
              __conn (self w') = None /\ calls w' = calls w)).
Proof.
  split; [|split; [|split; [|split]]];
    try apply fetch_rows_opens_and_closes;
    try apply get_avg_salary_opens_and_closes.
  intros keywords. unfold get_vacancies_with_keyword. split.
  - intros Hk. destruct (split keywords) eqn:Hs.
    + destruct Hk. by apply split_nil_iff.
    + rewrite <- Hs. apply fetch_rows_opens_and_closes.
  - intros Hk w Hc. apply split_nil_iff in Hk. by rewrite Hk.
Qed.

(** ** When the connection cannot be opened *)

(** [connect] handles the [DatabaseError] of [psycopg2.connect]: it prints
    and leaves the attribute unset. *)
Lemma connect_handles_failure (w : World W) (e : exn) :
  __conn (self w) = None ->
  fst (psycopg2_connect (conn_args (self w)) (driver w)) = Raised e ->
  isinstance e DatabaseError = true ->
  exists w1, connect w = (Ok tt, w1) /\ __conn (self w1) = None.
Proof.
  intros Hnone He Hdb. unfold connect, bind at 1, get_self at 1.
  rewrite Hnone. unfold try_except, bind at 1, call at 1.
  destruct (psycopg2_connect _ _) as [[c|e'] d]; simpl in He; [done|].
  injection He as ->. rewrite Hdb. eexists. split; reflexivity.
Qed.

(** The operations then look up [cursor] on [None]: the [AttributeError]
    is no [DatabaseError], and it reaches the caller. *)
Lemma fetch_rows_unconnected (query : ustr) (vars : option (list value))
    (w : World W) (e : exn) :
  __conn (self w) = None ->
  fst (psycopg2_connect (conn_args (self w)) (driver w)) = Raised e ->
  isinstance e DatabaseError = true ->
  fst ((connect ;;; fetch_rows query vars) w)
  = Raised (Exc AttributeError msg_no_cursor).
Proof.
  intros Hnone He Hdb.
  destruct (connect_handles_failure w e Hnone He Hdb) as (w1 & Hok & Hconn).
  unfold bind at 1. rewrite Hok. unfold fetch_rows, try_finally.
  rewrite fetch_body_unconnected by done.
  unfold close, bind, get_self. by rewrite Hconn.
Qed.

(** ** When the query fails on an open connection *)

(** A [DatabaseError] raised by [execute] is printed and the empty list is
    returned. *)
Lemma fetch_rows_handles_execute_error (query : ustr)
    (vars : option (list value)) (w : World W) (c : connection) (d1 : W)
    (cur : cursor) (d2 : W) (e : exn) :
  __conn (self w) = None ->
  psycopg2_connect (conn_args (self w)) (driver w) = (Ok c, d1) ->
  conn_cursor c d1 = (Ok cur, d2) ->
  fst (cur_execute cur query vars d2) = Raised e ->
  isinstance e DatabaseError = true ->
  fst ((connect ;;; fetch_rows query vars) w) = Ok (VList []).
Proof.
  intros Hnone Hconnect Hcursor Hexec Hdb.
  unfold bind at 1, connect at 1, bind at 1, get_self at 1.
  rewrite Hnone. unfold try_except at 1, bind at 1, call at 1.
  rewrite Hconnect. simpl.
  unfold fetch_rows, with_cursor, execute, call_.
  unfold try_finally, try_except, bind, get_self, call. simpl.
  rewrite Hcursor. simpl.
  destruct (cur_execute cur query vars d2) as [[[]|e'] d3]; simpl in Hexec;
    [done|]. injection Hexec as ->. simpl. rewrite Hdb. reflexivity.
Qed.

(** ** When nothing fails *)

Lemma fetch_rows_returns (query : ustr) (vars : option (list value))
    (w : World W) (c : connection) (d1 : W) (cur : cursor) (d2 d3 : W)
    (result : value) (d4 : W) :
  __conn (self w) = None ->
  psycopg2_connect (conn_args (self w)) (driver w) = (Ok c, d1) ->
  conn_cursor c d1 = (Ok cur, d2) ->
  cur_execute cur query vars d2 = (Ok tt, d3) ->
  cur_fetchall cur d3 = (Ok result, d4) ->
  fst ((connect ;;; fetch_rows query vars) w) = Ok (or_empty result).
Proof.
  intros Hnone Hconnect Hcursor Hexec Hfetch.
  unfold bind at 1, connect at 1, bind at 1, get_self at 1.
  rewrite Hnone. unfold try_except at 1, bind at 1, call at 1.
  rewrite Hconnect. simpl.
  unfold fetch_rows, with_cursor, execute, fetchall, call_.
  unfold try_finally, try_except, bind, get_self, call. simpl.
  rewrite Hcursor. simpl. rewrite Hexec. simpl. rewrite Hfetch.
  reflexivity.
Qed.

End ManagerFacts.

(** ** The manager run against concrete servers *)

Section ManagerRuns.
Import DB.

Lemma get_vacancies_with_keyword_whitespace_witness :
  @get_vacancies_with_keyword unit server_down [32; 9; 160; 8195]%N
    (fresh ∅ tt)
  = (Ok (VList []), fresh ∅ tt).
Proof.
  apply (@get_vacancies_with_keyword_whitespace unit server_down).
  repeat constructor.
Defined.

Lemma read_operations_release_the_connection_witness :
  __conn (self (snd (@get_vacancies_with_higher_salary Postgres postgres
                       (fresh ∅ (serving [senior; junior])))))
  = None
  /\ __conn (self (snd (@get_avg_salary unit server_down exact_float
                          (fresh ∅ tt))))
     = None
  /\ calls (snd (@get_vacancies_with_keyword unit server_down [112%N]
                   (fresh ∅ tt)))
     = [CallConnect (conn_args (DBManager_init ∅))].
Proof.
  split; [|split].
  - destruct (@read_operations_release_the_connection Postgres postgres
                exact_float) as (_ & _ & _ & Hhigher & _).
    apply (Hhigher (fresh ∅ (serving [senior; junior]))). reflexivity.
  - destruct (@read_operations_release_the_connection unit server_down
                exact_float) as (_ & _ & Havg & _).
    apply (Havg (fresh ∅ tt)). reflexivity.
  - destruct (@read_operations_release_the_connection unit server_down
                exact_float) as (_ & _ & _ & _ & Hkeyword).
    destruct (Hkeyword [112%N]) as [Hword _].
    destruct (Hword ltac:(intros Hw; inversion Hw; discriminate)
                (fresh ∅ tt) eq_refl)
      as [_ [(e & _ & Hcalls)|(c & between & Hc & _)]].
    + exact Hcalls.
    + discriminate Hc.
Defined.

(** C2, where the code departs from it. With the server down,
    [psycopg2.connect] raises [OperationalError]; [connect] handles it and
    leaves the connection attribute unset; every read operation then
    raises [AttributeError] to its caller instead of returning the empty
    list (0.0 for the average). *)
Theorem connection_failure_reaches_the_caller :
  let w : World unit := fresh ∅ tt in
  let escaped {A} : outcome A := Raised (Exc AttributeError msg_no_cursor) in
  isinstance connection_refused DatabaseError = true
  /\ fst (@get_companies_and_vacancies_count unit server_down w) = escaped
  /\ fst (@get_all_vacancies unit server_down w) = escaped
  /\ fst (@get_avg_salary unit server_down exact_float w) = escaped
  /\ fst (@get_vacancies_with_higher_salary unit server_down w) = escaped
  /\ fst (@get_vacancies_with_keyword unit server_down (u8 "python") w)
     = escaped.
Proof. repeat split; vm_compute; reflexivity. Qed.

Lemma postgres_execute (cur : cursor) (vars : option (list value))
    (d : Postgres) (rows : list Vacancy) :
  select_higher_salary (vacancies d) = Ok rows ->
  @cur_execute _ postgres cur sql_higher_salary vars d
  = (Ok tt, {| vacancies := vacancies d; pending := Some (map row_of rows) |}).
Proof.
  intros Hrows. unfold cur_execute, postgres. cbv beta iota.
  rewrite decide_True by done. by rewrite Hrows.
Qed.

(** On the server that holds the table, the operation returns the rows the
    statement selects. *)
Lemma get_vacancies_with_higher_salary_rows (table rows : list Vacancy) :
  select_higher_salary table = Ok rows ->
  fst (@get_vacancies_with_higher_salary Postgres postgres
         (fresh ∅ (serving table)))
  = Ok (VList (map row_of rows)).
Proof.
  intros Hrows.
  replace (VList (map row_of rows)) with (or_empty (VList (map row_of rows)))
    by (by destruct rows).
  unfold get_vacancies_with_higher_salary.
  eapply (@fetch_rows_returns Postgres postgres).
  - reflexivity.
  - reflexivity.
  - reflexivity.
  - by apply postgres_execute.
  - reflexivity.
Qed.

(** C4, where the code departs from it. The midpoint of [senior], 100000.5,
    strictly exceeds the average midpoint 100000.25, so the claim selects
    [senior]; the statement compares the truncated 100000 with 100000.25
    and selects nothing. *)
Theorem higher_salary_truncates_the_midpoint :
  let table := [senior; junior] in
  midpoint senior = Some (200001 # 2)%Q
  /\ above_average_midpoint table = [senior]
  /\ select_higher_salary table = Ok []
  /\ fst (@get_vacancies_with_higher_salary Postgres postgres
            (fresh ∅ (serving table)))
     = Ok (VList []).
Proof.
  split; [reflexivity|]. split; [reflexivity|]. split; [reflexivity|].
  by apply (get_vacancies_with_higher_salary_rows [senior; junior] []).
Qed.

(** The runs of [tests/test_database.py] that need no server. *)

Example test_get_vacancies_with_keyword_none_keyword :
  fst (@get_vacancies_with_keyword unit server_down (u8 " ") (fresh ∅ tt))
  = Ok (VList []).
Proof. vm_compute. reflexivity. Qed.

Example split_keywords :
  split (u8 "  python   senior ") = [u8 "python"; u8 "senior"].
Proof. vm_compute. reflexivity. Qed.

Example keyword_query_two :
  keyword_query (split (u8 "python senior"))
  = u8 "SELECT vacancy_id, employer_id, vacancy_name, city, vacancy_url, salary_from, salary_to FROM vacancies WHERE LOWER(vacancy_name) LIKE LOWER(%s) AND LOWER(vacancy_name) LIKE LOWER(%s)"
  /\ keyword_vars (split (u8 "python senior"))
     = [VStr (u8 "%python%"); VStr (u8 "%senior%")].
Proof. vm_compute. split; reflexivity. Qed.

(** Where no sum of bounds is odd the statement and the claim agree. *)
Example higher_salary_even_sums :
  let low := {| vacancy_id := 10; employer_id := Some 1;
                vacancy_name := u8 "Engineer"; city := u8 "City";
                vacancy_url := u8 "v.url";
                salary_from := Some 100; salary_to := Some 200 |} in
  let high := {| vacancy_id := 11; employer_id := Some 1;
                 vacancy_name := u8 "Lead"; city := u8 "City";
                 vacancy_url := u8 "w.url";
                 salary_from := Some 300; salary_to := Some 400 |} in
  let open_ended := {| vacancy_id := 12; employer_id := None;
                       vacancy_name := u8 "Intern"; city := u8 "City";
                       vacancy_url := u8 "x.url";
                       salary_from := Some 900; salary_to := None |} in
  select_higher_salary [low; high; open_ended] = Ok [high]
  /\ above_average_midpoint [low; high; open_ended] = [high].
Proof. vm_compute. split; reflexivity. Qed.

End ManagerRuns.

(* ===================================================================== *)
(** * Further properties of the API client *)
(* ===================================================================== *)

Section ClientMore.
Import HH.
Context `{Http}.

(** One iteration of the page loop, whatever the host answers. *)
Lemma loop_iteration o eid sent0 (k : nat) acc fuel N :
  let asked := {| self := at_page o eid (Z.of_nat k) acc;
                  sent := sent0 ++ page_requests o eid (S k) |} in
  vacancies_loop (S fuel) N (loop_head o eid sent0 k acc)
  = if Z.of_nat k <? N then
      match connect_outcome (page_response o eid sent0 k) with
      | Ok d =>
        let vacancy := dict_get d (u8 "items") (VList []) in
        if truthy vacancy then
          match fst (iterate vacancy asked) with
          | Ok items =>
            vacancies_loop fuel N
              (loop_head o eid sent0 (S k) (acc ++ items))
          | Raised e => (Raised e, asked)
          end
        else (Ok (Some tt), asked)
      | Raised e => (Raised e, asked)
      end
    else (Ok (Some tt), loop_head o eid sent0 k acc).
Proof.
  intros asked. cbn [vacancies_loop]. unfold bind at 1.
  rewrite get_page_at_head. unfold bind at 1, lt_int at 1.
  cbn [int_value ret]. destruct (Z.of_nat k <? N); [|reflexivity].
  unfold bind at 1. rewrite connect_at_head. fold asked.
  destruct (connect_outcome _) as [d|e]; [|reflexivity]. cbn zeta.
  destruct (truthy (dict_get d (u8 "items") (VList []))); [|reflexivity].
  cbn [negb]. unfold bind at 1.
  assert (Hpure : forall v, snd (iterate v asked) = asked)
    by (by intros []).
  specialize (Hpure (dict_get d (u8 "items") (VList []))).
  destruct (iterate _ asked) as [[items|e] w1]; simpl in Hpure; subst w1;
    [|reflexivity].
  cbn [fst]. unfold bind at 1.
  unfold extend_vacancies at 1, on_self at 1, modify at 1.
  unfold bind at 1, get_self at 1.
  cbn [self sent vacancies_base at_page asked].
  unfold set_params at 1. cbn [_params]. unfold page_params at 1.
  rewrite lookup_insert_eq. unfold bind at 1, add_one at 1.
  cbn [int_value ret].
  unfold bind at 1, set_param at 1, on_self at 1, modify at 1.
  cbn [self sent base with_base HHVacanciesAPI_inherits vacancies_base
       __vacancies].
  f_equal. unfold loop_head. f_equal.
  rewrite <- at_page_next. reflexivity.
Qed.

(** The requests of the loop are those for consecutive pages, and the
    cursor never passes [max_pages]. *)
Lemma loop_requests o eid sent0 N (fuel : nat) : forall (k : nat) acc,
  exists m : nat,
    (k <= m)%nat
    /\ Z.of_nat m <= Z.max (Z.of_nat k) N
    /\ sent (snd (vacancies_loop fuel N (loop_head o eid sent0 k acc)))
       = sent0 ++ page_requests o eid m.
Proof.
  induction fuel as [|fuel IH]; intros k acc.
  - exists k. split; [lia|]. split; [lia|]. reflexivity.
  - rewrite loop_iteration. cbn zeta.
    destruct (Z.of_nat k <? N) eqn:Hk.
    + apply Z.ltb_lt in Hk.
      assert (Hstop : exists m : nat,
                (k <= m)%nat /\ Z.of_nat m <= Z.max (Z.of_nat k) N
                /\ sent0 ++ page_requests o eid (S k)
                   = sent0 ++ page_requests o eid m)
        by (exists (S k); split; [lia|split; [lia|done]]).
      destruct (connect_outcome _) as [d|e]; [|exact Hstop].
      destruct (truthy _); [|exact Hstop].
      destruct (fst (iterate _ _)) as [items|e]; [|exact Hstop].
      destruct (IH (S k) (acc ++ items)) as (m & Hm & Hle & Hsent).
      exists m. split; [lia|]. split; [lia|done].
    + exists k. split; [lia|]. split; [lia|]. reflexivity.
Qed.

(** X2. Whatever the host answers (errors, bodies of any shape), the
    requests [get_vacancies_by_employer_id] sends are those for pages
    0, 1, ..., m-1 of the employer, in this order, for some m that is at
    most [max_pages] (none when [max_pages] is not positive); the call
    returns or raises; and a list it returns is the one the object keeps. *)
Theorem get_vacancies_by_employer_id_requests
    (eid : ustr) (N : Z) (w : World HHVacanciesAPI) :
  let run := get_vacancies_by_employer_id eid N w in
  (exists m : nat,
     Z.of_nat m <= Z.max 0 N
     /\ sent (snd run) = sent w ++ page_requests (self w) eid m)
  /\ fst run <> Ok None
  /\ (forall l, fst run = Ok (Some l) -> __vacancies (self (snd run)) = l).
Proof.
  intros run. split; [|split].
  - subst run. rewrite before_loop. unfold bind at 1.
    destruct (loop_requests (self w) eid (sent w) N (S (Z.to_nat N)) 0 [])
      as (m & _ & Hle & Hsent).
    exists m. split; [done|].
    destruct (vacancies_loop _ _ _) as [[r|e] w1]; simpl in *; done.
  - apply get_vacancies_by_employer_id_terminates.
  - remember run as r eqn:Hr. subst run. revert Hr.
    rewrite before_loop. unfold bind at 1.
    destruct (vacancies_loop _ _ _) as [[[[]|]|e] w1];
      intros -> l; try done.
    unfold bind, get_self, ret. simpl. by intros [= <-].
Qed.

(** X1. A status 200 whose body decodes to anything but a mapping makes
    [connect] raise [ValueError]; a body that does not decode makes it
    raise what [json()] raised, as an [APIError] when that is a
    [RequestException]. The request is on record either way. *)
Theorem connect_rejects_other_bodies {Obj} `{Inherits Obj}
    (endpoint : option ustr) (w : World Obj) (response : Response) :
  requests_get (sent w) (connect_request (base (self w)) endpoint)
    = Ok response ->
  status_code response = 200 ->
  let after := {| self := self w;
                  sent := sent w
                    ++ [connect_request (base (self w)) endpoint] |} in
  (forall v, json response = Ok v -> (forall d, v <> VDict d) ->
     connect endpoint w = (Raised (Exc ValueError msg_not_dict), after))
  /\ (forall e, json response = Raised e ->
        connect endpoint w
        = (Raised (if isinstance e RequestException
                   then Exc APIError (msg_request_error e) else e),
           after)).
Proof.
  intros Hget Hstatus after. rewrite connect_unfold. cbn zeta.
  unfold connect_outcome. rewrite Hget, Hstatus. cbn [Z.eqb Pos.eqb].
  split.
  - intros v -> Hv. destruct v; try done. by destruct (Hv d).
  - intros e ->. by destruct (isinstance e RequestException).
Qed.

(** X3. [get_employer_by_id] asks for base URL + endpoint + id with the
    object's parameters, once. The endpoint and the parameters of the
    object are as before, so the ids of successive calls do not pile up in
    the address. A mapping that arrives is returned and kept; when the
    call raises, the mapping kept before stays. *)
Theorem get_employer_by_id_request
    (eid : ustr) (w : World HHEmployerAPI) :
  let run := get_employer_by_id eid w in
  let api := employer_base (self w) in
  let req := {| url := __base_url api ++ _endpoint api ++ eid;
                headers := __headers api;
                params := _params api |} in
  sent (snd run) = sent w ++ [req]
  /\ employer_base (self (snd run)) = api
  /\ (forall response d,
        requests_get (sent w) req = Ok response ->
        status_code response = 200 ->
        json response = Ok (VDict d) ->
        fst run = Ok d /\ __employer (self (snd run)) = d)
  /\ (forall e, fst run = Raised e ->
        __employer (self (snd run)) = __employer (self w)).
Proof.
  intros run api req. remember run as r eqn:Hr. subst run. revert Hr.
  unfold get_employer_by_id, bind at 1, get_self at 1.
  unfold bind at 1. rewrite connect_unfold. cbn zeta.
  change (connect_request _ _) with req.
  destruct (connect_outcome (requests_get (sent w) req)) as [d|e] eqn:Hout;
    intros ->; cbn.
  - split; [done|]. split; [done|]. split; [|done].
    intros response d' Hget Hstatus Hjson. revert Hout.
    unfold connect_outcome. rewrite Hget, Hstatus, Hjson. cbn.
    by intros [= ->].
  - split; [done|]. split; [done|]. split; [|done].
    intros response d' Hget Hstatus Hjson. revert Hout.
    unfold connect_outcome. by rewrite Hget, Hstatus, Hjson.
Qed.

(** X4. [search_employers_by_keyword] replaces the parameters of the
    object by [text], [only_with_vacancies = "true"] and [area = "113"],
    whatever they were, and sends one request with them. The ['items'] list
    of the answer is returned as it came and becomes the object's list:
    nothing of an earlier result is left in it. *)
Theorem search_employers_by_keyword_request
    (keyword : ustr) (w : World HHEmployersAPI) :
  let run := search_employers_by_keyword keyword w in
  let api := employers_base (self w) in
  let req := {| url := __base_url api ++ _endpoint api;
                headers := __headers api;
                params := search_params keyword |} in
  sent (snd run) = sent w ++ [req]
  /\ _params (employers_base (self (snd run))) = search_params keyword
  /\ (search_params keyword !! "text" = Some (VStr keyword)
      /\ dom (search_params keyword)
         = ({[ "text"; "only_with_vacancies"; "area" ]} : gset string))
  /\ (forall l, response_items (requests_get (sent w) req) = Some l ->
        fst run = Ok l /\ __employers (self (snd run)) = l).
Proof.
  intros run api req. remember run as r eqn:Hr. subst run. revert Hr.
  unfold search_employers_by_keyword. rewrite employers_fetched.
  rewrite connect_unfold. cbn zeta.
  change (connect_request _ _) with req. cbn [sent employers_ready].
  intros Hr. split; [|split; [|split; [|]]].
  - subst r. destruct (connect_outcome _) as [d|e]; [|done].
    by destruct (dict_get d _ _).
  - subst r. destruct (connect_outcome _) as [d|e]; [|done].
    by destruct (dict_get d _ _).
  - split; [done|]. unfold search_params. rewrite !dom_insert_L.
    set_solver.
  - intros l Hl. subst r.
    destruct (response_items_outcome _ _ Hl) as (d & -> & ->). done.
Qed.

End ClientMore.

(* ===================================================================== *)
(** * Properties of the fetching functions of [src/utils.py] *)
(* ===================================================================== *)

Section FetchFacts.
Import HH Fetch.
Context `{Http} `{PyStr}.

(** ** [get_data_employers] *)

Lemma get_employer_by_id_run (eid : ustr) (w : World HHEmployerAPI) :
  exists r o,
    get_employer_by_id eid w
    = (r, {| self := o;
             sent := sent w
               ++ [connect_request (employer_base (self w))
                     (Some (_endpoint (employer_base (self w)) ++ eid))] |})
    /\ employer_base o = employer_base (self w).
Proof.
  unfold get_employer_by_id, bind at 1, get_self at 1.
  unfold bind at 1. rewrite connect_unfold. cbn zeta.
  destruct (connect_outcome _) as [d|e]; cbn; eauto.
Qed.

Lemma get_data_employers_loop_run (employers_id : list value) :
  forall (employers : list value) (w : World HHEmployerAPI) r w',
    employer_base (self w) = employer_base HHEmployerAPI_init ->
    get_data_employers_loop employers_id employers w = (r, w') ->
    exists more,
      sent w' = sent w ++ more
      /\ map url more
         = take (length more) (map employer_url employers_id)
      /\ forall l,
           r = Ok l ->
           length more = length employers_id
           /\ exists fetched,
                l = employers ++ fetched
                /\ length fetched = length employers_id
                /\ Forall is_dict fetched.
Proof.
  induction employers_id as [|employer rest IH];
    intros employers w r w' Hbase.
  - intros [= <- <-]. exists []. cbn. rewrite app_nil_r.
    split; [done|]. split; [done|].
    intros l [= <-]. split; [done|]. exists []. by rewrite app_nil_r.
  - cbn [get_data_employers_loop]. unfold bind at 1, py_get at 1.
    destruct employer as [| | | | | | |d];
      try (intros [= <- <-]; exists []; cbn; rewrite app_nil_r;
           by repeat split).
    cbn [ret]. unfold bind at 1.
    destruct (get_employer_by_id_run
                (str_of (dict_get d (u8 "id") VNone)) w)
      as (r1 & o & -> & Ho).
    assert (Hurl : url (connect_request (employer_base (self w))
                     (Some (_endpoint (employer_base (self w))
                              ++ str_of (dict_get d (u8 "id") VNone))))
                   = employer_url (VDict d)) by (by rewrite Hbase).
    destruct r1 as [fetched|e].
    + intros Hrun.
      apply IH in Hrun as (more & Hsent & Hurls & Hok);
        [|cbn [self]; congruence].
      eexists (_ :: more). cbn [sent] in Hsent. rewrite Hsent.
      split; [by rewrite <- app_assoc|].
      split; [cbn [map length take]; by rewrite Hurl, Hurls|].
      intros l Hl. destruct (Hok l Hl) as (Hlen & tail & -> & Htail & Hd).
      split; [cbn; by rewrite Hlen|].
      exists (VDict fetched :: tail). rewrite <- app_assoc.
      split; [done|]. split; [cbn; by rewrite Htail|].
      constructor; [by eexists|done].
    + intros [= <- <-]. eexists [_]. cbn.
      split; [done|]. split; [by rewrite Hurl|done].
Qed.

(** X5. [get_data_employers] asks for the employers of its input one
    after another, in input order, at the address [/employers/<id>] of
    each, and stops at the first failure. When it returns, it has asked
    once for every element and returns as many mappings as there were
    elements. *)
Theorem get_data_employers_requests
    (employers_id : list value) (sent0 : list Request) :
  let run := get_data_employers employers_id sent0 in
  exists more,
    snd run = sent0 ++ more
    /\ map url more = take (length more) (map employer_url employers_id)
    /\ forall l,
         fst run = Ok l ->
         length more = length employers_id
         /\ length l = length employers_id
         /\ Forall is_dict l.
Proof.
  intros run. subst run. unfold get_data_employers.
  destruct (get_data_employers_loop _ _ _) as [r w] eqn:Hrun.
  apply get_data_employers_loop_run in Hrun
    as (more & Hsent & Hurls & Hok); [|done].
  cbn in *. exists more. split; [done|]. split; [done|].
  intros l Hl. destruct (Hok l Hl) as (Hlen & fetched & -> & Hf & Hd).
  by rewrite Hf.
Qed.

(** ** [get_data_vacancy_by_employers] *)

(** The page loop from any state of the object: at most [max_pages - page]
    requests, and no parameter but the cursor is touched. *)
Lemma vacancies_loop_any (N : Z) (fuel : nat) :
  forall (w : World HHVacanciesAPI) (p : Z) r w',
    _params (vacancies_base (self w)) !! "page" = Some (VInt p) ->
    vacancies_loop fuel N w = (r, w') ->
    exists more,
      sent w' = sent w ++ more
      /\ Z.of_nat (length more) <= Z.max 0 (N - p)
      /\ Forall (fun req => forall key, key <> "page" ->
                   params req !! key
                   = _params (vacancies_base (self w)) !! key) more
      /\ forall key, key <> "page" ->
           _params (vacancies_base (self w')) !! key
           = _params (vacancies_base (self w)) !! key.
Proof.
  induction fuel as [|fuel IH]; intros w p r w' Hp.
  - intros [= <- <-]. exists []. rewrite app_nil_r. cbn.
    split; [done|]. split; [lia|]. by split.
  - assert (Hnone : exists more : list Request,
              sent w = sent w ++ more
              /\ Z.of_nat (length more) <= Z.max 0 (N - p)
              /\ Forall (fun req => forall key, key <> "page" ->
                    params req !! key
                    = _params (vacancies_base (self w)) !! key) more
              /\ forall key : string, key <> "page" ->
                   _params (vacancies_base (self w)) !! key
                   = _params (vacancies_base (self w)) !! key).
    { exists []. rewrite app_nil_r. cbn. split; [done|]. split; [lia|].
      by split. }
    cbn [vacancies_loop]. unfold bind at 1, get_param at 1, bind at 1,
      get_self at 1, ret at 1. cbn [base HHVacanciesAPI_inherits].
    rewrite Hp. unfold bind at 1, lt_int at 1. cbn [int_value ret].
    destruct (p <? N) eqn:Hlt; [|by intros [= <- <-]].
    apply Z.ltb_lt in Hlt.
    assert (Hone : exists more : list Request,
              sent w ++ [connect_request (base (self w)) None]
                = sent w ++ more
              /\ Z.of_nat (length more) <= Z.max 0 (N - p)
              /\ Forall (fun req => forall key, key <> "page" ->
                    params req !! key
                    = _params (vacancies_base (self w)) !! key) more
              /\ forall key : string, key <> "page" ->
                   _params (vacancies_base (self w)) !! key
                   = _params (vacancies_base (self w)) !! key).
    { eexists [_]. split; [done|]. split; [cbn; lia|].
      split; [|done]. by constructor. }
    unfold bind at 1. rewrite connect_unfold. cbn zeta.
    destruct (connect_outcome _) as [d|e]; [|by intros [= <- <-]].
    destruct (truthy (dict_get d (u8 "items") (VList [])));
      [|by intros [= <- <-]].
    cbn [negb]. unfold bind at 1.
    destruct (iterate (dict_get d (u8 "items") (VList [])) _)
      as [[l|e] w1] eqn:Hiter.
    2:{ assert (w1 = {| self := self w;
                        sent := sent w
                          ++ [connect_request (base (self w)) None] |})
          as ->.
        { revert Hiter. unfold iterate, ret, raise.
          destruct (dict_get d _ _); congruence. }
        by intros [= <- <-]. }
    assert (w1 = {| self := self w;
                    sent := sent w
                      ++ [connect_request (base (self w)) None] |}) as ->.
    { revert Hiter. unfold iterate, ret, raise.
      destruct (dict_get d _ _); congruence. }
    unfold bind at 1, extend_vacancies at 1, on_self at 1, modify at 1.
    unfold bind at 1, get_self at 1. cbn [self sent vacancies_base].
    rewrite Hp. unfold bind at 1, add_one at 1. cbn [int_value ret].
    unfold bind at 1, set_param at 1, on_self at 1, modify at 1.
    intros Hrun.
    apply (IH _ (p + 1)) in Hrun as (more & Hsent & Hlen & Hreqs & Hkeep);
      [|cbn; by rewrite lookup_insert_eq].
    cbn in Hsent, Hreqs, Hkeep.
    exists (connect_request (vacancies_base (self w)) None :: more).
    split; [by rewrite Hsent, <- app_assoc|].
    split; [cbn [length]; lia|]. split.
    + constructor; [done|].
      eapply Forall_impl; [exact Hreqs|]. cbn. intros req Hreq key Hkey.
      by rewrite Hreq, lookup_insert_ne by done.
    + intros key Hkey. by rewrite Hkeep, lookup_insert_ne by done.
Qed.

Lemma get_vacancies_by_employer_id_of_run (id : value) (N : Z)
    (w : World HHVacanciesAPI) r w' :
  get_vacancies_by_employer_id_of id N w = (r, w') ->
  r <> Ok None
  /\ exists more,
       sent w' = sent w ++ more
       /\ Z.of_nat (length more) <= Z.max 0 N
       /\ Forall (fun req =>
                   params req !! "per_page"
                   = _params (vacancies_base (self w)) !! "per_page") more
       /\ _params (vacancies_base (self w')) !! "per_page"
          = _params (vacancies_base (self w)) !! "per_page".
Proof.
  unfold get_vacancies_by_employer_id_of.
  unfold bind at 1, set_param at 1, on_self at 1, modify at 1.
  unfold bind at 1, set_param at 1, on_self at 1, modify at 1.
  unfold bind at 1, on_self at 1, modify at 1. unfold bind at 1.
  match goal with |- context [vacancies_loop ?f N ?w0] =>
    pose proof (vacancies_loop_terminates N f w0 0) as Hterm;
    destruct (vacancies_loop f N w0) as [r1 w1] eqn:Hloop end.
  apply (vacancies_loop_any _ _ _ 0) in Hloop
    as (more & Hsent & Hlen & Hreqs & Hkeep);
    [|cbn; by rewrite lookup_insert_eq].
  cbn in Hsent, Hreqs, Hkeep, Hterm.
  assert (Hper : forall m : gmap string value,
            <["page" := VInt 0]> (<["employer_id" := id]> m) !! "per_page"
            = m !! "per_page")
    by (intros m; by rewrite !lookup_insert_ne by done).
  assert (Hrest : exists more0,
            sent w1 = sent w ++ more0
            /\ Z.of_nat (length more0) <= Z.max 0 N
            /\ Forall (fun req =>
                  params req !! "per_page"
                  = _params (vacancies_base (self w)) !! "per_page") more0
            /\ _params (vacancies_base (self w1)) !! "per_page"
               = _params (vacancies_base (self w)) !! "per_page").
  { exists more. split; [done|]. split; [lia|]. split.
    - eapply Forall_impl; [exact Hreqs|]. cbn. intros req Hreq.
      by rewrite Hreq, Hper by done.
    - by rewrite Hkeep, Hper by done. }
  destruct r1 as [[[]|]|e]; cbn.
  - unfold bind, get_self, ret. cbn. by intros [= <- <-].
  - exfalso. apply Hterm; [by rewrite lookup_insert_eq|lia|done].
  - by intros [= <- <-].
Qed.

Lemma get_data_vacancy_loop_run (employers_id : list value) :
  forall (vacancies_list : list value) (w : World HHVacanciesAPI) r w',
    _params (vacancies_base (self w)) !! "per_page" = Some (VInt 100) ->
    get_data_vacancy_loop employers_id vacancies_list w = (r, w') ->
    r <> Ok None
    /\ exists more,
         sent w' = sent w ++ more
         /\ (length more <= 20 * length employers_id)%nat
         /\ Forall (fun req =>
                     params req !! "per_page" = Some (VInt 100)) more.
Proof.
  induction employers_id as [|employer rest IH];
    intros vacancies_list w r w' Hper.
  - intros [= <- <-]. split; [done|]. exists []. rewrite app_nil_r.
    by repeat split.
  - cbn [get_data_vacancy_loop]. unfold bind at 1, py_get at 1.
    destruct employer as [| | | | | | |d];
      try (intros [= <- <-]; split; [done|]; exists []; rewrite app_nil_r;
           repeat split; [cbn; lia|done]).
    cbn [ret]. unfold bind at 1.
    destruct (get_vacancies_by_employer_id_of _ 20 w) as [r1 w1] eqn:Hone.
    apply get_vacancies_by_employer_id_of_run in Hone
      as (Hsome & more1 & Hsent1 & Hlen1 & Hreqs1 & Hper1).
    rewrite Hper in Hreqs1, Hper1.
    destruct r1 as [[vacancies|]|e]; [|done|].
    + intros Hrun. apply IH in Hrun
        as (Hnone & more & Hsent & Hlen & Hreqs); [|done].
      split; [done|]. exists (more1 ++ more).
      split; [by rewrite Hsent, Hsent1, app_assoc|].
      split; [rewrite length_app; cbn [length]; lia|].
      by apply Forall_app.
    + intros [= <- <-]. split; [done|]. exists more1.
      split; [done|]. split; [cbn [length]; lia|done].
Qed.

(** X6. [get_data_vacancy_by_employers] sends at most 20 requests per
    element of its input, whatever the host answers, each asking for 100
    vacancies per page; it returns or raises (the page loop inside never
    runs on), and with an empty input it returns the empty list without a
    request. *)
Theorem get_data_vacancy_by_employers_requests
    (employers_id : list value) (sent0 : list Request) :
  let run := get_data_vacancy_by_employers employers_id sent0 in
  fst run <> Ok None
  /\ (exists more,
        snd run = sent0 ++ more
        /\ (length more <= 20 * length employers_id)%nat
        /\ Forall (fun req =>
                    params req !! "per_page" = Some (VInt 100)) more)
  /\ (employers_id = [] -> run = (Ok (Some []), sent0)).
Proof.
  intros run. subst run. unfold get_data_vacancy_by_employers.
  destruct (get_data_vacancy_loop _ _ _) as [r w] eqn:Hrun.
  split; [|split].
  - apply get_data_vacancy_loop_run in Hrun as (Hnone & _); done.
  - apply get_data_vacancy_loop_run in Hrun as (_ & Hmore); done.
  - intros ->. cbn in Hrun. by injection Hrun as <- <-.
Qed.

End FetchFacts.

(* ===================================================================== *)
(** * Further properties of the data-access layer *)
(* ===================================================================== *)

Section ManagerMore.
Import DB.
Context {W : Type} `{Psycopg2 W} `{PyFloat}.

(** ** A connection opened before the call *)

Lemma connected_then_close {A} (body : Comp (World W) A) :
  DB.quiet body ->
  uses_and_closes (connect ;;; try_finally body close).
Proof.
  intros Hquiet w c Hc. cbv zeta.
  remember ((connect ;;; try_finally body close) w) as run eqn:Hrun.
  revert Hrun.
  unfold bind at 1, connect at 1, bind at 1, get_self at 1.
  rewrite Hc. unfold print at 1, modify at 1. unfold try_finally.
  match goal with |- context [body ?w1] =>
    destruct (Hquiet w1) as (Hself & more & Hcalls & Hmore);
    destruct (body w1) as [r w2] end.
  cbn [snd self calls] in Hself, Hcalls.
  unfold close, bind at 1, get_self at 1. rewrite Hself, Hc.
  unfold bind at 1, call_, call. cbn. intros ->. cbn.
  split; [done|]. exists more. split; [done|].
  by rewrite Hcalls, <- app_assoc.
Qed.

Lemma quiet_avg_body :
  DB.quiet (W := W)
    (try_excepts
       (result <- with_cursor (fun cur =>
          execute cur sql_avg_salary None ;;;
          row <- fetchone cur ;;
          subscript0 row) ;;
        if truthy result then lift (to_float result) else ret float_zero)
       [ (DatabaseError,
          fun exc_info => print (msg_error exc_info) ;;; ret float_zero);
         (ValueError,
          fun _ => print (u8 "Получено не числовое значение") ;;;
                   ret float_zero) ]).
Proof.
  apply quiet_try_excepts.
  - apply quiet_bind.
    + apply quiet_with_cursor. intros cur.
      apply quiet_bind; [by apply quiet_call|]. intros _.
      apply quiet_bind; [by apply quiet_call|]. intros row.
      apply quiet_subscript0.
    + intros result. destruct (truthy result);
        [apply quiet_lift|apply quiet_ret].
  - repeat apply Forall_cons_2; [| |apply Forall_nil_2]; simpl; intros e;
      (apply quiet_bind; [apply quiet_print|intros _; apply quiet_ret]).
Qed.

(** X7. A read operation called while a connection is already set (the
    caller ran [connect] before) does not open another: it works on
    cursors of that connection, closes it last and leaves the attribute
    unset. With C8: after any read operation that gets as far as its
    statement, the manager holds no connection. *)
Theorem read_operations_use_an_open_connection :
  uses_and_closes get_companies_and_vacancies_count
  /\ uses_and_closes get_all_vacancies
  /\ uses_and_closes get_avg_salary
  /\ uses_and_closes get_vacancies_with_higher_salary
  /\ (forall keywords : ustr,
        ~ whitespace_only keywords ->
        uses_and_closes (get_vacancies_with_keyword keywords)).
Proof.
  split; [|split; [|split; [|split]]];
    try (apply connected_then_close; apply quiet_fetch_body).
  - apply connected_then_close. apply quiet_avg_body.
  - intros keywords Hk. unfold get_vacancies_with_keyword.
    destruct (split keywords) eqn:Hs.
    + destruct Hk. by apply split_nil_iff.
    + rewrite <- Hs. apply connected_then_close. apply quiet_fetch_body.
Qed.

(** ** What the list-returning reads return *)

Lemma first_failure_work (c : connection) (d1 : W) (query : ustr)
    (vars : option (list value)) (e : exn) :
  first_failure c d1 query vars e -> cursor_work c d1 query vars = Raised e.
Proof.
  unfold first_failure, cursor_work.
  intros [He|[(cur & d2 & -> & He)|(cur & d2 & d3 & -> & -> & He)]].
  - destruct (conn_cursor c d1) as [[?|e'] ?]; simpl in He;
      [done|by injection He as ->].
  - destruct (cur_execute _ _ _ _) as [[?|e'] ?]; simpl in He;
      [done|by injection He as ->].
  - done.
Qed.

Lemma fetch_rows_outcome (query : ustr) (vars : option (list value))
    (w : World W) (c : connection) (d1 : W) r w' :
  __conn (self w) = None ->
  psycopg2_connect (conn_args (self w)) (driver w) = (Ok c, d1) ->
  (connect ;;; fetch_rows query vars) w = (r, w') ->
  match cursor_work c d1 query vars with
  | Ok result => r = Ok (or_empty result) /\ stdout w' = stdout w
  | Raised e =>
    if isinstance e DatabaseError
    then r = Ok (VList []) /\ stdout w' = stdout w ++ [msg_error e]
    else r = Raised e /\ stdout w' = stdout w
  end.
Proof.
  intros Hnone Hconnect.
  unfold bind at 1, connect at 1, bind at 1, get_self at 1.
  rewrite Hnone. unfold try_except at 1, bind at 1, call at 1.
  rewrite Hconnect. simpl.
  unfold fetch_rows, with_cursor, execute, fetchall, call_.
  unfold try_finally, try_except, bind, get_self, call. simpl.
  unfold cursor_work.
  destruct (conn_cursor c d1) as [[cur|e1] d2]; simpl.
  - destruct (cur_execute cur query vars d2) as [[[]|e2] d3]; simpl.
    + destruct (cur_fetchall cur d3) as [[result|e3] d4]; simpl.
      * by intros [= <- <-].
      * destruct (isinstance e3 DatabaseError); by intros [= <- <-].
    + destruct (isinstance e2 DatabaseError); by intros [= <- <-].
  - destruct (isinstance e1 DatabaseError); by intros [= <- <-].
Qed.

(** X8. With the connection open, a list-returning read returns what
    [fetchall] handed back, or the empty list when that is [None] or
    empty, and prints nothing. When the first failing call on the cursor
    ([cursor], [execute] or [fetchall]) raises a [DatabaseError], the read
    prints the error and returns the empty list; any other exception is
    raised to the caller. The four methods are this read on their
    statement. *)
Theorem list_reads_on_an_open_connection
    (query : ustr) (vars : option (list value)) (w : World W)
    (c : connection) (d1 : W) :
  __conn (self w) = None ->
  psycopg2_connect (conn_args (self w)) (driver w) = (Ok c, d1) ->
  let run := (connect ;;; fetch_rows query vars) w in
  (forall cur d2 d3 result d4,
     conn_cursor c d1 = (Ok cur, d2) ->
     cur_execute cur query vars d2 = (Ok tt, d3) ->
     cur_fetchall cur d3 = (Ok result, d4) ->
     fst run = Ok (or_empty result) /\ stdout (snd run) = stdout w)
  /\ (forall e,
        first_failure c d1 query vars e ->
        isinstance e DatabaseError = true ->
        fst run = Ok (VList [])
        /\ stdout (snd run) = stdout w ++ [msg_error e])
  /\ (forall e,
        first_failure c d1 query vars e ->
        isinstance e DatabaseError = false ->
        fst run = Raised e /\ stdout (snd run) = stdout w)
  /\ (get_companies_and_vacancies_count
        = (connect ;;; fetch_rows sql_companies_and_vacancies_count None)
      /\ get_all_vacancies = (connect ;;; fetch_rows sql_all_vacancies None)
      /\ get_vacancies_with_higher_salary
         = (connect ;;; fetch_rows sql_higher_salary None)
      /\ forall keywords, ~ whitespace_only keywords ->
           get_vacancies_with_keyword keywords
           = (connect ;;;
              fetch_rows (keyword_query (split keywords))
                         (Some (keyword_vars (split keywords))))).
Proof.
  intros Hnone Hconnect run.
  destruct run as [r w'] eqn:Hrun. subst run.
  pose proof (fetch_rows_outcome _ _ _ _ _ _ _ Hnone Hconnect Hrun) as Hout.
  cbn [fst snd]. split; [|split; [|split]].
  - intros cur d2 d3 result d4 Hcur Hex Hf. revert Hout.
    unfold cursor_work. by rewrite Hcur, Hex, Hf.
  - intros e He Hdb. apply first_failure_work in He.
    by rewrite He, Hdb in Hout.
  - intros e He Hdb. apply first_failure_work in He.
    by rewrite He, Hdb in Hout.
  - split; [done|]. split; [done|]. split; [done|].
    intros keywords Hk. unfold get_vacancies_with_keyword.
    destruct (split keywords) eqn:Hs; [|done].
    destruct Hk. by apply split_nil_iff.
Qed.

(** ** What [get_avg_salary] returns *)

Lemma value_error_is_no_database_error (e : exn) :
  isinstance e ValueError = true -> isinstance e DatabaseError = false.
Proof. destruct e as [[] msg]; by vm_compute. Qed.

(** X9. When the statement of [get_avg_salary] ran and the first column
    of the row fetched is [result]: a falsy [result] ([None], zero) gives
    0.0; otherwise [float(result)] is returned; a [ValueError] of that
    conversion is printed as "not a number" and gives 0.0; any other
    exception of the conversion that is no [DatabaseError] is raised to
    the caller. *)
Theorem get_avg_salary_result
    (w : World W) (c : connection) (d1 : W) (cur : cursor) (d2 d3 : W)
    (result : value) (rest : list value) (d4 : W) :
  __conn (self w) = None ->
  psycopg2_connect (conn_args (self w)) (driver w) = (Ok c, d1) ->
  conn_cursor c d1 = (Ok cur, d2) ->
  cur_execute cur sql_avg_salary None d2 = (Ok tt, d3) ->
  cur_fetchone cur d3 = (Ok (VTuple (result :: rest)), d4) ->
  let run := get_avg_salary w in
  (truthy result = false ->
     fst run = Ok float_zero /\ stdout (snd run) = stdout w)
  /\ (truthy result = true ->
      (forall f, to_float result = Ok f ->
         fst run = Ok f /\ stdout (snd run) = stdout w)
      /\ (forall e, to_float result = Raised e ->
            isinstance e ValueError = true ->
            fst run = Ok float_zero
            /\ stdout (snd run)
               = stdout w ++ [u8 "Получено не числовое значение"])
      /\ (forall e, to_float result = Raised e ->
            isinstance e ValueError = false ->
            isinstance e DatabaseError = false ->
            fst run = Raised e)).
Proof.
  intros Hnone Hconnect Hcur Hex Hf run.
  destruct run as [r w'] eqn:Hrun. subst run. revert Hrun.
  unfold get_avg_salary.
  unfold bind at 1, connect at 1, bind at 1, get_self at 1.
  rewrite Hnone. unfold try_except at 1, bind at 1, call at 1.
  rewrite Hconnect. simpl.
  unfold with_cursor, execute, fetchone, call_.
  unfold try_finally, try_excepts, bind, get_self, call. simpl.
  rewrite Hcur. simpl. rewrite Hex. simpl. rewrite Hf. simpl.
  destruct (truthy result) eqn:Ht.
  - unfold lift. destruct (to_float result) as [f|e] eqn:Hto; simpl.
    + intros [= <- <-]. split; [done|]. intros _. simpl.
      split; [by intros ? [= <-]|]. by split.
    + destruct (isinstance e DatabaseError) eqn:Hdb.
      * intros [= <- <-]. split; [done|]. intros _.
        split; [done|]. split.
        -- intros e' [= <-] Hv.
           apply value_error_is_no_database_error in Hv. congruence.
        -- intros e' [= <-]. congruence.
      * destruct (isinstance e ValueError) eqn:Hv.
        -- intros [= <- <-]. split; [done|]. intros _.
           split; [done|]. split; [by intros e' [= <-]|].
           intros e' [= <-]. congruence.
        -- simpl. intros [= <- <-]. split; [done|]. intros _.
           split; [done|]. split; [intros e' [= <-]; congruence|].
           by intros e' [= <-].
  - simpl. intros [= <- <-]. by split.
Qed.

(** ** Keywords *)

Lemma split_from_tokens (s : ustr) : forall word,
  Forall (fun c => isspace c = false) word ->
  Forall is_token (split_from word s).
Proof.
  induction s as [|c s IH]; intros word Hword; simpl.
  - destruct word; [constructor|]. constructor; [by split|constructor].
  - destruct (isspace c) eqn:Hc.
    + destruct word; [by apply IH|].
      constructor; [by split|by apply IH].
    + apply IH. apply Forall_app. split; [done|].
      constructor; [done|constructor].
Qed.

Lemma split_from_concat (s : ustr) : forall word,
  concat (split_from word s)
  = word ++ List.filter (fun c => negb (isspace c)) s.
Proof.
  induction s as [|c s IH]; intros word; simpl.
  - destruct word; simpl; by rewrite ?app_nil_r.
  - destruct (isspace c); simpl.
    + destruct word; simpl; by rewrite IH.
    + by rewrite IH, <- app_assoc.
Qed.

Lemma split_from_token (t : ustr) : forall word rest,
  Forall (fun c => isspace c = false) t ->
  split_from word (t ++ rest) = split_from (word ++ t) rest.
Proof.
  induction t as [|c t IH]; intros word rest Ht; simpl.
  - by rewrite app_nil_r.
  - inversion Ht as [|? ? Hc Ht']; subst. rewrite Hc, IH by done.
    by rewrite <- app_assoc.
Qed.

Lemma split_join (tokens : list ustr) :
  Forall is_token tokens -> split (join [32%N] tokens) = tokens.
Proof.
  unfold split. induction 1 as [|t ts [Hne Ht] Hts IH]; [done|].
  cbn [join]. destruct ts as [|t' ts].
  - replace (split_from [] t) with (split_from [] (t ++ []))
      by (by rewrite app_nil_r).
    rewrite split_from_token by done. simpl. by destruct t.
  - rewrite split_from_token by done. cbn [app split_from].
    replace (isspace 32) with true by done.
    rewrite IH. by destruct t.
Qed.

(** X10. [keywords.split()] gives the keywords in their order: each has
    at least one character and no whitespace, together they are the
    characters of the input that are not whitespace, and joining them
    with single spaces and splitting again gives the same keywords. *)
Theorem split_keywords_tokens (keywords : ustr) :
  Forall is_token (split keywords)
  /\ concat (split keywords)
     = List.filter (fun c => negb (isspace c)) keywords
  /\ split (join [32%N] (split keywords)) = split keywords.
Proof.
  assert (Htok : Forall is_token (split keywords))
    by (by apply split_from_tokens).
  split; [done|]. split; [apply (split_from_concat keywords [])|].
  by apply split_join.
Qed.

Lemma keyword_query_count (tokens : list ustr) :
  keyword_query tokens = keyword_query_for (length tokens).
Proof.
  unfold keyword_query_for, keyword_query. do 3 f_equal.
  induction tokens as [|t ts IH]; [done|]. simpl. by rewrite IH.
Qed.

Section Executes.
Variables (query : ustr) (vars : option (list value)).

Local Abbreviation only := (only_executes (W := W) query vars).

Lemma only_pure {A} (op : Comp (World W) A) :
  (forall w, calls (snd (op w)) = calls w) -> only op.
Proof. intros Hop w cur q v. rewrite Hop. by left. Qed.

Lemma only_call {A} (c : Call) (f : W -> outcome A * W) :
  (forall cur q v, c = CallExecute cur q v -> q = query /\ v = vars) ->
  only (call c f).
Proof.
  intros Hc w cur q v. unfold call.
  destruct (f (driver w)) as [r d]. simpl. rewrite in_app_iff. simpl.
  intros [Hin|[Heq|[]]]; [by left|right; by apply (Hc cur)].
Qed.

Lemma only_bind {A B} (c : Comp (World W) A) (k : A -> Comp (World W) B) :
  only c -> (forall a, only (k a)) -> only (bind c k).
Proof.
  intros Hc Hk w cur q v. unfold bind. specialize (Hc w cur q v).
  destruct (c w) as [[a|e] w1]; simpl in *; [|done].
  intros Hin. destruct (Hk a w1 cur q v Hin) as [Hin1|Heq]; auto.
Qed.

Lemma only_try_except {A} (body : Comp (World W) A) (cls : exc_class)
    (handler : exn -> Comp (World W) A) :
  only body -> (forall e, only (handler e)) ->
  only (try_except body cls handler).
Proof.
  intros Hb Hh w cur q v. unfold try_except. specialize (Hb w cur q v).
  destruct (body w) as [[a|e] w1]; simpl in *; [done|].
  destruct (isinstance e cls); [|done].
  intros Hin. destruct (Hh e w1 cur q v Hin) as [Hin1|Heq]; auto.
Qed.

Lemma only_try_finally {A} (body : Comp (World W) A)
    (cleanup : Comp (World W) unit) :
  only body -> only cleanup -> only (try_finally body cleanup).
Proof.
  intros Hb Hc w cur q v. unfold try_finally. specialize (Hb w cur q v).
  destruct (body w) as [r w1]; simpl in *.
  specialize (Hc w1 cur q v).
  destruct (cleanup w1) as [[[]|e] w2]; simpl in *;
    intros Hin; destruct (Hc Hin) as [Hin1|Heq]; auto.
Qed.

Lemma only_connect : only connect.
Proof.
  unfold connect. apply only_bind; [by apply only_pure|]. intros o.
  destruct (__conn o); [by apply only_pure|].
  apply only_try_except.
  - apply only_bind; [by apply only_call|]. intros c. by apply only_pure.
  - intros e. apply only_bind; [by apply only_pure|]. intros _.
    by apply only_pure.
Qed.

Lemma only_close : only close.
Proof.
  unfold close. apply only_bind; [by apply only_pure|]. intros o.
  destruct (__conn o); [|by apply only_pure].
  apply only_bind; [by apply only_call|]. intros _. by apply only_pure.
Qed.

Lemma fetch_rows_executes : only (connect ;;; fetch_rows query vars).
Proof.
  apply only_bind; [apply only_connect|]. intros _.
  unfold fetch_rows. apply only_try_finally; [|apply only_close].
  apply only_try_except.
  - unfold with_cursor. apply only_bind; [by apply only_pure|]. intros o.
    destruct (__conn o); [|by apply only_pure].
    apply only_bind; [by apply only_call|]. intros cur.
    apply only_try_finally; [|by apply only_call].
    apply only_bind.
    + apply only_call. by intros ? ? ? [= _ <- <-].
    + intros _. apply only_bind; [by apply only_call|]. intros r.
      by apply only_pure.
  - intros e. apply only_bind; [by apply only_pure|]. intros _.
    by apply only_pure.
Qed.

End Executes.

(** X11. The text that [get_vacancies_with_keyword] has the driver
    execute is fixed by the number of keywords alone: the words the user
    typed reach the driver only as parameters, one [%keyword%] pattern per
    keyword, in order. *)
Theorem keywords_travel_as_parameters (keywords : ustr) (w : World W) :
  let tokens := split keywords in
  let w' := snd (get_vacancies_with_keyword keywords w) in
  keyword_query tokens = keyword_query_for (length tokens)
  /\ length (keyword_vars tokens) = length tokens
  /\ forall cur q v,
       In (CallExecute cur q v) (calls w') ->
       In (CallExecute cur q v) (calls w)
       \/ (q = keyword_query_for (length tokens)
           /\ v = Some (keyword_vars tokens)).
Proof.
  intros tokens w'. split; [apply keyword_query_count|].
  split; [unfold keyword_vars; by rewrite length_map|].
  subst w'. unfold get_vacancies_with_keyword. fold tokens.
  destruct tokens as [|t ts] eqn:Ht; [by left|].
  rewrite <- Ht. intros cur q v Hin.
  rewrite <- keyword_query_count.
  by apply (fetch_rows_executes _ _ w).
Qed.

End ManagerMore.

(* ===================================================================== *)
(** * The salary statement and the midpoint *)
(* ===================================================================== *)

Section SalaryFacts.
Import DB.

Lemma salary_sums_ok (table : list Vacancy) (sums : list (option Z)) :
  salary_sums table = Ok sums ->
  sums = map bounds_sum table
  /\ forall v, In v table -> salary_sum v = Ok (bounds_sum v).
Proof.
  revert sums. induction table as [|v table IH]; intros sums; simpl.
  - intros [= <-]. by split.
  - destruct (salary_sum v) as [s|e] eqn:Hv; [|done].
    destruct (salary_sums table) as [ss|e]; [|done].
    intros [= <-]. destruct (IH ss eq_refl) as [-> Hall].
    assert (Hs : s = bounds_sum v).
    { revert Hv. unfold salary_sum, bounds_sum.
      destruct (salary_from v), (salary_to v); try by intros [= <-].
      unfold int4_add. destruct (_ && _); by intros [= <-]. }
    subst s. split; [done|]. intros v' [<-|Hin]; [done|by apply Hall].
Qed.

Lemma Qlt_bool_iff (a b : Q) : Qlt_bool a b = true <-> (a < b)%Q.
Proof.
  unfold Qlt_bool. rewrite negb_true_iff, <- not_true_iff_false.
  rewrite Qle_bool_iff. split; [apply Qnot_le_lt|apply Qlt_not_le].
Qed.

Lemma midpoint_of_sum (v : Vacancy) :
  match bounds_sum v, midpoint v with
  | Some s, Some m => (m == inject_Z s / 2)%Q
  | None, None => True
  | _, _ => False
  end.
Proof.
  unfold bounds_sum, midpoint.
  destruct (salary_from v), (salary_to v); try done.
  rewrite inject_Z_plus. reflexivity.
Qed.

Lemma omap_cons_match {A B} (f : A -> option B) (x : A) (l : list A) :
  omap f (x :: l)
  = match f x with Some y => y :: omap f l | None => omap f l end.
Proof. reflexivity. Qed.

Lemma midpoints_of_sums (table : list Vacancy) :
  length (omap midpoint table) = length (omap bounds_sum table)
  /\ (fold_right Qplus 0 (omap midpoint table)
      == inject_Z (fold_right Z.add 0%Z (omap bounds_sum table)) / 2)%Q.
Proof.
  induction table as [|v table [IHlen IHsum]]; [by split|].
  pose proof (midpoint_of_sum v) as Hv. rewrite !omap_cons_match.
  destruct (bounds_sum v) as [s|], (midpoint v) as [m|]; try done.
  cbn [length fold_right]. split; [by rewrite IHlen|].
  rewrite IHsum, Hv, inject_Z_plus. field.
Qed.

Lemma omap_id_map {A B} (f : A -> option B) (l : list A) :
  omap id (map f l) = omap f l.
Proof.
  induction l as [|x l IH]; [done|].
  cbn [map]. rewrite !omap_cons_match. cbn [id]. by rewrite IH.
Qed.

(** What the statement selects, in terms of the sums of bounds. *)
Lemma select_higher_salary_rows (table rows : list Vacancy) :
  select_higher_salary table = Ok rows ->
  let sums := omap bounds_sum table in
  let avg := (inject_Z (fold_right Z.add 0%Z sums)
              / inject_Z (Z.of_nat (length sums)))%Q in
  rows = match sums with
         | [] => []
         | _ =>
           List.filter
             (fun v => match bounds_sum v with
                       | Some s => Qlt_bool (avg / 2) (inject_Z (Z.quot s 2))
                       | None => false
                       end) table
         end.
Proof.
  unfold select_higher_salary.
  destruct (salary_sums table) as [sums|e] eqn:Hsums; [|done].
  destruct (salary_sums_ok _ _ Hsums) as [-> Hall].
  unfold sql_avg. rewrite omap_id_map.
  destruct (omap bounds_sum table) as [|s0 ss] eqn:Hs; [by intros [= <-]|].
  intros [= <-]. cbv zeta. apply filter_ext_in.
  intros v Hv. by rewrite (Hall v Hv).
Qed.

(** What the claim selects, in terms of the sums of bounds. *)
Lemma above_average_midpoint_rows (table : list Vacancy) :
  let sums := omap bounds_sum table in
  let avg := (inject_Z (fold_right Z.add 0%Z sums)
              / inject_Z (Z.of_nat (length sums)))%Q in
  above_average_midpoint table
  = match sums with
    | [] => []
    | _ =>
      List.filter
        (fun v => match bounds_sum v with
                  | Some s => Qlt_bool (avg / 2) (inject_Z s / 2)
                  | None => false
                  end) table
    end.
Proof.
  cbv zeta. unfold above_average_midpoint, average_midpoint.
  destruct (midpoints_of_sums table) as [Hlen Hsum].
  destruct (omap bounds_sum table) as [|s0 ss] eqn:Hs.
  - destruct (omap midpoint table); [done|discriminate].
  - destruct (omap midpoint table) as [|m0 ms] eqn:Hm; [discriminate|].
    apply filter_ext_in. intros v Hv.
    pose proof (midpoint_of_sum v) as Hmid.
    destruct (bounds_sum v) as [s|], (midpoint v) as [m|]; try done.
    unfold Qlt_bool. f_equal. apply Qleb_comp; [done|].
    rewrite Hsum, Hlen. field.
    cbn [length]. rewrite Nat2Z.inj_succ. intros Hz.
    apply (Qeq_bool_neq (inject_Z (Z.succ (Z.of_nat (length ss)))) 0);
      [|done].
    unfold Qeq_bool, inject_Z. cbn. apply Z.eqb_neq. lia.
Qed.

Lemma half_of_nonnegative (s : Z) :
  0 <= s -> (inject_Z (Z.quot s 2) <= inject_Z s / 2)%Q.
Proof.
  intros Hs. pose proof (Z.mul_quot_le s 2 Hs ltac:(lia)) as Hq.
  assert (Hle : (inject_Z (2 * Z.quot s 2) <= inject_Z s)%Q)
    by (rewrite <- Zle_Qle; lia).
  rewrite inject_Z_mult in Hle. change (inject_Z 2) with 2%Q in Hle.
  apply Qle_shift_div_l; [reflexivity|]. lra.
Qed.


(** X12. On a table whose sums of bounds are not negative, every vacancy
    the salary statement selects is a row of the table with both bounds
    set whose midpoint strictly exceeds the average midpoint: what the
    statement returns is never wrong, only (by C4) incomplete. *)
Theorem higher_salary_rows_exceed_the_average
    (table rows : list Vacancy) :
  select_higher_salary table = Ok rows ->
  sums_are (fun s => 0 <= s) table ->
  forall v, In v rows ->
    In v table
    /\ (exists s, bounds_sum v = Some s)
    /\ In v (above_average_midpoint table).
Proof.
  intros Hrows Hpos v Hv.
  apply select_higher_salary_rows in Hrows. cbv zeta in Hrows.
  rewrite above_average_midpoint_rows. cbv zeta.
  destruct (omap bounds_sum table) as [|s0 ss]; [by subst rows|].
  subst rows. apply filter_In in Hv as [Hin Hsel].
  destruct (bounds_sum v) as [s|] eqn:Hs; [|done].
  split; [done|]. split; [by exists s|].
  apply filter_In. split; [done|]. rewrite Hs.
  apply Qlt_bool_iff in Hsel. apply Qlt_bool_iff.
  pose proof (half_of_nonnegative s (Hpos v s Hin Hs)). lra.
Qed.


End SalaryFacts.

(* ===================================================================== *)
(** * Further runs against concrete hosts and servers *)
(* ===================================================================== *)

Section ClientMoreRuns.
Import HH.

Lemma connect_rejects_other_bodies_witness :
  @connect not_a_dict_host _ _ None (fresh HeadHunterAPI_init)
  = (Raised (Exc ValueError msg_not_dict),
     {| self := HeadHunterAPI_init;
        sent := [connect_request HeadHunterAPI_init None] |}).
Proof.
  destruct (@connect_rejects_other_bodies not_a_dict_host _ _ None
              (fresh HeadHunterAPI_init)
              {| status_code := 200; text := [];
                 json := Ok (VStr (u8 "Error")) |}) as [Hbody _].
  - reflexivity.
  - reflexivity.
  - apply (Hbody (VStr (u8 "Error"))); [reflexivity|discriminate].
Defined.

Lemma get_employer_by_id_request_witness :
  let run := @get_employer_by_id id_123_host (u8 "12345")
               (fresh HHEmployerAPI_init) in
  fst run = Ok [(u8 "id", VStr (u8 "123"))]
  /\ __employer (self (snd run)) = [(u8 "id", VStr (u8 "123"))].
Proof.
  intros run.
  destruct (@get_employer_by_id_request id_123_host (u8 "12345")
              (fresh HHEmployerAPI_init)) as (_ & _ & Hmapping & _).
  apply (Hmapping {| status_code := 200; text := [];
                     json := Ok (VDict [(u8 "id", VStr (u8 "123"))]) |});
    reflexivity.
Defined.

Lemma search_employers_by_keyword_request_witness :
  let run := @search_employers_by_keyword one_item_host (u8 "python")
               (fresh HHEmployersAPI_init) in
  fst run = Ok [item "123"] /\ __employers (self (snd run)) = [item "123"].
Proof.
  intros run.
  destruct (@search_employers_by_keyword_request one_item_host (u8 "python")
              (fresh HHEmployersAPI_init)) as (_ & _ & _ & Hitems).
  apply Hitems. reflexivity.
Defined.

End ClientMoreRuns.

Section ManagerMoreRuns.
Import DB.

Lemma read_operations_use_an_open_connection_witness :
  let w := {| self := set_conn (Some 7%nat) (DBManager_init ∅);
              driver := {| fetchall_value := VList [];
                           fetchone_value := VNone |};
              calls := []; stdout := [] |} in
  __conn (self (snd (@get_all_vacancies Prepared mock_cursor w))) = None.
Proof.
  intros w.
  destruct (@read_operations_use_an_open_connection Prepared mock_cursor
              exact_float) as (_ & Hall & _).
  apply (Hall w 7%nat). reflexivity.
Defined.

Lemma list_reads_on_an_open_connection_witness :
  let refused := @get_all_vacancies unit server_without_tables
                   (fresh ∅ tt) in
  let rows := {| fetchall_value := VList [VTuple [VInt 1; VInt 2]];
                 fetchone_value := VNone |} in
  let served := @get_all_vacancies Prepared mock_cursor (fresh ∅ rows) in
  (fst refused = Ok (VList [])
   /\ stdout (snd refused) = [msg_error no_relation])
  /\ fst served = Ok (VList [VTuple [VInt 1; VInt 2]])
  /\ stdout (snd served) = [].
Proof.
  intros refused rows served. split.
  - destruct (@list_reads_on_an_open_connection unit server_without_tables
                sql_all_vacancies None (fresh ∅ tt) 0%nat tt)
      as (_ & Hhandled & _).
    + reflexivity.
    + reflexivity.
    + apply (Hhandled no_relation); [|reflexivity].
      right. left. exists 0%nat, tt. split; reflexivity.
  - destruct (@list_reads_on_an_open_connection Prepared mock_cursor
                sql_all_vacancies None (fresh ∅ rows) 0%nat rows)
      as (Hrows & _).
    + reflexivity.
    + reflexivity.
    + apply (Hrows 0%nat rows rows (VList [VTuple [VInt 1; VInt 2]]) rows);
        reflexivity.
Defined.

Lemma get_avg_salary_result_witness :
  let number := {| fetchall_value := VNone;
                   fetchone_value := VTuple [VInt 150] |} in
  let word := {| fetchall_value := VNone;
                 fetchone_value := VTuple [VStr [97; 98; 99]%N] |} in
  fst (@get_avg_salary Prepared mock_cursor exact_float (fresh ∅ number))
  = Ok (inject_Z 150)
  /\ fst (@get_avg_salary Prepared mock_cursor exact_float (fresh ∅ word))
     = Ok 0%Q.
Proof.
  intros number word. split.
  - destruct (@get_avg_salary_result Prepared mock_cursor exact_float
                (fresh ∅ number) 0%nat number 0%nat number number
                (VInt 150) [] number) as (_ & Htruthy);
      [reflexivity|reflexivity|reflexivity|reflexivity|reflexivity|].
    destruct (Htruthy eq_refl) as (Hfloat & _).
    apply (Hfloat (inject_Z 150)). reflexivity.
  - destruct (@get_avg_salary_result Prepared mock_cursor exact_float
                (fresh ∅ word) 0%nat word 0%nat word word
                (VStr [97; 98; 99]%N) [] word) as (_ & Htruthy);
      [reflexivity|reflexivity|reflexivity|reflexivity|reflexivity|].
    destruct (Htruthy eq_refl) as (_ & Hvalue & _).
    eapply Hvalue; reflexivity.
Defined.

Lemma higher_salary_rows_exceed_the_average_witness :
  In lead (above_average_midpoint [engineer; lead; intern]).
Proof.
  apply (higher_salary_rows_exceed_the_average
           [engineer; lead; intern] [lead]).
  - reflexivity.
  - intros v s [<-|[<-|[<-|[]]]] Hs; cbv in Hs; [| |discriminate];
      injection Hs as <-; lia.
  - left. reflexivity.
Defined.


(** The runs of [tests/test_database.py] on the average. *)

Example test_get_avg_salary :
  fst (@get_avg_salary Prepared mock_cursor exact_float
         (fresh ∅ {| fetchall_value := VNone;
                     fetchone_value := VTuple [VStr (u8 "100.111")] |}))
  = Ok (100111 # 1000)%Q.
Proof. vm_compute. reflexivity. Qed.

Example test_get_avg_salary_error :
  let run := @get_avg_salary Prepared mock_cursor exact_float
               (fresh ∅ {| fetchall_value := VNone;
                           fetchone_value := VTuple [VStr (u8 "abc")] |}) in
  fst run = Ok 0%Q
  /\ stdout (snd run) = [u8 "Получено не числовое значение"].
Proof. vm_compute. split; reflexivity. Qed.

Example read_float_texts :
  read_float (u8 "-5") = Some (-5 # 1)%Q
  /\ read_float (u8 " 12 ") = Some (12 # 1)%Q
  /\ read_float (u8 "1e3") = Some (1000 # 1)%Q
  /\ read_float (u8 "2.5E-1") = Some (25 # 100)%Q
  /\ read_float (u8 ".5") = Some (5 # 10)%Q
  /\ read_float (u8 "7.") = Some (7 # 1)%Q
  /\ read_float (u8 ".") = None
  /\ read_float (u8 "e3") = None
  /\ read_float (u8 "1 2") = None
  /\ read_float (u8 "") = None.
Proof. vm_compute. repeat split; reflexivity. Qed.

End ManagerMoreRuns.

(* ===================================================================== *)
(** * Properties of the writing functions of [src/utils.py] *)
(* ===================================================================== *)

Section StoreFacts.
Import DB Store.
Context {W : Type} `{Psycopg2 W} `{Psycopg2Kw W}.

Lemma isinstance_Exception (e : exn) : isinstance e Exception = true.
Proof. destruct e as [[] msg]; by vm_compute. Qed.

Lemma employer_fields_row (employer : value) (s : Session W) :
  snd (employer_fields employer s) = s
  /\ match employer_row employer with
     | Some row => fst (employer_fields employer s) = Ok row
     | None => exists e, fst (employer_fields employer s) = Raised e
     end.
Proof.
  destruct employer; cbn; eauto.
Qed.

Lemma vacancy_fields_row (vacancy : value) (s : Session W) :
  snd (vacancy_fields vacancy s) = s
  /\ match vacancy_row vacancy with
     | Some row => fst (vacancy_fields vacancy s) = Ok row
     | None => exists e, fst (vacancy_fields vacancy s) = Raised e
     end.
Proof.
  destruct vacancy as [| | | | | | |d]; try (cbn; by eauto).
  unfold vacancy_fields, vacancy_row, bind, Fetch.py_get, ret, raise.
  destruct (dict_get d (u8 "employer") VNone); try (cbn; by eauto).
  destruct (dict_get d (u8 "area") VNone); try (cbn; by eauto).
  destruct (dict_get d (u8 "salary") VNone); cbn; eauto.
Qed.


Lemma connect_db_connected (database_name : ustr)
    (params : gmap string value) (s : Session W) (c : connection) (d1 : W) :
  psycopg2_connect_kw database_name params (backend s) = (Ok c, d1) ->
  connect_db database_name params s
  = (Ok (Some c),
     {| backend := d1;
        events := events s ++ [EvConnect database_name params];
        output := output s ++ [msg_connected database_name] |}).
Proof.
  intros Hconnect. unfold connect_db, try_except, bind, call.
  by rewrite Hconnect.
Qed.

Lemma connect_db_refused (database_name : ustr)
    (params : gmap string value) (s : Session W) (e : exn) (d1 : W) :
  psycopg2_connect_kw database_name params (backend s) = (Raised e, d1) ->
  isinstance e DatabaseError = true ->
  connect_db database_name params s
  = (Ok None,
     {| backend := d1;
        events := events s ++ [EvConnect database_name params];
        output := output s ++ [msg_error e] |}).
Proof.
  intros Hconnect Hdb. unfold connect_db, try_except, bind, call.
  by rewrite Hconnect, Hdb.
Qed.

Lemma written_no_commit (cur : cursor) (query : ustr)
    (rows : list (list value)) :
  Forall (fun ev => is_commit ev = false) (written cur query rows).
Proof. unfold written. apply Forall_map. by apply Forall_true. Qed.

Section Rows.
Variables (fields : value -> Comp (Session W) (list value))
          (row : value -> option (list value)).
Hypothesis fields_row : forall element s,
  snd (fields element s) = s
  /\ match row element with
     | Some r => fst (fields element s) = Ok r
     | None => exists e, fst (fields element s) = Raised e
     end.

Lemma insert_rows_run (query : ustr) (cur : cursor) (data : list value) :
  forall (s : Session W) r s',
    insert_rows fields query cur data s = (r, s') ->
    output s' = output s
    /\ exists sent_rows,
         events s' = events s ++ written cur query sent_rows
         /\ match r with
            | Ok _ => mapM row data = Some sent_rows
            | Raised _ => True
            end.
Proof.
  induction data as [|element rest IH]; intros s r s'.
  - intros [= <- <-]. split; [done|]. exists []. cbn.
    by rewrite app_nil_r.
  - cbn [insert_rows]. unfold bind at 1.
    destruct (fields_row element s) as [Hs Hrow].
    destruct (fields element s) as [[values|e] s1]; cbn in Hs, Hrow;
      subst s1.
    + destruct (row element) as [values'|] eqn:Helement;
        [injection Hrow as ->|by destruct Hrow].
      unfold bind at 1, execute at 1, call at 1.
      destruct (cur_execute cur query (Some values') (backend s))
        as [[[]|e] d].
      * intros Hrun. apply IH in Hrun as (Hout & sent_rows & Hev & Hr).
        cbn in Hout, Hev. split; [done|]. exists (values' :: sent_rows).
        split; [by rewrite Hev, <- app_assoc|].
        destruct r; [|done]. cbn. by rewrite Helement, Hr.
      * intros [= <- <-]. split; [done|]. by exists [values'].
    + intros [= <- <-]. split; [done|]. exists []. cbn.
      by rewrite app_nil_r.
Qed.

Lemma insert_rows_accepted (query : ustr) (cur : cursor) :
  accepting ->
  forall (data : list value) (rows : list (list value)) (s : Session W),
    mapM row data = Some rows ->
    exists d,
      insert_rows fields query cur data s
      = (Ok tt, {| backend := d;
                   events := events s ++ written cur query rows;
                   output := output s |}).
Proof.
  intros [Hexecute _]. induction data as [|element rest IH]; intros rows s.
  - intros [= <-]. exists (backend s). cbn. rewrite app_nil_r.
    by destruct s.
  - cbn. destruct (row element) as [values|] eqn:Helement; [|done].
    destruct (mapM row rest) as [rows'|] eqn:Hrest; [|done].
    intros [= <-]. unfold bind at 1.
    destruct (fields_row element s) as [Hs Hrow]. rewrite Helement in Hrow.
    destruct (fields element s) as [r s1]; cbn in Hs, Hrow; subst r s1.
    unfold bind at 1, execute at 1, call at 1.
    destruct (Hexecute cur query (Some values) (backend s)) as [d ->].
    destruct (IH rows' {| backend := d;
                         events := events s
                           ++ [EvExecute cur query (Some values)];
                         output := output s |} eq_refl) as [d' ->].
    exists d'. cbn. by rewrite <- app_assoc.
Qed.

Lemma save_rows_run (query : ustr) (data : list value)
    (database_name : ustr) (params : gmap string value) (s : Session W)
    (c : connection) (d1 : W) :
  psycopg2_connect_kw database_name params (backend s) = (Ok c, d1) ->
  all_or_nothing row query data database_name params c s
    (save_rows fields query data database_name params s).
Proof.
  intros Hconnect. unfold all_or_nothing.
  destruct (save_rows _ _ _ _ _ _) as [r s'] eqn:Hrun. cbn [fst snd].
  revert Hrun. unfold save_rows, bind at 1.
  rewrite (connect_db_connected _ _ _ _ _ Hconnect).
  unfold try_finally at 1, try_except at 1, bind at 1.
  unfold with_cursor at 1, bind at 1, call at 1. cbn [backend events output].
  destruct (conn_cursor c d1) as [[cur|e] d2].
  - unfold try_finally at 1.
    destruct (insert_rows fields query cur data _) as [r1 s1] eqn:Hrows.
    apply insert_rows_run in Hrows as (Hout & sent_rows & Hev & Hr).
    cbn [backend events output] in Hout, Hev.
    unfold commit, call. cbn [backend events output]. destruct r1 as [[]|e].
    + destruct (conn_commit c (cur_close cur (backend s1)))
        as [[[]|e] d3].
      * unfold close, call. cbn. intros [= <- <-]. split; [done|].
        left. exists cur, sent_rows. split; [done|]. cbn.
        rewrite Hev, Hout, <- ?app_assoc. cbn. rewrite <- ?app_assoc.
        split; [done|by left].
      * rewrite isinstance_Exception. unfold report, print, modify, close,
          call. cbn. intros [= <- <-]. split; [done|].
        left. exists cur, sent_rows. split; [done|]. cbn.
        rewrite Hev, Hout, <- ?app_assoc. cbn. rewrite <- ?app_assoc.
        split; [done|right; by exists e].
    + rewrite isinstance_Exception. unfold report, print, modify, close,
        call. cbn. intros [= <- <-]. split; [done|].
      right. exists e, (EvCursor c :: written cur query sent_rows
                        ++ [EvCursorClose cur]).
      cbn. rewrite Hev, Hout, <- ?app_assoc. cbn. rewrite <- ?app_assoc.
      split; [done|]. split; [|done].
      constructor; [done|]. apply Forall_app. split.
      * apply written_no_commit.
      * by constructor.
  - rewrite isinstance_Exception. unfold report, print, modify, close, call.
    cbn. intros [= <- <-]. split; [done|].
    right. exists e, [EvCursor c]. cbn. rewrite <- ?app_assoc.
    split; [done|]. split; [|done]. by constructor.
Qed.

Lemma save_rows_refused (query : ustr) (data : list value)
    (database_name : ustr) (params : gmap string value) (s : Session W)
    (e : exn) (d1 : W) :
  psycopg2_connect_kw database_name params (backend s) = (Raised e, d1) ->
  isinstance e DatabaseError = true ->
  save_rows fields query data database_name params s
  = (Raised (no_attribute "close"),
     {| backend := d1;
        events := events s ++ [EvConnect database_name params];
        output := output s
          ++ [msg_error e; msg_error (no_attribute "cursor")] |}).
Proof.
  intros Hconnect Hdb. unfold save_rows, bind at 1.
  rewrite (connect_db_refused _ _ _ _ _ Hconnect Hdb).
  unfold try_finally, try_except, bind, with_cursor, raise, close.
  rewrite isinstance_Exception. unfold report, print, modify. cbn.
  by rewrite <- app_assoc.
Qed.

Lemma save_rows_accepted (query : ustr) (data : list value)
    (rows : list (list value)) (database_name : ustr)
    (params : gmap string value) (s : Session W) (c : connection) (d1 : W)
    (cur : cursor) (d2 : W) :
  accepting ->
  psycopg2_connect_kw database_name params (backend s) = (Ok c, d1) ->
  conn_cursor c d1 = (Ok cur, d2) ->
  mapM row data = Some rows ->
  let run := save_rows fields query data database_name params s in
  fst run = Ok tt
  /\ events (snd run)
     = events s
       ++ EvConnect database_name params :: EvCursor c
          :: written cur query rows
       ++ [EvCursorClose cur; EvCommit c; EvClose c]
  /\ output (snd run) = output s ++ [msg_connected database_name].
Proof.
  intros Hacc Hconnect Hcursor Hrows run. subst run.
  destruct (save_rows _ _ _ _ _ _) as [r s'] eqn:Hrun. revert Hrun.
  unfold save_rows, bind at 1.
  rewrite (connect_db_connected _ _ _ _ _ Hconnect).
  unfold try_finally at 1, try_except at 1, bind at 1.
  unfold with_cursor at 1, bind at 1, call at 1. cbn [backend events output].
  rewrite Hcursor. unfold try_finally at 1.
  match goal with |- context [insert_rows fields query cur data ?s0] =>
    destruct (insert_rows_accepted query cur Hacc data rows s0 Hrows)
      as [d3 ->] end.
  unfold commit, call. cbn [backend events output].
  destruct Hacc as [_ Hcommit].
  destruct (Hcommit c (cur_close cur d3)) as [d4 ->].
  unfold close, call. cbn. intros [= <- <-]. cbn.
  rewrite <- ?app_assoc. cbn. by rewrite <- ?app_assoc.
Qed.

End Rows.


(** X14. Without a connection nothing is saved and the caller gets an
    [AttributeError]: when [psycopg2.connect] raises a [DatabaseError],
    [connect_db] prints it and returns [None]; the [with] statement then
    fails on [None.cursor], which the handler prints; and [conn.close()]
    in the [finally] clause fails on [None], which nothing handles. *)
Theorem safe_data_without_connection (data : list value)
    (database_name : ustr) (params : gmap string value) (s : Session W)
    (e : exn) (d1 : W) :
  psycopg2_connect_kw database_name params (backend s) = (Raised e, d1) ->
  isinstance e DatabaseError = true ->
  let after :=
    {| backend := d1;
       events := events s ++ [EvConnect database_name params];
       output := output s
         ++ [msg_error e; msg_error (no_attribute "cursor")] |} in
  safe_data_to_employers data database_name params s
  = (Raised (no_attribute "close"), after)
  /\ safe_data_to_vacancies data database_name params s
     = (Raised (no_attribute "close"), after).
Proof.
  intros Hconnect Hdb after. split.
  - by apply (save_rows_refused employer_fields).
  - by apply (save_rows_refused vacancy_fields).
Qed.

(** X15. Once connected, [safe_data_to_employers] and
    [safe_data_to_vacancies] return without raising, whatever the driver
    does and whatever [data] holds, and they commit all or nothing:
    [commit] is called only after the rows of every element of [data] were
    executed, in order, through one cursor, and that cursor was closed;
    otherwise no [commit] is called and the error is printed. The close of
    the connection is the last call. *)
Theorem safe_data_commits_all_or_nothing (data : list value)
    (database_name : ustr) (params : gmap string value) (s : Session W)
    (c : connection) (d1 : W) :
  psycopg2_connect_kw database_name params (backend s) = (Ok c, d1) ->
  all_or_nothing employer_row sql_insert_employers data database_name
    params c s (safe_data_to_employers data database_name params s)
  /\ all_or_nothing vacancy_row sql_insert_vacancies data database_name
       params c s (safe_data_to_vacancies data database_name params s).
Proof.
  intros Hconnect. split.
  - eapply (save_rows_run employer_fields employer_row employer_fields_row);
      eassumption.
  - eapply (save_rows_run vacancy_fields vacancy_row vacancy_fields_row);
      eassumption.
Qed.

(** X16. On a driver that accepts every statement and every commit, with
    [data] whose elements all have their row, [safe_data_to_employers] and
    [safe_data_to_vacancies] execute one insert per element, in the order
    of [data], close the cursor, commit, close the connection, and print
    the line of the connection only. *)
Theorem safe_data_stores_every_row (data : list value)
    (database_name : ustr) (params : gmap string value) (s : Session W)
    (c : connection) (d1 : W) (cur : cursor) (d2 : W) :
  accepting ->
  psycopg2_connect_kw database_name params (backend s) = (Ok c, d1) ->
  conn_cursor c d1 = (Ok cur, d2) ->
  let stored query rows (run : outcome unit * Session W) :=
    fst run = Ok tt
    /\ events (snd run)
       = events s
         ++ EvConnect database_name params :: EvCursor c
            :: written cur query rows
         ++ [EvCursorClose cur; EvCommit c; EvClose c]
    /\ output (snd run) = output s ++ [msg_connected database_name] in
  (forall rows,
     mapM employer_row data = Some rows ->
     stored sql_insert_employers rows
       (safe_data_to_employers data database_name params s))
  /\ (forall rows,
        mapM vacancy_row data = Some rows ->
        stored sql_insert_vacancies rows
          (safe_data_to_vacancies data database_name params s)).
Proof.
  intros Hacc Hconnect Hcursor stored. split; intros rows Hrows.
  - by apply (save_rows_accepted employer_fields employer_row
                employer_fields_row _ _ _ _ _ _ _ d1 _ d2).
  - by apply (save_rows_accepted vacancy_fields vacancy_row
                vacancy_fields_row _ _ _ _ _ _ _ d1 _ d2).
Qed.

(** X17. [is_database] asks on a connection to the database [postgres].
    When that connection is refused with a [DatabaseError] it answers
    [False] without a cursor. On an open connection it never commits,
    prints nothing more, and closes the connection last, whether it
    returns or raises; when the statement runs, the answer is whether
    [fetchone] gave a row. *)
Theorem is_database_outcome (database_name : ustr)
    (params : gmap string value) (s : Session W) :
  let run := is_database database_name params s in
  let asked := EvConnect (u8 "postgres") params in
  (forall e d1,
     psycopg2_connect_kw (u8 "postgres") params (backend s) = (Raised e, d1) ->
     isinstance e DatabaseError = true ->
     run = (Ok false,
            {| backend := d1; events := events s ++ [asked];
               output := output s ++ [msg_error e] |}))
  /\ (forall c d1,
        psycopg2_connect_kw (u8 "postgres") params (backend s) = (Ok c, d1) ->
        (exists work,
           events (snd run) = events s ++ asked :: work ++ [EvClose c]
           /\ Forall (fun ev => is_commit ev = false) work)
        /\ output (snd run) = output s ++ [msg_connected (u8 "postgres")]
        /\ forall cur d2 d3 row d4,
             conn_cursor c d1 = (Ok cur, d2) ->
             cur_execute cur sql_is_database (Some [VStr database_name]) d2
               = (Ok tt, d3) ->
             cur_fetchone cur d3 = (Ok row, d4) ->
             fst run = Ok (negb (is_none row))
             /\ events (snd run)
                = events s
                  ++ [asked; EvCursor c;
                      EvExecute cur sql_is_database
                        (Some [VStr database_name]);
                      EvFetchone cur; EvCursorClose cur; EvClose c]).
Proof.
  intros run asked. split.
  - intros e d1 Hconnect Hdb. subst run. unfold is_database, bind at 1.
    by rewrite (connect_db_refused _ _ _ _ _ Hconnect Hdb).
  - intros c d1 Hconnect.
    destruct run as [r s'] eqn:Hrun. subst run. revert Hrun.
    unfold is_database, bind at 1.
    rewrite (connect_db_connected _ _ _ _ _ Hconnect).
    unfold with_cursor, execute, fetchone, close.
    unfold try_finally, bind, call, ret.
    cbn [backend events output].
    destruct (conn_cursor c d1) as [[cur|e1] d2] eqn:Hcursor;
      cbn [backend events output].
    + destruct (cur_execute cur sql_is_database (Some [VStr database_name])
                  d2) as [[[]|e2] d3] eqn:Hexecute;
        cbn [backend events output].
      * destruct (cur_fetchone cur d3) as [[row|e3] d4] eqn:Hfetch;
          cbn; intros [= <- <-]; cbn; rewrite <- ?app_assoc; cbn.
        -- split; [|split; [done|]].
           ++ exists [EvCursor c;
                      EvExecute cur sql_is_database
                        (Some [VStr database_name]);
                      EvFetchone cur; EvCursorClose cur].
              split; [done|]. by repeat constructor.
           ++ intros ? ? ? ? ? [= <- <-] Hex Hf.
              rewrite Hexecute in Hex. injection Hex as <-.
              rewrite Hfetch in Hf. by injection Hf as <- <-.
        -- split; [|split; [done|]].
           ++ exists [EvCursor c;
                      EvExecute cur sql_is_database
                        (Some [VStr database_name]);
                      EvFetchone cur; EvCursorClose cur].
              split; [done|]. by repeat constructor.
           ++ intros ? ? ? ? ? [= <- <-] Hex Hf.
              rewrite Hexecute in Hex. injection Hex as <-.
              by rewrite Hfetch in Hf.
      * cbn. intros [= <- <-]. cbn. rewrite <- ?app_assoc. cbn.
        split; [|split; [done|]].
        -- exists [EvCursor c;
                   EvExecute cur sql_is_database (Some [VStr database_name]);
                   EvCursorClose cur].
           split; [done|]. by repeat constructor.
        -- intros ? ? ? ? ? [= <- <-] Hex. by rewrite Hexecute in Hex.
    + cbn. intros [= <- <-]. cbn. rewrite <- ?app_assoc. cbn.
      split; [|split; [done|]].
      * exists [EvCursor c]. split; [done|]. by repeat constructor.
      * by intros.
Qed.

End StoreFacts.

Section StoreRuns.
Import DB Store.

Lemma safe_data_without_connection_witness :
  fst (@safe_data_to_employers unit server_down server_down_kw [yandex]
         (u8 "hh") ∅ (Store.fresh tt))
  = Raised (no_attribute "close").
Proof.
  destruct (@safe_data_without_connection unit server_down server_down_kw
              [yandex] (u8 "hh") ∅ (Store.fresh tt) connection_refused tt)
    as [Hemployers _].
  - reflexivity.
  - reflexivity.
  - rewrite Hemployers. reflexivity.
Defined.

Lemma safe_data_commits_all_or_nothing_witness :
  all_or_nothing vacancy_row sql_insert_vacancies [developer; VNone]
    (u8 "hh") ∅ 0%nat (Store.fresh nothing_prepared)
    (@safe_data_to_vacancies Prepared mock_cursor mock_connection
       [developer; VNone] (u8 "hh") ∅ (Store.fresh nothing_prepared)).
Proof.
  apply (@safe_data_commits_all_or_nothing Prepared mock_cursor
           mock_connection [developer; VNone] (u8 "hh") ∅
           (Store.fresh nothing_prepared) 0%nat nothing_prepared).
  reflexivity.
Defined.

Lemma safe_data_stores_every_row_witness :
  let run := @safe_data_to_vacancies Prepared mock_cursor mock_connection
               [developer] (u8 "hh") ∅ (Store.fresh nothing_prepared) in
  fst run = Ok tt
  /\ events (snd run)
     = [EvConnect (u8 "hh") ∅; EvCursor 0%nat;
        EvExecute 0%nat sql_insert_vacancies (Some developer_row);
        EvCursorClose 0%nat; EvCommit 0%nat; EvClose 0%nat]
  /\ output (snd run) = [msg_connected (u8 "hh")].
Proof.
  intros run.
  destruct (@safe_data_stores_every_row Prepared mock_cursor mock_connection
              [developer] (u8 "hh") ∅ (Store.fresh nothing_prepared)
              0%nat nothing_prepared 0%nat nothing_prepared)
    as [_ Hvacancies].
  - split; intros; eexists; reflexivity.
  - reflexivity.
  - reflexivity.
  - apply (Hvacancies [developer_row]). reflexivity.
Defined.

Lemma is_database_outcome_witness :
  fst (@is_database Prepared mock_cursor mock_connection (u8 "hh") ∅
         (Store.fresh nothing_prepared))
  = Ok false.
Proof.
  destruct (@is_database_outcome Prepared mock_cursor mock_connection
              (u8 "hh") ∅ (Store.fresh nothing_prepared)) as [_ Hopen].
  destruct (Hopen 0%nat nothing_prepared eq_refl) as (_ & _ & Hrow).
  destruct (Hrow 0%nat nothing_prepared nothing_prepared VNone
              nothing_prepared eq_refl eq_refl eq_refl) as [Hanswer _].
  exact Hanswer.
Defined.

End StoreRuns.

(** ** Creating the tables *)

Section TableFacts.
Import DB Store.
Context {W : Type} `{Psycopg2 W} `{Psycopg2Kw W}.

Lemma create_table_run (query : ustr) (otherwise : Comp (Session W) unit)
    (missing : list ustr) (database_name : ustr)
    (params : gmap string value) (s : Session W) (c : connection) (d1 : W)
    (cur : cursor) (d2 : W) :
  (forall s0, otherwise s0
     = (Ok tt, {| backend := backend s0; events := events s0;
                  output := output s0 ++ missing |})) ->
  psycopg2_connect_kw database_name params (backend s) = (Ok c, d1) ->
  conn_cursor c d1 = (Ok cur, d2) ->
  created_if_found query missing c cur
    (is_database database_name params
       {| backend := d2;
          events := events s ++ [EvConnect database_name params; EvCursor c];
          output := output s ++ [msg_connected database_name] |})
    (create_table query otherwise database_name params s).
Proof.
  intros Hotherwise Hconnect Hcursor. unfold created_if_found.
  destruct (create_table _ _ _ _ _) as [r s'] eqn:Hrun. cbn [fst snd].
  revert Hrun. unfold create_table, bind at 1.
  rewrite (connect_db_connected _ _ _ _ _ Hconnect).
  unfold try_finally at 1, try_except at 1.
  unfold with_cursor at 1, bind at 1, call at 1. cbn [backend events output].
  rewrite Hcursor. rewrite <- app_assoc. cbn [app].
  unfold try_finally at 1, bind at 1.
  destruct (is_database database_name params _) as [[[]|e] s1];
    cbn [fst snd].
  - unfold bind at 1, execute at 1, call at 1.
    destruct (cur_execute cur query None (backend s1)) as [[[]|e] d3].
    + unfold commit, call, close. cbn [backend events output].
      destruct (conn_commit c d3) as [[[]|e] d4]; cbn;
        [|rewrite isinstance_Exception]; intros [= <- <-]; cbn;
        (split; [done|]); rewrite <- ?app_assoc; cbn;
        by rewrite ?app_nil_r.
    + unfold call, close. cbn. rewrite isinstance_Exception.
      intros [= <- <-]. cbn. split; [done|].
      rewrite <- ?app_assoc. by cbn.
  - unfold bind at 1. rewrite Hotherwise.
    unfold commit, call, close. cbn [backend events output].
    destruct (conn_commit c (backend s1)) as [[[]|e] d4]; cbn;
      [|rewrite isinstance_Exception]; intros [= <- <-]; cbn;
      (split; [done|]); rewrite <- ?app_assoc; cbn;
      by rewrite ?app_nil_r.
  - unfold call, close. cbn. rewrite isinstance_Exception.
    intros [= <- <-]. cbn. rewrite <- ?app_assoc. by cbn.
Qed.

Lemma create_table_refused (query : ustr)
    (otherwise : Comp (Session W) unit) (database_name : ustr)
    (params : gmap string value) (s : Session W) (e : exn) (d1 : W) :
  psycopg2_connect_kw database_name params (backend s) = (Raised e, d1) ->
  isinstance e DatabaseError = true ->
  create_table query otherwise database_name params s
  = (Raised (no_attribute "close"),
     {| backend := d1;
        events := events s ++ [EvConnect database_name params];
        output := output s
          ++ [msg_error e; msg_error (no_attribute "cursor")] |}).
Proof.
  intros Hconnect Hdb. unfold create_table, bind at 1.
  rewrite (connect_db_refused _ _ _ _ _ Hconnect Hdb).
  unfold try_finally, try_except, with_cursor, raise, close.
  rewrite isinstance_Exception. unfold report, print, modify. cbn.
  by rewrite <- app_assoc.
Qed.

(** X18. [create_table_employers] and [create_table_vacancies], once
    connected with a cursor open, do what [is_database] answers: on [True]
    they execute their CREATE TABLE statement and call [commit] exactly
    when the statement did not raise; on [False] they execute nothing
    ([create_table_vacancies] says that the database does not exist) and
    call [commit] all the same; when [is_database] raises they do nothing
    more. What the statement, [commit] or [is_database] raised is printed.
    They return in every case, closing the cursor and then the connection.
    Refused the connection with a [DatabaseError], they raise
    [AttributeError] from [conn.close()] on [None]. *)
Theorem create_table_follows_is_database (database_name : ustr)
    (params : gmap string value) (s : Session W) :
  (forall c d1 cur d2,
     psycopg2_connect_kw database_name params (backend s) = (Ok c, d1) ->
     conn_cursor c d1 = (Ok cur, d2) ->
     let asked :=
       is_database database_name params
         {| backend := d2;
            events := events s
              ++ [EvConnect database_name params; EvCursor c];
            output := output s ++ [msg_connected database_name] |} in
     created_if_found sql_create_table_employers [] c cur asked
       (create_table_employers database_name params s)
     /\ created_if_found sql_create_table_vacancies
          [u8 "БД не существует"] c cur asked
          (create_table_vacancies database_name params s))
  /\ (forall e d1,
        psycopg2_connect_kw database_name params (backend s)
          = (Raised e, d1) ->
        isinstance e DatabaseError = true ->
        fst (create_table_employers database_name params s)
          = Raised (no_attribute "close")
        /\ fst (create_table_vacancies database_name params s)
           = Raised (no_attribute "close")).
Proof.
  split.
  - intros c d1 cur d2 Hconnect Hcursor asked. split.
    + apply (create_table_run _ _ _ _ _ _ _ d1 _ d2); [|done|done].
      intros [d ev out]. unfold ret. cbn. by rewrite app_nil_r.
    + by apply (create_table_run _ _ _ _ _ _ _ d1 _ d2).
  - intros e d1 Hconnect Hdb. split.
    + unfold create_table_employers.
      by rewrite (create_table_refused _ _ _ _ _ _ _ Hconnect Hdb).
    + unfold create_table_vacancies.
      by rewrite (create_table_refused _ _ _ _ _ _ _ Hconnect Hdb).
Qed.

End TableFacts.

Section TableRuns.
Import DB Store.

Lemma create_table_follows_is_database_witness :
  let found := @create_table_employers Prepared mock_cursor mock_connection
                 (u8 "hh") ∅ (Store.fresh one_prepared) in
  let missing := @create_table_vacancies Prepared mock_cursor
                   mock_connection (u8 "hh") ∅
                   (Store.fresh nothing_prepared) in
  let asked := [EvConnect (u8 "hh") ∅; EvCursor 0%nat;
                EvConnect (u8 "postgres") ∅; EvCursor 0%nat;
                EvExecute 0%nat sql_is_database (Some [VStr (u8 "hh")]);
                EvFetchone 0%nat; EvCursorClose 0%nat; EvClose 0%nat] in
  (fst found = Ok tt
   /\ events (snd found)
      = asked ++ [EvExecute 0%nat sql_create_table_employers None;
                  EvCommit 0%nat; EvCursorClose 0%nat; EvClose 0%nat])
  /\ fst missing = Ok tt
  /\ events (snd missing)
     = asked ++ [EvCommit 0%nat; EvCursorClose 0%nat; EvClose 0%nat].
Proof.
  intros found missing asked. split; [|split].
  - destruct (@create_table_follows_is_database Prepared mock_cursor
                mock_connection (u8 "hh") ∅ (Store.fresh one_prepared))
      as [Hopen _].
    destruct (Hopen 0%nat one_prepared 0%nat one_prepared eq_refl eq_refl)
      as [[Hreturns Hevents] _].
    split; [exact Hreturns|exact (proj1 Hevents)].
  - destruct (@create_table_follows_is_database Prepared mock_cursor
                mock_connection (u8 "hh") ∅ (Store.fresh nothing_prepared))
      as [Hopen _].
    destruct (Hopen 0%nat nothing_prepared 0%nat nothing_prepared
                eq_refl eq_refl) as [_ [Hreturns _]].
    exact Hreturns.
  - destruct (@create_table_follows_is_database Prepared mock_cursor
                mock_connection (u8 "hh") ∅ (Store.fresh nothing_prepared))
      as [Hopen _].
    destruct (Hopen 0%nat nothing_prepared 0%nat nothing_prepared
                eq_refl eq_refl) as [_ [_ Hevents]].
    exact (proj1 Hevents).
Defined.

End TableRuns.
